(** * GraphSAGE topology-cleaning pipeline: a shallow embedding

    The development follows the training scripts under
    [scripts/graphsage/]:

    - [train_graphsage.py]                 (base pipeline, flat JSON input)
    - [train_graphsage_improved.py]        (edge validation, early stopping)
    - [train_graphsage_high_confidence.py] (confidence-gated evaluation)
    - [train_graphsage_direct.py]          (PostGIS loader, label fallback,
                                            random partition, DB persistence)

    Tensors are lists, Python dictionaries are finite maps, the file system
    and the database are explicit states, and a Python call that may raise
    returns an [outcome].  The numeric library (model forward pass, softmax,
    loss) is not re-implemented: its results enter as section variables, so
    every statement holds for whatever values the library produces. *)

From Stdlib Require Import ZArith QArith Qpower Qround Lia Lqa Bool List.
From Stdlib Require Import SpecFloat Permutation.
From stdpp Require Import base option list gmap strings sorting.

Open Scope Z_scope.

(* ===================================================================== *)
(** * Part I: the model                                                   *)
(* ===================================================================== *)

(** ** Python exceptions and results *)

Inductive exn :=
| AttributeError
| FileNotFoundError
| FileExistsError
| IsADirectoryError
| PermissionError
| IndexError
| KeyError
| RuntimeError
| OverflowError
| ValueError
| ZeroDivisionError
| DatabaseError.

Inductive outcome (A : Type) :=
| Returned (a : A)
| Raised (e : exn).
Arguments Returned {A} a.
Arguments Raised {A} e.

Definition bind_outcome {A B} (m : outcome A) (k : A -> outcome B) : outcome B :=
  match m with
  | Returned a => k a
  | Raised e => Raised e
  end.

Notation "'let!' x ':=' m 'in' k" := (bind_outcome m (fun x => k))
  (at level 10, x name, m at level 100, k at level 200).

(** A fallible function applied to every element, left to right. *)
Fixpoint map_outcome {A B} (f : A -> outcome B) (l : list A)
  : outcome (list B) :=
  match l with
  | [] => Returned []
  | a :: t =>
      let! b := f a in
      let! bs := map_outcome f t in
      Returned (b :: bs)
  end.

(** The interpreter's exit status for [if __name__ == '__main__': main()]:
    a normal return exits with 0, an uncaught exception with 1. *)
Definition exit_status {A} (r : outcome A) : Z :=
  match r with
  | Returned _ => 0
  | Raised _ => 1
  end.

(** ** Floating-point values as the comparisons of the scripts see them

    A float is NaN, an infinity or a finite value; every finite binary
    float is a rational, so [Fin q] carries it exactly.  Comparisons with
    NaN are false, as in IEEE 754. *)
Module PyFloat.

Inductive pyfloat :=
| NaN
| NegInf
| Fin (q : Q)
| PosInf.

Definition is_finite (a : pyfloat) : bool :=
  match a with
  | Fin _ => true
  | _ => false
  end.

Definition is_nan (a : pyfloat) : bool :=
  match a with
  | NaN => true
  | _ => false
  end.

(** [a <= b] *)
Definition fle (a b : pyfloat) : bool :=
  match a, b with
  | NaN, _ | _, NaN => false
  | NegInf, _ => true
  | _, PosInf => true
  | Fin x, Fin y => Qle_bool x y
  | _, _ => false
  end.

(** [a < b] *)
Definition flt (a b : pyfloat) : bool :=
  match a, b with
  | NaN, _ | _, NaN => false
  | NegInf, NegInf => false
  | NegInf, _ => true
  | PosInf, _ => false
  | Fin _, NegInf => false
  | Fin x, Fin y => negb (Qle_bool y x)
  | Fin _, PosInf => true
  end.

(** [a >= b] and [a > b] *)
Definition fge (a b : pyfloat) : bool := fle b a.
Definition fgt (a b : pyfloat) : bool := flt b a.

End PyFloat.
Export PyFloat.

(** ** Single precision

    A tensor of [torch.float] holds binary32 values, and a Python float
    that meets such a tensor in a comparison is first rounded to binary32
    (round to nearest, ties to even; 24 significant bits, smallest
    exponent -149, overflow to infinity from 2^128 on). *)
Module Float32.

(** The nearest integer, ties to the even one. *)
Definition round_half_even (x : Q) : Z :=
  let f := Qfloor x in
  match (x - inject_Z f ?= 1 # 2)%Q with
  | Lt => f
  | Eq => if Z.even f then f else f + 1
  | Gt => f + 1
  end.

(** [floor (log2 x)] of a positive rational. *)
Definition ilog2 (x : Q) : Z :=
  let k := Z.log2 (Qnum x) - Z.log2 (Z.pos (Qden x)) in
  if Qle_bool (2 ^ k) x then k else k - 1.

(** The exponent of the last significant bit of a positive value. *)
Definition exponent (x : Q) : Z := Z.max (ilog2 x - 23) (-149).

(** The nearest multiple of [2 ^ exponent x]. *)
Definition round_pos (x : Q) : Q :=
  let e := exponent x in
  Qred (inject_Z (round_half_even (x * 2 ^ (- e))) * 2 ^ e).

Definition overflows (r : Q) : bool := Qle_bool (2 ^ 128) r.

Definition float32 (a : pyfloat) : pyfloat :=
  match a with
  | Fin q =>
      match (q ?= 0)%Q with
      | Eq => Fin 0
      | Gt => let r := round_pos q in if overflows r then PosInf else Fin r
      | Lt => let r := round_pos (- q) in if overflows r then NegInf else Fin (- r)
      end
  | _ => a
  end.

End Float32.
Export Float32.

(** ** High-confidence evaluation ([train_graphsage_high_confidence.py]) *)
Module HighConfidence.

(** The default of [--confidence-threshold] and of the
    [confidence_threshold] parameter. *)
Definition default_confidence_threshold : pyfloat :=
  Fin (3602879701896397 # 4503599627370496).   (* the Python float 0.8 *)

(** [torch.max(row)] with its index: the running best is replaced by a
    strictly greater element, and by the first NaN (NaN propagates); ties
    keep the first maximal position. *)
Definition better (x best : pyfloat) : bool :=
  match best with
  | NaN => false
  | _ => is_nan x || flt best x
  end.

Fixpoint max_from (best : pyfloat) (bi i : nat) (l : list pyfloat)
  : pyfloat * nat :=
  match l with
  | [] => (best, bi)
  | x :: t =>
      if better x best then max_from x i (S i) t
      else max_from best bi (S i) t
  end.

(** Reducing over an empty dimension raises. *)
Definition torch_max (row : list pyfloat) : outcome (pyfloat * nat) :=
  match row with
  | [] => Raised IndexError
  | x :: t => Returned (max_from x 0%nat 1%nat t)
  end.

(** [max_probs >= confidence_threshold] for one node: [max_probs] is a
    [torch.float] tensor, so the Python float is rounded to single
    precision before the comparison. *)
Definition confident (confidence_threshold : pyfloat) (max_prob : pyfloat) : bool :=
  fge max_prob (float32 confidence_threshold).

(** [torch.where(confident_mask, predictions, 0)] for one node. *)
Definition gate (confidence_threshold : pyfloat) (mp : pyfloat * nat) : nat :=
  if confident confidence_threshold (fst mp) then snd mp else 0%nat.

Section Evaluate.

(** [F.softmax(out, dim=1)] on one row of logits. *)
Variable softmax : list pyfloat -> list pyfloat.

Record evaluation := {
  probabilities : list (list pyfloat);
  max_probs : list pyfloat;
  predictions : list nat;
  confident_mask : list bool;
  final_predictions : list nat;
  confident_count : nat
}.

(** [evaluate_model_high_confidence], from the logits [out] of the model on
    every node (one row per node, [data.num_nodes] rows) to the gated
    predictions.  The report of the confident predictions divides by
    [data.num_nodes]. *)
Definition evaluate_model_high_confidence
  (out : list (list pyfloat)) (confidence_threshold : pyfloat)
  : outcome evaluation :=
  let probs := map softmax out in
  let! maxes := map_outcome torch_max probs in
  let mask := map (fun mp => confident confidence_threshold (fst mp)) maxes in
  let final := map (gate confidence_threshold) maxes in
  let count := length (filter (fun b => b = true) mask) in
  if (length out =? 0)%nat then Raised ZeroDivisionError
  else
    Returned {|
      probabilities := probs;
      max_probs := map fst maxes;
      predictions := map snd maxes;
      confident_mask := mask;
      final_predictions := final;
      confident_count := count
    |}.

End Evaluate.

End HighConfidence.

(** ** The PostGIS loader ([train_graphsage_direct.py]) *)
Module Direct.

(** One row of the node query: [id, x, y, z, degree,
    avg_incident_edge_length]. *)
Record node_row := {
  row_id : Z;
  row_x : pyfloat;
  row_y : pyfloat;
  row_z : pyfloat;
  row_degree : Z;
  row_avg_len : pyfloat
}.

(** The body of the labelling loop. *)
Definition label_of_degree (degree : Z) : Z :=
  if degree =? 2 then 1        (* Merge degree-2 *)
  else if degree >=? 4 then 2  (* Split Y/T intersection *)
  else 0.                      (* Keep as-is *)

(** [node_labels = []; for row in node_rows: ...; node_labels.append(label)] *)
Definition generate_labels (node_rows : list node_row) : list Z :=
  fold_left (fun node_labels row =>
               node_labels ++ [label_of_degree (row_degree row)])
            node_rows [].

(** *** Python numbers used by the partitioner

    [int(num_nodes * 0.7)] converts the integer to a binary64 float,
    multiplies in binary64 (round to nearest, ties to even) and truncates
    toward zero.  The Standard Library's [SpecFloat] is the reference
    semantics of these operations. *)
Definition float_of_int (n : Z) : outcome spec_float :=
  match binary_normalize 53 1024 n 0 false with
  | S754_infinity _ => Raised OverflowError
  | f => Returned f
  end.

Definition float_mul : spec_float -> spec_float -> spec_float := SFmul 53 1024.

(** [int(f)]: truncation toward zero; infinities and NaN raise. *)
Definition int_of_float (f : spec_float) : outcome Z :=
  match f with
  | S754_zero _ => Returned 0
  | S754_finite s m e => Returned (cond_Zopp s (Z.shiftl (Z.pos m) e))
  | S754_infinity _ => Raised OverflowError
  | S754_nan => Raised ValueError
  end.

(** The literals [0.7] = 0x1.6666666666666p-1 and
    [0.15] = 0x1.3333333333333p-3. *)
Definition lit_0_7 : spec_float := S754_finite false 6305039478318694 (-53).
Definition lit_0_15 : spec_float := S754_finite false 5404319552844595 (-55).

(** [int(n * c)] *)
Definition int_mul_float (n : Z) (c : spec_float) : outcome Z :=
  let! f := float_of_int n in
  int_of_float (float_mul f c).

(** Slice bounds are clipped to the list; a negative bound counts from the
    end. *)
Definition slice_bound (len : nat) (i : Z) : nat :=
  if i <? 0 then Z.to_nat (Z.max 0 (Z.of_nat len + i))
  else Nat.min (Z.to_nat i) len.

(** [l[lo:hi]] *)
Definition py_slice {A} (lo hi : Z) (l : list A) : list A :=
  let a := slice_bound (length l) lo in
  let b := slice_bound (length l) hi in
  take (b - a) (drop a l).

(** [l[:hi]] and [l[lo:]] *)
Definition py_slice_to {A} (hi : Z) (l : list A) : list A :=
  take (slice_bound (length l) hi) l.
Definition py_slice_from {A} (lo : Z) (l : list A) : list A :=
  drop (slice_bound (length l) lo) l.

(** [mask[idxs] = True]; an index outside the tensor raises. *)
Fixpoint index_put_true (mask : list bool) (idxs : list nat)
  : outcome (list bool) :=
  match idxs with
  | [] => Returned mask
  | i :: t =>
      if (i <? length mask)%nat then index_put_true (<[i:=true]> mask) t
      else Raised IndexError
  end.

(** [mask.sum()] *)
Definition count_true (mask : list bool) : nat :=
  length (filter (fun b => b = true) mask).

Record masks := {
  train_mask : list bool;
  val_mask : list bool;
  test_mask : list bool
}.

Section Partition.

(** [random.shuffle]: the list it leaves behind. *)
Variable shuffle : list nat -> list nat.

(** The mask generation of [load_graph_data]. *)
Definition generate_masks (num_nodes : nat) : outcome masks :=
  let indices := shuffle (seq 0 num_nodes) in
  let! train_end := int_mul_float (Z.of_nat num_nodes) lit_0_7 in
  let! val_len := int_mul_float (Z.of_nat num_nodes) lit_0_15 in
  let val_end := train_end + val_len in
  let zeros := replicate num_nodes false in
  let! train_mask := index_put_true zeros (py_slice_to train_end indices) in
  let! val_mask := index_put_true zeros (py_slice train_end val_end indices) in
  let! test_mask := index_put_true zeros (py_slice_from val_end indices) in
  Returned {| train_mask := train_mask;
              val_mask := val_mask;
              test_mask := test_mask |}.

End Partition.

End Direct.

(** ** The flat loader ([train_graphsage_improved.py]) *)
Module Improved.

(** A [2 x E] tensor of edge endpoints: row 0 the sources, row 1 the
    targets. *)
Definition edge_tensor : Type := list Z * list Z.

(** A Python integer that fits a [torch.long] element. *)
Definition is_int64 (x : Z) : Prop := - 2 ^ 63 <= x < 2 ^ 63.

Definition int64 (x : Z) : bool := (- 2 ^ 63 <=? x) && (x <? 2 ^ 63).

(** [torch.tensor(values, dtype=torch.long)] on the row-major elements of
    the JSON value: an integer outside the 64-bit range raises. *)
Definition tensor_long (values : list Z) : outcome (list Z) :=
  if forallb int64 values then Returned values else Raised RuntimeError.

(** [.view(2, -1)]: the first half of the elements becomes row 0.  An odd
    number of elements cannot be viewed; no element gives the [2 x 0]
    tensor. *)
Definition view_2 (flat : list Z) : outcome edge_tensor :=
  let n := length flat in
  if Nat.odd n then Raised RuntimeError
  else Returned (take (n / 2) flat, drop (n / 2) flat).

(** [torch.tensor(data_dict['edge_index'], dtype=torch.long).view(2, -1)] *)
Definition read_edge_index (flat_edge_index : list Z) : outcome edge_tensor :=
  let! t := tensor_long flat_edge_index in
  view_2 t.

Definition size_1 (e : edge_tensor) : nat := length (fst e).

(** An index that names one of [n] nodes. *)
Definition in_range (n x : Z) : Prop := 0 <= x < n.

(** [edge_index.max()] and [edge_index.min()] over all elements; an empty
    tensor raises. *)
Definition tensor_max (e : edge_tensor) : outcome Z :=
  match fst e ++ snd e with
  | [] => Raised RuntimeError
  | x :: t => Returned (fold_left Z.max t x)
  end.

Definition tensor_min (e : edge_tensor) : outcome Z :=
  match fst e ++ snd e with
  | [] => Raised RuntimeError
  | x :: t => Returned (fold_left Z.min t x)
  end.

(** [(edge_index[0] < n) & (edge_index[1] < n) & (edge_index[0] >= 0)
     & (edge_index[1] >= 0)] *)
Definition valid_edge (num_nodes s t : Z) : bool :=
  (s <? num_nodes) && (t <? num_nodes) && (s >=? 0) && (t >=? 0).

Definition valid_edges_mask (num_nodes : Z) (e : edge_tensor) : list bool :=
  zip_with (valid_edge num_nodes) (fst e) (snd e).

(** [row[mask]]: the positions where the mask is true, in order. *)
Fixpoint select {A} (mask : list bool) (row : list A) : list A :=
  match mask, row with
  | b :: mask', x :: row' =>
      if b then x :: select mask' row' else select mask' row'
  | _, _ => []
  end.

(** [edge_index[:, mask]] *)
Definition select_columns (mask : list bool) (e : edge_tensor) : edge_tensor :=
  (select mask (fst e), select mask (snd e)).

(** [mask.sum()] *)
Definition mask_sum (mask : list bool) : Z :=
  Z.of_nat (length (filter (fun b => b = true) mask)).

(** [torch.clamp(edge_index, lo, hi)] *)
Definition clamp (lo hi : Z) (e : edge_tensor) : edge_tensor :=
  let c := fun x => Z.min (Z.max x lo) hi in
  (map c (fst e), map c (snd e)).

(** What the filtering branch prints: the number of edges kept and the
    number it reports as removed. *)
Record filter_report := {
  reported_valid : Z;
  reported_removed : Z
}.

(** The validation step of [load_graphsage_data], lines 37-56. *)
Definition validate_edges (num_nodes : Z) (edge_index : edge_tensor)
  : outcome (edge_tensor * option filter_report) :=
  let! max_edge_index := tensor_max edge_index in
  let! min_edge_index := tensor_min edge_index in
  let '(edge_index, report) :=
    if (max_edge_index >=? num_nodes) || (min_edge_index <? 0) then
      let valid_edges := valid_edges_mask num_nodes edge_index in
      let edge_index := select_columns valid_edges edge_index in
      (edge_index,
       Some {| reported_valid := Z.of_nat (size_1 edge_index);
               reported_removed :=
                 mask_sum valid_edges - Z.of_nat (size_1 edge_index) |})
    else (edge_index, None) in
  Returned (clamp 0 (num_nodes - 1) edge_index, report).

(** The edge part of [load_graphsage_data]: [num_nodes] is [x.size(0)]. *)
Definition load_edges (num_nodes : nat) (flat_edge_index : list Z)
  : outcome (edge_tensor * option filter_report) :=
  let! edge_index := read_edge_index flat_edge_index in
  validate_edges (Z.of_nat num_nodes) edge_index.

End Improved.

(** ** The flat loader of the base script ([train_graphsage.py])

    The same tensor construction and reshape, and no validation step
    after it. *)
Module Base.

Definition load_edges (flat_edge_index : list Z) : outcome Improved.edge_tensor :=
  Improved.read_edge_index flat_edge_index.

End Base.

(** ** The training loops

    [train_model] (base), [train_model_improved], [train_model_balanced]
    and [train_model_high_confidence] share one loop; they differ in the
    validation period and in the early-stopping bound. *)
Module Trainer.

Record config := {
  validate_every : nat;          (* [if epoch % K == 0] *)
  early_stopping : option nat    (* [if patience_counter >= P: break] *)
}.

Definition base_config : config :=
  {| validate_every := 10; early_stopping := None |}.
Definition improved_config : config :=
  {| validate_every := 10; early_stopping := Some 50%nat |}.
Definition balanced_config : config :=
  {| validate_every := 10; early_stopping := Some 30%nat |}.
Definition high_confidence_config : config :=
  {| validate_every := 15; early_stopping := Some 40%nat |}.

(** The local variables of the loop; [optimizer_steps] counts the calls of
    [optimizer.step()], the parameter updates. *)
Record train_state := {
  train_losses : list pyfloat;
  val_accuracies : list pyfloat;
  best_val_acc : pyfloat;
  patience_counter : nat;
  optimizer_steps : nat
}.

Definition initial_state : train_state :=
  {| train_losses := [];
     val_accuracies := [];
     best_val_acc := Fin 0;
     patience_counter := 0;
     optimizer_steps := 0 |}.

Inductive flow := Continue | Break.

Section Loop.

Variable cfg : config.

(** What the numeric library computes in each epoch: the training loss of
    the forward pass and the accuracy on the validation partition. *)
Variable loss_at : nat -> pyfloat.
Variable val_acc_at : nat -> pyfloat.

(** [zero_grad; forward; loss; backward; (clip); optimizer.step()] *)
Definition optimization_step (s : train_state) : train_state :=
  {| train_losses := train_losses s;
     val_accuracies := val_accuracies s;
     best_val_acc := best_val_acc s;
     patience_counter := patience_counter s;
     optimizer_steps := S (optimizer_steps s) |}.

(** The block under [if epoch % K == 0]. *)
Definition validation (epoch : nat) (s : train_state) : train_state * flow :=
  let val_acc := val_acc_at epoch in
  let losses := train_losses s ++ [loss_at epoch] in
  let accs := val_accuracies s ++ [val_acc] in
  match early_stopping cfg with
  | None =>
      ({| train_losses := losses;
          val_accuracies := accs;
          best_val_acc := best_val_acc s;
          patience_counter := patience_counter s;
          optimizer_steps := optimizer_steps s |}, Continue)
  | Some patience =>
      let '(best, counter) :=
        if fgt val_acc (best_val_acc s) then (val_acc, 0%nat)
        else (best_val_acc s, S (patience_counter s)) in
      ({| train_losses := losses;
          val_accuracies := accs;
          best_val_acc := best;
          patience_counter := counter;
          optimizer_steps := optimizer_steps s |},
       if (patience <=? counter)%nat then Break else Continue)
  end.

Definition epoch_body (epoch : nat) (s : train_state) : train_state * flow :=
  let s := optimization_step s in
  if (epoch mod validate_every cfg =? 0)%nat then validation epoch s
  else (s, Continue).

(** [for epoch in epochs: ...] with [break]. *)
Fixpoint run_epochs (epochs : list nat) (s : train_state) : train_state :=
  match epochs with
  | [] => s
  | epoch :: rest =>
      match epoch_body epoch s with
      | (s', Break) => s'
      | (s', Continue) => run_epochs rest s'
      end
  end.

(** [range(epochs)]: empty for a negative bound. *)
Definition range (epochs : Z) : list nat := seq 0 (Z.to_nat epochs).

(** The training function: it has no [raise] and returns its history. *)
Definition train_model (epochs : Z) : outcome train_state :=
  Returned (run_epochs (range epochs) initial_state).

End Loop.

End Trainer.

(** ** Early stopping as the specification words it

    The validation checkpoints of a run are the epochs divisible by the
    validation period; a checkpoint improves when its accuracy exceeds the
    best accuracy observed before it (0 before the first); the stale run
    is the number of consecutive checkpoints, counted back from the latest
    one, that did not improve. *)
Module EarlyStopSpec.

Definition best_so_far (accs : list pyfloat) : pyfloat :=
  fold_left (fun best v => if fgt v best then v else best) accs (Fin 0).

Definition improving (accs : list pyfloat) (i : nat) : bool :=
  match accs !! i with
  | Some v => fgt v (best_so_far (take i accs))
  | None => false
  end.

(** The longest prefix whose elements satisfy [p]. *)
Fixpoint take_while {A} (p : A -> bool) (l : list A) : list A :=
  match l with
  | [] => []
  | x :: t => if p x then x :: take_while p t else []
  end.

Definition stale_run (accs : list pyfloat) : nat :=
  length (take_while (fun i => negb (improving accs i))
                     (rev (seq 0 (length accs)))).

Section Checkpoints.

Variable K : nat.
Variable val_acc_at : nat -> pyfloat.

(** The accuracies of the checkpoints among the epochs [0 .. e-1]. *)
Definition checkpoint_accs (e : nat) : list pyfloat :=
  map val_acc_at (filter (fun epoch => (epoch mod K =? 0)%nat = true) (seq 0 e)).

(** Epoch [e] is a checkpoint at which the stale run has reached the
    patience window. *)
Definition patience_exhausted (patience e : nat) : bool :=
  (e mod K =? 0)%nat && (patience <=? stale_run (checkpoint_accs (S e)))%nat.

(** The first such epoch below the epoch limit. *)
Definition first_stop (patience epochs : nat) : option nat :=
  find (patience_exhausted patience) (seq 0 epochs).

(** The loop invariant before epoch [a]: the local variables of the
    training loop agree with these notions over the checkpoints seen so
    far. *)
Definition loop_invariant (a : nat) (s : Trainer.train_state) : Prop :=
  Trainer.optimizer_steps s = a /\
  Trainer.val_accuracies s = checkpoint_accs a /\
  Trainer.patience_counter s = stale_run (Trainer.val_accuracies s) /\
  Trainer.best_val_acc s = best_so_far (Trainer.val_accuracies s).

End Checkpoints.

End EarlyStopSpec.

(** ** The command-line scripts and the files they touch *)
Module Script.

(** The JSON export of a graph: the keys [x], [edge_index], [y] and the
    three masks. *)
Record graph_export := {
  export_x : list (list pyfloat);
  export_edge_index : list Z;
  export_y : list Z;
  export_train_mask : list bool;
  export_val_mask : list bool;
  export_test_mask : list bool
}.

(** What a file holds: text that is not a JSON document, the export of a
    graph, or the structure [json.dump] writes for a predictions
    artifact. *)
Inductive file_content :=
| RawText (s : string)
| GraphExport (g : graph_export)
| PredictionData (predictions : list Z) (metadata : gmap string string).

Record file := {
  readable : bool;
  content : file_content
}.

(** The lines on standard output.  [MsgLibrary] is a line of the loader
    after it has opened the file, of model creation, of training or of
    evaluation; [MsgTrainingComplete] is the closing block of [main]. *)
Inductive message :=
| MsgDataFileNotFound (path : string)
| MsgLoadingData (path : string)
| MsgLibrary (line : string)
| MsgSavingPredictions (path : string)
| MsgPredictionsSaved
| MsgTrainingComplete.

(** The paths that name a regular file, the paths that name a directory,
    and what was printed. *)
Record world := {
  files : gmap string file;
  dirs : gset string;
  stdout : list message
}.

Definition print (m : message) (w : world) : world :=
  {| files := files w; dirs := dirs w; stdout := stdout w ++ [m] |}.

Definition print_lines (lines : list string) (w : world) : world :=
  {| files := files w; dirs := dirs w;
     stdout := stdout w ++ map MsgLibrary lines |}.

(** [os.path.exists]: true of a file and of a directory. *)
Definition path_exists (w : world) (path : string) : bool :=
  bool_decide (is_Some (files w !! path)) || bool_decide (path ∈ dirs w).

(** [open(path, 'r')] followed by reading the whole file. *)
Definition open_read (w : world) (path : string) : outcome file_content :=
  match files w !! path with
  | Some f => if readable f then Returned (content f) else Raised PermissionError
  | None =>
      if bool_decide (path ∈ dirs w) then Raised IsADirectoryError
      else Raised FileNotFoundError
  end.

(** What the operating system answers where the model does not compute
    it, as a function of the files and directories at the time of the
    call: whether it lets a directory be made and a file be opened for
    writing (a missing parent directory, a component that is a regular
    file, a missing permission, a full disk), and which directories
    [os.makedirs] makes on the way to its target. *)
Record operating_system := {
  makedirs_error : gmap string file -> gset string -> string -> option exn;
  makedirs_made : gmap string file -> gset string -> string -> gset string;
  open_write_error : gmap string file -> gset string -> string -> option exn
}.

Section OperatingSystem.

Variable os : operating_system.

(** [open(path, 'w')] followed by [json.dump]: a directory cannot be
    opened; an existing file keeps its permissions, a new file is
    readable. *)
Definition write_file (path : string) (c : file_content) (w : world)
  : outcome unit * world :=
  if bool_decide (path ∈ dirs w) then (Raised IsADirectoryError, w)
  else
    match open_write_error os (files w) (dirs w) path with
    | Some e => (Raised e, w)
    | None =>
        let r := match files w !! path with
                 | Some f => readable f
                 | None => true
                 end in
        (Returned tt,
         {| files := <[path := {| readable := r; content := c |}]> (files w);
            dirs := dirs w;
            stdout := stdout w |})
    end.

(** [os.makedirs(path, exist_ok=True)]: the empty path and a path that
    names a regular file raise, an existing directory is accepted. *)
Definition makedirs (path : string) (w : world) : outcome unit * world :=
  match files w !! path with
  | Some _ => (Raised FileExistsError, w)
  | None =>
      if String.eqb path "" then (Raised FileNotFoundError, w)
      else if bool_decide (path ∈ dirs w) then (Returned tt, w)
      else
        let made := makedirs_made os (files w) (dirs w) path in
        match makedirs_error os (files w) (dirs w) path with
        | Some e =>
            (Raised e,
             {| files := files w; dirs := made ∪ dirs w; stdout := stdout w |})
        | None =>
            (Returned tt,
             {| files := files w;
                dirs := {[path]} ∪ made ∪ dirs w;
                stdout := stdout w |})
        end
  end.

(** An attribute of a Python module, as far as [x.now().isoformat()] can
    tell: a class with a [now] method, or anything else. *)
Inductive pyobj :=
| ClassWithNow (isoformat : string)
| OtherObject.

Definition saver : Type :=
  list Z -> string -> gmap string string -> world -> outcome unit * world.

(** [save_predictions] of [train_graphsage.py]: the timestamp is read from
    [torch.datetime.now()]; [torch] is the namespace of the imported
    module. *)
Definition save_predictions_base (torch : gmap string pyobj) : saver :=
  fun predictions output_path metadata w =>
  let w := print (MsgSavingPredictions output_path) w in
  match torch !! "datetime"%string with
  | None => (Raised AttributeError, w)
  | Some OtherObject => (Raised AttributeError, w)
  | Some (ClassWithNow now) =>
      let prediction_data :=
        PredictionData predictions
          (<["prediction_timestamp"%string := now]>
             (<["model_type"%string := "GraphSAGE"%string]> metadata)) in
      match write_file output_path prediction_data w with
      | (Raised e, w) => (Raised e, w)
      | (Returned _, w) => (Returned tt, print MsgPredictionsSaved w)
      end
  end.

(** [save_predictions] of [train_graphsage_improved.py]: the timestamp
    comes from [__import__('datetime').datetime.now()], passed as [now]. *)
Definition save_predictions_improved (now : string) : saver :=
  fun predictions output_path metadata w =>
  let w := print (MsgSavingPredictions output_path) w in
  let prediction_data :=
    PredictionData predictions
      (<["prediction_timestamp"%string := now]>
         (<["model_type"%string := "ImprovedGraphSAGE"%string]> metadata)) in
  match write_file output_path prediction_data w with
  | (Raised e, w) => (Raised e, w)
  | (Returned _, w) => (Returned tt, print MsgPredictionsSaved w)
  end.

Record args := {
  data_path : string;
  epochs : Z;
  hidden_dim : Z;
  output_dir : string
}.

Section Main.

(** The graph a script trains on, and the library work between the file
    and the predictions, each with the lines it prints before it returns
    or raises: parsing with tensor construction, then model creation,
    training and evaluation. *)
Variable data : Type.
Variable parse : file_content -> list string * outcome data.
Variable train_and_evaluate :
  data -> args -> list string * outcome (list Z * gmap string string).

(** [os.path.join] *)
Variable path_join : string -> string -> string.

Variable save_predictions : saver.
Variable artifact_name : string.

Definition load_graphsage_data (json_path : string) (w : world)
  : outcome data * world :=
  let w := print (MsgLoadingData json_path) w in
  match open_read w json_path with
  | Raised e => (Raised e, w)
  | Returned c => (snd (parse c), print_lines (fst (parse c)) w)
  end.

(** [main] of the flat-file scripts. *)
Definition main (a : args) (w : world) : outcome unit * world :=
  if negb (path_exists w (data_path a)) then
    (Returned tt, print (MsgDataFileNotFound (data_path a)) w)
  else
    match load_graphsage_data (data_path a) w with
    | (Raised e, w) => (Raised e, w)
    | (Returned d, w) =>
        let w := print_lines (fst (train_and_evaluate d a)) w in
        match snd (train_and_evaluate d a) with
        | Raised e => (Raised e, w)
        | Returned (predictions, metadata) =>
            let output_path := path_join (output_dir a) artifact_name in
            match makedirs (output_dir a) w with
            | (Raised e, w) => (Raised e, w)
            | (Returned _, w) =>
                match save_predictions predictions output_path metadata w with
                | (Raised e, w) => (Raised e, w)
                | (Returned _, w) => (Returned tt, print MsgTrainingComplete w)
                end
            end
        end
    end.

End Main.

End OperatingSystem.

End Script.

(** ** Persisting predictions to the database
       ([save_predictions_to_db] of [train_graphsage_direct.py]) *)
Module DirectSave.

Record prediction_row := {
  node_id : Z;
  prediction : Z;
  confidence : pyfloat
}.

(** The constant the insert statement passes as confidence. *)
Definition simplified_confidence : pyfloat := Fin (8 # 10).

Inductive statement :=
| CreateTableIfNotExists
| DeleteAll
| Insert (r : prediction_row)
| Commit.

(** The predictions table inside the open transaction: [None] while the
    table does not exist. *)
Definition table : Type := option (list prediction_row).

Definition apply_statement (st : statement) (t : table) : outcome table :=
  match st, t with
  | CreateTableIfNotExists, None => Returned (Some [])
  | CreateTableIfNotExists, Some rows => Returned (Some rows)
  | DeleteAll, Some _ => Returned (Some [])
  | Insert r, Some rows => Returned (Some (rows ++ [r]))
  | Commit, t => Returned t
  | _, None => Raised DatabaseError
  end.

(** [for idx, pred in enumerate(predictions)]: the parameters
    [(idx, int(pred), 0.8)] of each insert, and the inserts. *)
Definition insert_parameters (predictions : list Z) : list prediction_row :=
  imap (fun idx pred =>
          {| node_id := Z.of_nat idx;
             prediction := pred;
             confidence := simplified_confidence |})
       predictions.

Definition insert_statements (predictions : list Z) : list statement :=
  map Insert (insert_parameters predictions).

Definition statements (predictions : list Z) : list statement :=
  [CreateTableIfNotExists; DeleteAll] ++ insert_statements predictions ++ [Commit].

Section Database.

(** Whether the server accepts the connection, and whether it executes
    the [k]-th statement of the transaction. *)
Variable connect_ok : bool.
Variable statement_ok : nat -> bool.

Fixpoint execute_from (k : nat) (sts : list statement) (t : table)
  : outcome table :=
  match sts with
  | [] => Returned t
  | st :: rest =>
      if statement_ok k then
        let! t' := apply_statement st t in
        execute_from (S k) rest t'
      else Raised DatabaseError
  end.

(** The function: connecting happens outside the [try]; inside it, any
    exception is printed and the transaction rolled back. *)
Definition save_predictions_to_db (predictions : list Z) (db : table)
  : outcome unit * table :=
  if connect_ok then
    match execute_from 0 (statements predictions) db with
    | Returned t => (Returned tt, t)
    | Raised _ => (Returned tt, db)
    end
  else (Raised DatabaseError, db).

End Database.

(** The loader's dictionary
    [{node_id: idx for idx, node_id in enumerate(node_ids)}]. *)
Definition node_id_to_idx (node_ids : list Z) : gmap Z nat :=
  fold_left (fun m p => <[snd p := fst p]> m)
            (imap (fun idx id => (idx, id)) node_ids) ∅.

End DirectSave.


(** ** The graph the PostGIS loader assembles
       ([PostGISGraphLoader.load_graph_data], lines 80-163) *)
Module DirectGraph.

(** [edge_list = []; for source, target in edge_rows: if source in
    node_id_to_idx and target in node_id_to_idx: edge_list.append(...)] *)
Definition edge_list (node_ids : list Z) (edge_rows : list (Z * Z))
  : list (nat * nat) :=
  fold_left
    (fun edge_list st =>
       match DirectSave.node_id_to_idx node_ids !! fst st,
             DirectSave.node_id_to_idx node_ids !! snd st with
       | Some s, Some t => edge_list ++ [(s, t)]
       | _, _ => edge_list
       end)
    edge_rows [].

(** [[row[1], row[2], row[3], row[4], row[5]]] as floats. *)
Definition feature_row (row : Direct.node_row) : list pyfloat :=
  [Direct.row_x row; Direct.row_y row; Direct.row_z row;
   Fin (inject_Z (Direct.row_degree row)); Direct.row_avg_len row].

(** [y.max()]: raises on a tensor without elements. *)
Definition labels_max (y : list Z) : outcome Z :=
  match y with
  | [] => Raised RuntimeError
  | l :: t => Returned (fold_left Z.max t l)
  end.

Record graph_data := {
  x : list (list pyfloat);
  edge_index : list (nat * nat);
  y : list Z;
  partition : Direct.masks
}.

Section Load.

Variable shuffle : list nat -> list nat.

(** From the rows of the two queries to the graph; the last step is the
    report of the number of classes, [data.y.max().item() + 1]. *)
Definition load_graph_data
  (node_rows : list Direct.node_row) (edge_rows : list (Z * Z))
  : outcome graph_data :=
  let node_ids := map Direct.row_id node_rows in
  let node_features := map feature_row node_rows in
  let edges := edge_list node_ids edge_rows in
  let node_labels := Direct.generate_labels node_rows in
  let num_nodes := length node_ids in
  let! m := Direct.generate_masks shuffle num_nodes in
  let! classes := labels_max node_labels in
  Returned {| x := node_features;
              edge_index := edges;
              y := node_labels;
              partition := m |}.

End Load.

End DirectGraph.

(** ** Counting predictions per class
       ([evaluate_model_high_confidence], lines 199-202, and
        [evaluate_model_balanced], lines 216-219) *)
Module PredictionCounts.

(** [pred_counts = {}; for pred in final_predictions:
     pred_counts[pred] = pred_counts.get(pred, 0) + 1] *)
Definition count_predictions (final_predictions : list nat) : gmap nat nat :=
  fold_left
    (fun pred_counts pred =>
       <[pred := (default 0 (pred_counts !! pred) + 1)%nat]> pred_counts)
    final_predictions ∅.

(** The sum of the counts of a dictionary. *)
Definition total_count (pred_counts : gmap nat nat) : nat :=
  map_fold (fun _ count acc => (count + acc)%nat) 0%nat pred_counts.

(** The number of positions of a list that hold [c]. *)
Definition occurrences (c : nat) (l : list nat) : nat :=
  length (filter (fun p => p = c) l).

End PredictionCounts.

(** ** The loop of [train_intersection_graphsage.py]: validation in every
       epoch, no early stopping *)
Module Intersection.

Definition intersection_config : Trainer.config :=
  {| Trainer.validate_every := 1; Trainer.early_stopping := None |}.

End Intersection.

(** ** [main] of the direct script ([train_graphsage_direct.py],
       lines 302-357) *)
Module DirectMain.

Inductive message :=
| MsgConnected
| MsgDisconnected
| MsgSavingPredictions
| MsgSaved (n : nat)
| MsgErrorSaving
| MsgTrainingComplete.

(** The predictions table, whether the loader holds an open connection,
    and what was printed. *)
Record world := {
  predictions_table : DirectSave.table;
  loader_connected : bool;
  stdout : list message
}.

Definition print (m : message) (w : world) : world :=
  {| predictions_table := predictions_table w;
     loader_connected := loader_connected w;
     stdout := stdout w ++ [m] |}.

Section Main.

(** The graph, and what the outside world does: whether the server
    accepts the loader's connection, what the two queries and the
    assembly of the graph give, what training and evaluation give,
    whether the server accepts the connection of the save, and which of
    its statements it executes. *)
Variable data : Type.
Variable loader_connect_ok : bool.
Variable load_graph_data : outcome data.
Variable train_and_evaluate : data -> outcome (list Z).
Variable save_connect_ok : bool.
Variable statement_ok : nat -> bool.

(** [PostGISGraphLoader.connect] *)
Definition connect (w : world) : outcome unit * world :=
  if loader_connect_ok then
    (Returned tt,
     print MsgConnected
       {| predictions_table := predictions_table w;
          loader_connected := true;
          stdout := stdout w |})
  else (Raised DatabaseError, w).

(** [PostGISGraphLoader.disconnect]: [if self.connection: close, print]. *)
Definition disconnect (w : world) : world :=
  if loader_connected w then
    print MsgDisconnected
      {| predictions_table := predictions_table w;
         loader_connected := false;
         stdout := stdout w |}
  else w.

(** [save_predictions_to_db] with what it prints. *)
Definition save_predictions_to_db (predictions : list Z) (w : world)
  : outcome unit * world :=
  let w := print MsgSavingPredictions w in
  let r := DirectSave.save_predictions_to_db save_connect_ok statement_ok
             predictions (predictions_table w) in
  let w' := {| predictions_table := snd r;
               loader_connected := loader_connected w;
               stdout := stdout w |} in
  if save_connect_ok then
    match DirectSave.execute_from statement_ok 0
            (DirectSave.statements predictions) (predictions_table w) with
    | Returned _ => (fst r, print (MsgSaved (length predictions)) w')
    | Raised _ => (fst r, print MsgErrorSaving w')
    end
  else (fst r, w').

(** The body of the [try]. *)
Definition main_body (w : world) : outcome unit * world :=
  match connect w with
  | (Raised e, w) => (Raised e, w)
  | (Returned _, w) =>
      match load_graph_data with
      | Raised e => (Raised e, w)
      | Returned d =>
          match train_and_evaluate d with
          | Raised e => (Raised e, w)
          | Returned predictions =>
              match save_predictions_to_db predictions w with
              | (Raised e, w) => (Raised e, w)
              | (Returned _, w) => (Returned tt, print MsgTrainingComplete w)
              end
          end
      end
  end.

(** [try: ... finally: loader.disconnect()] *)
Definition main (w : world) : outcome unit * world :=
  let r := main_body w in
  (fst r, disconnect (snd r)).

End Main.

End DirectMain.

(** ** Class weights of the improved trainer
       ([compute_class_weights], lines 109-124) *)
Module ClassWeights.

(** [torch.unique]: the distinct values in ascending order. *)
Definition unique (l : list Z) : list Z := merge_sort Z.le (remove_dups l).

(** [torch.ones(n)]: a negative size raises. *)
Definition ones (n : Z) : outcome (list pyfloat) :=
  if n <? 0 then Raised RuntimeError
  else Returned (replicate (Z.to_nat n) (Fin 1)).

(** The position an integer index names in a tensor of [len] elements: a
    negative index counts from the end, anything else outside raises. *)
Definition tensor_index (len : nat) (i : Z) : outcome nat :=
  if (0 <=? i) && (i <? Z.of_nat len) then Returned (Z.to_nat i)
  else if (- Z.of_nat len <=? i) && (i <? 0) then
    Returned (Z.to_nat (Z.of_nat len + i))
  else Raised IndexError.

Section Weights.

(** Rounding of a double to the tensor's [torch.float] element type. *)
Variable float32 : pyfloat -> pyfloat.

(** [sklearn.utils.class_weight.compute_class_weight('balanced', ...)] *)
Variable compute_class_weight : list Z -> list Z -> outcome (list pyfloat).

(** [t[i] = v] on a [torch.float] tensor *)
Definition assign (t : list pyfloat) (i : Z) (v : pyfloat)
  : outcome (list pyfloat) :=
  let! k := tensor_index (length t) i in
  Returned (<[k := float32 v]> t).

(** [for i, weight in enumerate(class_weights):
       class_id = classes[i].item(); full_weights[class_id] = weight] *)
Fixpoint assign_weights (classes : list Z) (i : nat)
  (class_weights : list pyfloat) (full_weights : list pyfloat)
  : outcome (list pyfloat) :=
  match class_weights with
  | [] => Returned full_weights
  | weight :: rest =>
      match classes !! i with
      | None => Raised IndexError
      | Some class_id =>
          let! full_weights := assign full_weights class_id weight in
          assign_weights classes (S i) rest full_weights
      end
  end.

Definition compute_class_weights (y_train : list Z) (num_classes : Z)
  : outcome (list pyfloat) :=
  let classes := unique y_train in
  let! class_weights := compute_class_weight classes y_train in
  let! full_weights := ones num_classes in
  assign_weights classes 0 class_weights full_weights.

End Weights.

End ClassWeights.

(** ** Concrete inputs used by the examples *)
Module Fixtures.

Import Direct Script.

Definition fixture_row (id degree : Z) : node_row :=
  {| row_id := id; row_x := Fin 0; row_y := Fin 0; row_z := Fin 0;
     row_degree := degree; row_avg_len := Fin (1 # 10) |}.

(** The fixture graph with degrees 1, 2, 2, 3, 4, 5. *)
Definition fixture_rows : list node_row :=
  [fixture_row 1 1; fixture_row 2 2; fixture_row 3 2;
   fixture_row 4 3; fixture_row 5 4; fixture_row 6 5].

(** An empty working directory and the path of a file that is not there. *)
Definition empty_world : world := {| files := ∅; dirs := ∅; stdout := [] |}.

Definition missing_args : args :=
  {| data_path := "missing.json"; epochs := 200; hidden_dim := 128;
     output_dir := "test-output" |}.

Definition locked_file : file := {| readable := false; content := RawText "" |}.

Definition locked_world : world :=
  {| files := {[ "locked.json"%string := locked_file ]};
     dirs := ∅; stdout := [] |}.

Definition locked_args : args :=
  {| data_path := "locked.json"; epochs := 200; hidden_dim := 128;
     output_dir := "test-output" |}.

(** A working directory whose only entry is the directory [exports]. *)
Definition directory_world : world :=
  {| files := ∅; dirs := {[ "exports"%string ]}; stdout := [] |}.

Definition directory_args : args :=
  {| data_path := "exports"; epochs := 200; hidden_dim := 128;
     output_dir := "test-output" |}.

(** An operating system that refuses nothing. *)
Definition permissive_os : operating_system :=
  {| makedirs_error := fun _ _ _ => None;
     makedirs_made := fun _ _ _ => ∅;
     open_write_error := fun _ _ _ => None |}.


(** A loader that keeps the validated edges of an export, and a trainer
    that predicts the classes 0, 2, 1 for its three nodes. *)
Definition export_parse (c : file_content)
  : list string * outcome Improved.edge_tensor :=
  match c with
  | GraphExport g =>
      match Improved.load_edges (length (export_x g)) (export_edge_index g) with
      | Returned (e, _) => (["Loaded graph"%string], Returned e)
      | Raised e => ([], Raised e)
      end
  | RawText _ => ([], Raised ValueError)
  | PredictionData _ _ => ([], Raised KeyError)
  end.

Definition export_train (d : Improved.edge_tensor) (a : args)
  : list string * outcome (list Z * gmap string string) :=
  (["Model created"%string; "Training"%string], Returned ([0; 2; 1], ∅)).

Definition fixture_join (d f : string) : string := (d +:+ "/" +:+ f)%string.

Definition improved_main : args -> world -> outcome unit * world :=
  main permissive_os Improved.edge_tensor export_parse export_train fixture_join
       (save_predictions_improved permissive_os "2025-01-01T00:00:00")
       "improved_graphsage_predictions.json".




(** A namespace with [tensor] and [nn] but no [datetime]. *)
Definition torch_namespace : gmap string pyobj :=
  {[ "tensor"%string := OtherObject; "nn"%string := OtherObject ]}.

End Fixtures.
Export Fixtures.

(* ===================================================================== *)
(** * Part II: properties                                                 *)
(* ===================================================================== *)

(** ** Comparisons *)

Lemma Qle_bool_false (x y : Q) : Qle_bool x y = false -> (y < x)%Q.
Proof.
  intros H. apply Qnot_le_lt. intros Hle.
  apply Qle_bool_iff in Hle. congruence.
Qed.

Lemma flt_fge_false (a b : pyfloat) : flt a b = true -> fge a b = false.
Proof.
  unfold fge. destruct a, b; simpl; try discriminate; try reflexivity.
  intros H. apply negb_true_iff in H. exact H.
Qed.

Lemma fge_flt_false (a b : pyfloat) : fge a b = true -> flt a b = false.
Proof.
  destruct (flt a b) eqn:E; [|reflexivity].
  apply flt_fge_false in E. congruence.
Qed.

Lemma flt_false_fle (a b : pyfloat) :
  is_nan a = false -> is_nan b = false -> flt a b = false -> fle b a = true.
Proof.
  destruct a, b; simpl; try discriminate; try reflexivity.
  intros _ _ H. apply negb_false_iff in H. exact H.
Qed.

Lemma fle_refl (a : pyfloat) : is_nan a = false -> fle a a = true.
Proof.
  destruct a; simpl; try discriminate; try reflexivity.
  intros _. apply Qle_bool_iff. apply Qle_refl.
Qed.

Lemma fle_trans (a b c : pyfloat) :
  fle a b = true -> fle b c = true -> fle a c = true.
Proof.
  destruct a, b, c; simpl; try discriminate; try reflexivity.
  rewrite !Qle_bool_iff. apply Qle_trans.
Qed.

Lemma flt_fle (a b : pyfloat) : flt a b = true -> fle a b = true.
Proof.
  destruct a, b; simpl; try discriminate; try reflexivity.
  intros H. apply negb_true_iff, Qle_bool_false in H.
  apply Qle_bool_iff. apply Qlt_le_weak. exact H.
Qed.


Lemma flt_fle_trans (a b c : pyfloat) :
  flt a b = true -> fle b c = true -> flt a c = true.
Proof.
  destruct a, b, c; simpl; try discriminate; try reflexivity.
  rewrite !negb_true_iff. intros H1 H2.
  apply Qle_bool_false in H1. apply Qle_bool_iff in H2.
  destruct (Qle_bool q1 q) eqn:E; [|reflexivity].
  apply Qle_bool_iff in E. exfalso.
  apply (Qlt_irrefl q). eapply Qlt_le_trans; [exact H1|].
  eapply Qle_trans; eassumption.
Qed.

(** ** Rounding to single precision

    The rounding is monotone; on the literal 0.7 it agrees with the
    Standard Library's reference rounding and rounds down, on the default
    0.8 it rounds up. *)

Section Float32Properties.
Local Open Scope Q_scope.

Lemma round_half_even_range (x : Q) :
  (Qfloor x <= round_half_even x <= Qfloor x + 1)%Z.
Proof.
  unfold round_half_even.
  destruct (x - inject_Z (Qfloor x) ?= 1 # 2); [destruct (Z.even _)| |]; lia.
Qed.

Lemma round_half_even_mono (x y : Q) :
  x <= y -> (round_half_even x <= round_half_even y)%Z.
Proof.
  intros Hxy.
  pose proof (Qfloor_resp_le x y Hxy) as Hf.
  destruct (Z.eq_dec (Qfloor x) (Qfloor y)) as [E|E].
  - unfold round_half_even. rewrite <- E.
    destruct (Qcompare_spec (x - inject_Z (Qfloor x)) (1 # 2)) as [H1|H1|H1];
    destruct (Qcompare_spec (y - inject_Z (Qfloor x)) (1 # 2)) as [H2|H2|H2];
      try (destruct (Z.even (Qfloor x))); try lia; exfalso; lra.
  - pose proof (round_half_even_range x). pose proof (round_half_even_range y). lia.
Qed.

Lemma round_half_even_Z (n : Z) : round_half_even (inject_Z n) = n.
Proof.
  unfold round_half_even. rewrite Qfloor_Z.
  destruct (Qcompare_spec (inject_Z n - inject_Z n) (1 # 2)) as [H|H|H];
    try reflexivity; exfalso; lra.
Qed.

Lemma round_half_even_ge (n : Z) (x : Q) :
  inject_Z n <= x -> (n <= round_half_even x)%Z.
Proof.
  intros H. pose proof (round_half_even_mono _ _ H) as Hm.
  rewrite round_half_even_Z in Hm. exact Hm.
Qed.

Lemma round_half_even_le (n : Z) (x : Q) :
  x <= inject_Z n -> (round_half_even x <= n)%Z.
Proof.
  intros H. pose proof (round_half_even_mono _ _ H) as Hm.
  rewrite round_half_even_Z in Hm. exact Hm.
Qed.

Lemma pow2_pos (k : Z) : 0 < 2 ^ k.
Proof. apply Qpower_0_lt. reflexivity. Qed.

Lemma pow2_add (a b : Z) : 2 ^ (a + b) == 2 ^ a * 2 ^ b.
Proof. apply Qpower_plus. discriminate. Qed.

Lemma pow2_le (a b : Z) : (a <= b)%Z -> 2 ^ a <= 2 ^ b.
Proof. intros H. apply Qpower_le_compat_l; [exact H | discriminate]. Qed.

Lemma pow2_inject (a : Z) : (0 <= a)%Z -> inject_Z (2 ^ a) == 2 ^ a.
Proof. intros H. rewrite Zpower_Qpower by exact H. reflexivity. Qed.

Lemma log2_bounds (n : Z) :
  (0 < n)%Z -> 2 ^ Z.log2 n <= inject_Z n /\ inject_Z n < 2 * 2 ^ Z.log2 n.
Proof.
  intros Hn. destruct (Z.log2_spec n Hn) as [H1 H2].
  pose proof (Z.log2_nonneg n) as H0.
  rewrite <- (pow2_inject (Z.log2 n)) by exact H0. split.
  - rewrite <- Zle_Qle. exact H1.
  - change 2 with (inject_Z 2) at 1. rewrite <- inject_Z_mult, <- Zlt_Qlt.
    rewrite Z.pow_succ_r in H2 by exact H0. exact H2.
Qed.

Lemma ilog2_spec (x : Q) :
  0 < x -> 2 ^ ilog2 x <= x /\ x < 2 * 2 ^ ilog2 x.
Proof.
  intros Hx. unfold ilog2.
  assert (Hn : (0 < Qnum x)%Z).
  { destruct x as [n d]. unfold Qlt in Hx. simpl in *. lia. }
  destruct (log2_bounds (Qnum x) Hn) as [Ha1 Ha2].
  destruct (log2_bounds (Z.pos (Qden x)) ltac:(lia)) as [Hb1 Hb2].
  set (a := Z.log2 (Qnum x)) in *. set (b := Z.log2 (Z.pos (Qden x))) in *.
  assert (Hk : 2 ^ a == 2 ^ (a - b) * 2 ^ b).
  { rewrite <- pow2_add. replace (a - b + b)%Z with a by lia. reflexivity. }
  assert (Hk1 : 2 ^ (a - b) == 2 * 2 ^ (a - b - 1)).
  { replace (a - b)%Z with (1 + (a - b - 1))%Z at 1 by lia. rewrite pow2_add. reflexivity. }
  pose proof (pow2_pos (a - b)) as HK. pose proof (pow2_pos b) as HB.
  pose proof (pow2_pos (a - b - 1)) as HK1.
  assert (HD : 0 < inject_Z (Z.pos (Qden x))) by reflexivity.
  assert (HxD : x * inject_Z (Z.pos (Qden x)) == inject_Z (Qnum x)).
  { destruct x as [n d]. unfold Qeq. simpl. rewrite Pos.mul_1_r. ring. }
  set (N := inject_Z (Qnum x)) in *. set (D := inject_Z (Z.pos (Qden x))) in *.
  set (K := 2 ^ (a - b)) in *. set (B := 2 ^ b) in *. set (A := 2 ^ a) in *.
  set (K1 := 2 ^ (a - b - 1)) in *.
  assert (Hlow : K1 <= x).
  { apply Qnot_lt_le. intros Hlt.
    assert (x * D < K1 * (2 * B)).
    { apply Qle_lt_trans with (K1 * D).
      - apply Qmult_le_compat_r; lra.
      - apply Qmult_lt_l; lra. }
    assert (K1 * (2 * B) == A) by (rewrite Hk, Hk1; ring). lra. }
  assert (Hup : x < 2 * K).
  { apply Qnot_le_lt. intros Hle.
    assert (2 * K * B <= x * D).
    { apply Qle_trans with (2 * K * D).
      - apply Qmult_le_l; lra.
      - apply Qmult_le_compat_r; lra. }
    assert (2 * K * B == 2 * A) by (rewrite Hk; ring). lra. }
  destruct (Qle_bool K x) eqn:E.
  - apply Qle_bool_iff in E. fold K. split; assumption.
  - assert (x < K).
    { apply Qnot_le_lt. intros H. apply Qle_bool_iff in H. congruence. }
    fold K1. split; [exact Hlow | lra].
Qed.


Lemma ilog2_mono (x y : Q) : 0 < x -> x <= y -> (ilog2 x <= ilog2 y)%Z.
Proof.
  intros Hx Hxy.
  destruct (ilog2_spec x Hx) as [Hx1 _].
  destruct (ilog2_spec y ltac:(lra)) as [_ Hy2].
  assert (H : 2 ^ ilog2 x < 2 ^ (ilog2 y + 1)).
  { rewrite pow2_add. change (2 ^ 1) with 2. lra. }
  apply Qpower_lt_compat_l_inv in H; [lia | reflexivity].
Qed.

(** The significand before rounding: it is below 2^24, and at least 2^23
    unless the value is subnormal. *)
Lemma scaled_bounds (x : Q) :
  0 < x ->
  let s := x * 2 ^ (- exponent x) in
  0 < s /\ s <= inject_Z (2 ^ 24) /\
  ((-149 < exponent x)%Z -> inject_Z (2 ^ 23) <= s).
Proof.
  intros Hx s. destruct (ilog2_spec x Hx) as [H1 H2].
  pose proof (pow2_pos (- exponent x)) as He.
  assert (Hel : (ilog2 x - 23 <= exponent x)%Z) by (unfold exponent; lia).
  split; [|split].
  - unfold s. apply Qmult_lt_0_compat; assumption.
  - rewrite pow2_inject by lia.
    apply Qle_trans with (2 * 2 ^ ilog2 x * 2 ^ (- exponent x)).
    + unfold s. apply Qmult_le_compat_r; lra.
    + change 2 with (2 ^ 1) at 1. rewrite <- !pow2_add. apply pow2_le. lia.
  - intros Hn. rewrite pow2_inject by lia.
    assert (E : exponent x = (ilog2 x - 23)%Z) by (unfold exponent in *; lia).
    apply Qle_trans with (2 ^ ilog2 x * 2 ^ (- exponent x)).
    + rewrite <- pow2_add. apply pow2_le. lia.
    + unfold s. apply Qmult_le_compat_r; lra.
Qed.

Lemma round_pos_value (x : Q) :
  round_pos x
  == inject_Z (round_half_even (x * 2 ^ (- exponent x))) * 2 ^ exponent x.
Proof. unfold round_pos. apply Qred_correct. Qed.

Lemma round_pos_nonneg (x : Q) : 0 < x -> 0 <= round_pos x.
Proof.
  intros Hx. rewrite round_pos_value.
  destruct (scaled_bounds x Hx) as (Hs & _ & _).
  apply Qmult_le_0_compat; [|apply Qlt_le_weak, pow2_pos].
  change 0 with (inject_Z 0). rewrite <- Zle_Qle.
  apply round_half_even_ge. change (inject_Z 0) with 0. cbv zeta in Hs. lra.
Qed.

Lemma round_pos_mono (x y : Q) : 0 < x -> x <= y -> round_pos x <= round_pos y.
Proof.
  intros Hx Hxy. assert (Hy : 0 < y) by lra.
  rewrite !round_pos_value.
  destruct (scaled_bounds x Hx) as (_ & Hxu & _).
  destruct (scaled_bounds y Hy) as (_ & _ & Hyl).
  pose proof (ilog2_mono x y Hx Hxy) as Hl.
  assert (He : (exponent x <= exponent y)%Z) by (unfold exponent; lia).
  pose proof (pow2_pos (exponent x)) as Hpx.
  pose proof (pow2_pos (exponent y)) as Hpy.
  destruct (Z.eq_dec (exponent x) (exponent y)) as [E|E].
  - rewrite E. apply Qmult_le_compat_r; [|apply Qlt_le_weak, pow2_pos].
    rewrite <- Zle_Qle. apply round_half_even_mono.
    apply Qmult_le_compat_r; [exact Hxy|]. apply Qlt_le_weak, pow2_pos.
  - assert (Hmin : (-149 <= exponent x)%Z) by (unfold exponent; lia).
    apply round_half_even_le in Hxu.
    specialize (Hyl ltac:(lia)). apply round_half_even_ge in Hyl.
    rewrite Zle_Qle in Hxu, Hyl.
    rewrite pow2_inject in Hxu, Hyl by lia.
    apply Qle_trans with (2 ^ 24 * 2 ^ exponent x).
    + apply Qmult_le_compat_r; [exact Hxu | apply Qlt_le_weak, Hpx].
    + apply Qle_trans with (2 ^ 23 * 2 ^ exponent y).
      * rewrite <- !pow2_add. apply pow2_le. lia.
      * apply Qmult_le_compat_r; [exact Hyl | apply Qlt_le_weak, Hpy].
Qed.

Lemma overflows_spec (r : Q) : overflows r = true <-> 2 ^ 128 <= r.
Proof. unfold overflows. apply Qle_bool_iff. Qed.

Lemma overflows_mono (r r' : Q) :
  r <= r' -> overflows r = true -> overflows r' = true.
Proof.
  rewrite !overflows_spec. intros H1 H2. eapply Qle_trans; eassumption.
Qed.

Lemma float32_not_nan (a : pyfloat) : is_nan a = false -> is_nan (float32 a) = false.
Proof.
  destruct a as [| |q|]; cbn [float32 is_nan]; try discriminate; try reflexivity.
  intros _. destruct (q ?= 0); try reflexivity;
    match goal with |- context [overflows ?r] => destruct (overflows r) end;
    reflexivity.
Qed.

(** Rounding to single precision is monotone. *)
Lemma float32_monotone (a b : pyfloat) :
  fle a b = true -> fle (float32 a) (float32 b) = true.
Proof.
  intros Hab.
  assert (Ha : is_nan a = false) by (destruct a, b; try discriminate; reflexivity).
  assert (Hb : is_nan b = false) by (destruct a, b; try discriminate; reflexivity).
  pose proof (float32_not_nan a Ha) as Hfa.
  pose proof (float32_not_nan b Hb) as Hfb.
  destruct a as [| |x|], b as [| |y|]; try discriminate.
  - reflexivity.
  - change (float32 NegInf) with NegInf.
    destruct (float32 (Fin y)); try discriminate; reflexivity.
  - reflexivity.
  - cbn [fle] in Hab. apply Qle_bool_iff in Hab. cbn [float32].
    destruct (Qcompare_spec x 0) as [Hx|Hx|Hx];
    destruct (Qcompare_spec y 0) as [Hy|Hy|Hy]; try (exfalso; lra).
    + reflexivity.
    + pose proof (round_pos_nonneg y Hy).
      destruct (overflows (round_pos y)); cbn [fle]; [reflexivity|].
      apply Qle_bool_iff. lra.
    + pose proof (round_pos_nonneg (- x) ltac:(lra)).
      destruct (overflows (round_pos (- x))); cbn [fle]; [reflexivity|].
      apply Qle_bool_iff. lra.
    + pose proof (round_pos_mono (- y) (- x) ltac:(lra) ltac:(lra)) as Hm.
      pose proof (overflows_mono _ _ Hm) as Ho.
      destruct (overflows (round_pos (- x))) eqn:Ex; cbn [fle].
      * destruct (overflows (round_pos (- y))); reflexivity.
      * destruct (overflows (round_pos (- y))) eqn:Ey; cbn [fle].
        -- specialize (Ho eq_refl). discriminate.
        -- apply Qle_bool_iff. lra.
    + pose proof (round_pos_nonneg (- x) ltac:(lra)).
      pose proof (round_pos_nonneg y Hy).
      destruct (overflows (round_pos (- x)));
        destruct (overflows (round_pos y)); cbn [fle]; try reflexivity.
      apply Qle_bool_iff. lra.
    + pose proof (round_pos_mono x y Hx Hab) as Hm.
      pose proof (overflows_mono _ _ Hm) as Ho.
      destruct (overflows (round_pos y)) eqn:Ey; cbn [fle].
      * destruct (overflows (round_pos x)); reflexivity.
      * destruct (overflows (round_pos x)) eqn:Ex; cbn [fle].
        -- specialize (Ho eq_refl). discriminate.
        -- apply Qle_bool_iff. exact Hm.
  - change (float32 PosInf) with PosInf.
    destruct (float32 (Fin x)); try discriminate; reflexivity.
  - reflexivity.
Qed.

End Float32Properties.

Lemma float32_literals :
  binary_normalize 24 128 6305039478318694 (-53) false
  = S754_finite false 11744051 (-24) /\
  float32 (Fin (6305039478318694 # 9007199254740992)) = Fin (11744051 # 16777216) /\
  binary_normalize 24 128 3602879701896397 (-52) false
  = S754_finite false 13421773 (-24) /\
  float32 HighConfidence.default_confidence_threshold = Fin (13421773 # 16777216) /\
  fle HighConfidence.default_confidence_threshold
      (float32 HighConfidence.default_confidence_threshold) = true.
Proof. repeat split; vm_compute; reflexivity. Qed.

(** ** Results of fallible maps *)

Lemma map_outcome_total {A B} (f : A -> outcome B) (l : list A) :
  Forall (fun a => exists b, f a = Returned b) l ->
  exists bs, map_outcome f l = Returned bs.
Proof.
  induction 1 as [|a t [b Hb] _ [bs Hbs]]; simpl.
  - exists []. reflexivity.
  - exists (b :: bs). rewrite Hb. simpl. rewrite Hbs. reflexivity.
Qed.

Lemma map_outcome_lookup {A B} (f : A -> outcome B) (l : list A) (bs : list B) :
  map_outcome f l = Returned bs ->
  length bs = length l /\
  forall i a, l !! i = Some a -> exists b, f a = Returned b /\ bs !! i = Some b.
Proof.
  revert bs. induction l as [|a t IH]; intros bs; simpl.
  - intros [= <-]. split; [reflexivity|]. intros i a Hi. destruct i; discriminate.
  - destruct (f a) as [b|e] eqn:Hb; simpl; [|discriminate].
    destruct (map_outcome f t) as [bs'|e] eqn:Ht; simpl; [|discriminate].
    intros [= <-]. destruct (IH bs' eq_refl) as [Hlen Hlk].
    split; [simpl; congruence|].
    intros [|i] a' Hi; simpl in *.
    + injection Hi as <-. exists b. split; [exact Hb | reflexivity].
    + apply Hlk. exact Hi.
Qed.

(** ** [torch.max] returns an element of the row at the index it reports,
       and, on a row without NaN, an upper bound of the row *)

Section GateProperties.

Import HighConfidence.

Lemma max_from_lookup (pre l : list pyfloat) (best : pyfloat) (bi : nat) :
  pre !! bi = Some best ->
  forall m a, max_from best bi (length pre) l = (m, a) ->
  (pre ++ l) !! a = Some m.
Proof.
  revert pre best bi. induction l as [|x t IH]; intros pre best bi Hbi m a; simpl.
  - intros [= <- <-]. rewrite app_nil_r. exact Hbi.
  - replace (pre ++ x :: t) with ((pre ++ [x]) ++ t)
      by (rewrite <- app_assoc; reflexivity).
    replace (S (length pre)) with (length (pre ++ [x]))
      by (rewrite length_app; simpl; lia).
    destruct (better x best).
    + apply IH. apply list_lookup_middle. reflexivity.
    + apply IH. rewrite lookup_app_l; [exact Hbi|].
      apply lookup_lt_Some in Hbi. exact Hbi.
Qed.

Lemma max_from_upper_bound (l : list pyfloat) (best : pyfloat) (bi i : nat) :
  is_nan best = false ->
  Forall (fun p => is_nan p = false) l ->
  forall m a, max_from best bi i l = (m, a) ->
  fle best m = true /\ Forall (fun p => fle p m = true) l.
Proof.
  revert best bi i. induction l as [|x t IH]; intros best bi i Hb Hl m a; simpl.
  - intros [= <- <-]. split; [apply fle_refl; exact Hb | constructor].
  - inversion Hl as [|? ? Hx Ht]; subst.
    unfold better. rewrite Hx. simpl.
    assert (Hbest : match best with NaN => false | _ => flt best x end = flt best x)
      by (destruct best; try reflexivity; discriminate).
    rewrite Hbest.
    destruct (flt best x) eqn:E; intros Hm.
    + destruct (IH x i (S i) Hx Ht m a Hm) as [Hxm Htm].
      split; [eapply fle_trans; [apply flt_fle; exact E | exact Hxm]|].
      constructor; assumption.
    + destruct (IH best bi (S i) Hb Ht m a Hm) as [Hbm Htm].
      split; [exact Hbm|].
      constructor; [|exact Htm].
      eapply fle_trans; [|exact Hbm]. apply flt_false_fle; assumption.
Qed.

Lemma torch_max_sound (row : list pyfloat) (m : pyfloat) (a : nat) :
  torch_max row = Returned (m, a) ->
  row !! a = Some m /\
  (Forall (fun p => is_nan p = false) row -> Forall (fun p => fle p m = true) row).
Proof.
  destruct row as [|x t]; [discriminate|].
  unfold HighConfidence.torch_max. intros [= H]. split.
  - apply (max_from_lookup [x] t x 0 eq_refl m a H).
  - intros Hnan. inversion Hnan as [|? ? Hx Ht]; subst.
    destruct (max_from_upper_bound t x 0 1 Hx Ht m a H) as [H1 H2].
    constructor; assumption.
Qed.

Lemma torch_max_total (row : list pyfloat) :
  row <> [] -> exists mp, torch_max row = Returned mp.
Proof.
  destruct row as [|x t]; [congruence|]. intros _. eexists. reflexivity.
Qed.

Lemma lookup_map {A B} (f : A -> B) (l : list A) (i : nat) :
  map f l !! i = option_map f (l !! i).
Proof.
  revert i. induction l as [|x t IH]; intros [|i]; simpl; try reflexivity.
  apply IH.
Qed.

(** Claim C1, as the script behaves.  The comparison is made in single
    precision: for every node, the evaluator's final prediction is the
    keep class 0 whenever the largest softmax probability of the node is
    below the confidence threshold rounded to single precision, and it is
    the argmax class exactly when that probability is at least the rounded
    threshold.  When the threshold does not round down (as the default
    0.8), a probability below the threshold as written is gated to 0.
    The value compared is an element of the node's probability row, found
    at the argmax index, and bounds every probability of the row.  On a
    graph without nodes the evaluation raises [ZeroDivisionError]. *)
Theorem confidence_gate_defaults_to_keep
  (softmax : list pyfloat -> list pyfloat)
  (out : list (list pyfloat)) (threshold : pyfloat) :
  Forall (fun row => softmax row <> []) out ->
  (out = [] ->
   evaluate_model_high_confidence softmax out threshold = Raised ZeroDivisionError) /\
  (out <> [] ->
   exists ev,
     evaluate_model_high_confidence softmax out threshold = Returned ev /\
     length (final_predictions ev) = length out /\
     forall i row, out !! i = Some row ->
       exists m a,
         torch_max (softmax row) = Returned (m, a) /\
         softmax row !! a = Some m /\
         (Forall (fun p => is_nan p = false) (softmax row) ->
          Forall (fun p => fle p m = true) (softmax row)) /\
         max_probs ev !! i = Some m /\
         (flt m (float32 threshold) = true ->
          final_predictions ev !! i = Some 0%nat) /\
         (fge m (float32 threshold) = true ->
          final_predictions ev !! i = Some a) /\
         (final_predictions ev !! i <> Some 0%nat ->
          fge m (float32 threshold) = true /\ final_predictions ev !! i = Some a) /\
         (fle threshold (float32 threshold) = true -> flt m threshold = true ->
          final_predictions ev !! i = Some 0%nat)).
Proof.
  intros Hne. split.
  - intros ->. reflexivity.
  - intros Hout.
    destruct (map_outcome_total torch_max (map softmax out)) as [maxes Hm].
    { apply Forall_map. eapply Forall_impl; [exact Hne|].
      intros row Hrow. apply torch_max_total. exact Hrow. }
    unfold evaluate_model_high_confidence. rewrite Hm. cbn [bind_outcome].
    destruct (length out =? 0)%nat eqn:Elen.
    { apply Nat.eqb_eq in Elen. destruct out; [congruence | discriminate]. }
    eexists. split; [reflexivity|]. cbn [final_predictions max_probs].
    destruct (map_outcome_lookup _ _ _ Hm) as [Hlen Hlk].
    split; [rewrite !length_map in *; exact Hlen|].
    intros i row Hi.
    destruct (Hlk i (softmax row)) as [[m a] [Hmax Hb]].
    { rewrite lookup_map, Hi. reflexivity. }
    destruct (torch_max_sound _ _ _ Hmax) as [Hrow Hub].
    exists m, a.
    assert (Hfinal : map (gate threshold) maxes !! i = Some (gate threshold (m, a)))
      by (rewrite lookup_map, Hb; reflexivity).
    rewrite Hfinal. unfold gate, confident. cbn [fst snd].
    split; [exact Hmax|]. split; [exact Hrow|]. split; [exact Hub|].
    split; [rewrite lookup_map, Hb; reflexivity|].
    split; [|split; [|split]].
    + intros Hlt. rewrite (flt_fge_false _ _ Hlt). reflexivity.
    + intros Hge. rewrite Hge. reflexivity.
    + destruct (fge m (float32 threshold)); [split; reflexivity | congruence].
    + intros Hup Hlt.
      rewrite (flt_fge_false _ _ (flt_fle_trans _ _ _ Hlt Hup)). reflexivity.
Qed.

(** Two nodes under the default threshold: the first has largest
    probability 0.6 at class 2 and is overridden to class 0, the second
    has 0.9 at class 1 and keeps it. *)
Lemma confidence_gate_witness :
  exists ev,
    evaluate_model_high_confidence (fun row => row)
      [[Fin (1 # 10); Fin (3 # 10); Fin (6 # 10)];
       [Fin (5 # 100); Fin (9 # 10); Fin (5 # 100)]]
      default_confidence_threshold = Returned ev /\
    final_predictions ev = [0%nat; 1%nat].
Proof.
  destruct (proj2 (confidence_gate_defaults_to_keep (fun row => row)
              [[Fin (1 # 10); Fin (3 # 10); Fin (6 # 10)];
               [Fin (5 # 100); Fin (9 # 10); Fin (5 # 100)]]
              default_confidence_threshold
              ltac:(repeat constructor; discriminate))
              ltac:(discriminate)) as [ev [Hev _]].
  exists ev. split; [exact Hev|].
  vm_compute in Hev. injection Hev as <-. reflexivity.
Defined.

(** Claim C1 fails as stated.  With the threshold 0.7, which rounds down
    to the single-precision number 11744051 / 2^24, a node whose largest
    probability is that number lies below the threshold and still keeps
    its argmax class 1. *)
Lemma confidence_gate_counterexample :
  flt (Fin (11744051 # 16777216)) (Fin (6305039478318694 # 9007199254740992)) = true /\
  exists ev,
    evaluate_model_high_confidence (fun row => row)
      [[Fin (5033165 # 16777216); Fin (11744051 # 16777216)]]
      (Fin (6305039478318694 # 9007199254740992)) = Returned ev /\
    max_probs ev = [Fin (11744051 # 16777216)] /\
    final_predictions ev = [1%nat].
Proof.
  split; [reflexivity|]. eexists. split; [vm_compute; reflexivity|].
  split; reflexivity.
Qed.

End GateProperties.

(** ** Fallback labels *)

Section LabelProperties.

Import Direct.

Lemma generate_labels_from (rows : list node_row) (acc : list Z) :
  fold_left (fun node_labels row =>
               node_labels ++ [label_of_degree (row_degree row)]) rows acc
  = acc ++ map (fun row => label_of_degree (row_degree row)) rows.
Proof.
  revert acc. induction rows as [|r t IH]; intros acc; simpl.
  - rewrite app_nil_r. reflexivity.
  - rewrite IH, <- app_assoc. reflexivity.
Qed.

Lemma generate_labels_map (rows : list node_row) :
  generate_labels rows = map label_of_degree (map row_degree rows).
Proof.
  unfold generate_labels. rewrite generate_labels_from, map_map. reflexivity.
Qed.

(** Claim C3.  The fallback label vector has one label per node, and the
    label of a node is determined by its degree alone: 1 (merge) for degree
    2, 2 (split) for degree at least 4, 0 (keep) for every other degree.
    Two graphs with the same degree sequence, and in particular the same
    graph loaded twice, receive identical label vectors. *)
Theorem fallback_labels_by_degree (node_rows : list node_row) :
  length (generate_labels node_rows) = length node_rows /\
  (forall i row, node_rows !! i = Some row ->
     exists label, generate_labels node_rows !! i = Some label /\
       (row_degree row = 2 -> label = 1) /\
       (row_degree row >= 4 -> label = 2) /\
       (row_degree row <> 2 -> row_degree row < 4 -> label = 0)) /\
  (forall node_rows', map row_degree node_rows' = map row_degree node_rows ->
     generate_labels node_rows' = generate_labels node_rows).
Proof.
  split; [|split].
  - rewrite generate_labels_map, !length_map. reflexivity.
  - intros i row Hi. exists (label_of_degree (row_degree row)). split.
    + rewrite generate_labels_map, !lookup_map, Hi. reflexivity.
    + unfold label_of_degree.
      destruct (Z.eqb_spec (row_degree row) 2) as [E|E];
        [|destruct (Z.geb_spec (row_degree row) 4)];
        repeat split; intros; try reflexivity; lia.
  - intros rows' Heq. rewrite !generate_labels_map, Heq. reflexivity.
Qed.

Lemma fallback_labels_fixture :
  generate_labels fixture_rows = [0; 1; 1; 0; 2; 2].
Proof. reflexivity. Qed.

(** On the fixture, node 4 has degree 4 and is labelled a split candidate. *)
Lemma fallback_labels_witness :
  exists label, generate_labels fixture_rows !! 4%nat = Some label /\ label = 2.
Proof.
  destruct (fallback_labels_by_degree fixture_rows) as (_ & H & _).
  destruct (H 4%nat (fixture_row 5 4) eq_refl) as (label & Hl & _ & H4 & _).
  exists label. split; [exact Hl|]. apply H4. simpl. lia.
Defined.

End LabelProperties.

(** ** Edge validation of the flat loader *)

Section EdgeValidation.

Import Improved.

Lemma fold_left_max_lt (l : list Z) (x n : Z) :
  fold_left Z.max l x < n <-> x < n /\ Forall (fun y => y < n) l.
Proof.
  revert x. induction l as [|y t IH]; intros x; simpl.
  - split; [intros H; split; [exact H | constructor] | intros [H _]; exact H].
  - rewrite IH. split.
    + intros [Hm Ht]. split; [lia|]. constructor; [lia | exact Ht].
    + intros [Hx Hall]. inversion Hall; subst. split; [lia | assumption].
Qed.

Lemma fold_left_min_ge (l : list Z) (x : Z) :
  0 <= fold_left Z.min l x <-> 0 <= x /\ Forall (fun y => 0 <= y) l.
Proof.
  revert x. induction l as [|y t IH]; intros x; simpl.
  - split; [intros H; split; [exact H | constructor] | intros [H _]; exact H].
  - rewrite IH. split.
    + intros [Hm Ht]. split; [lia|]. constructor; [lia | exact Ht].
    + intros [Hx Hall]. inversion Hall; subst. split; [lia | assumption].
Qed.

(** The guard of the filtering branch is false exactly when every index
    is in range. *)
Lemma guard_false_iff (n : Z) (e : edge_tensor) (mx mn : Z) :
  tensor_max e = Returned mx -> tensor_min e = Returned mn ->
  ((mx >=? n) || (mn <? 0) = false <-> Forall (in_range n) (fst e ++ snd e)).
Proof.
  unfold tensor_max, tensor_min.
  destruct (fst e ++ snd e) as [|x t]; [discriminate|].
  intros [= <-] [= <-].
  rewrite orb_false_iff, Z.geb_leb, Z.leb_gt, Z.ltb_ge.
  rewrite fold_left_max_lt, fold_left_min_ge. unfold in_range. split.
  - intros [[Hx Hmax] [Hx0 Hmin]]. constructor; [lia|].
    rewrite Forall_forall in *. intros y Hy.
    specialize (Hmax y Hy). specialize (Hmin y Hy). lia.
  - intros Hall. inversion Hall as [|? ? Hx Ht]; subst.
    repeat split; try lia; eapply Forall_impl; try exact Ht;
      simpl; intros; lia.
Qed.

Lemma clamp_in_range (n : Z) (l : list Z) :
  Forall (in_range n) l -> map (fun x => Z.min (Z.max x 0) (n - 1)) l = l.
Proof.
  induction 1 as [|x t Hx _ IH]; simpl; [reflexivity|].
  rewrite IH. unfold in_range in Hx. f_equal. lia.
Qed.

Lemma clamp_valid (n : Z) (e : edge_tensor) :
  Forall (in_range n) (fst e ++ snd e) -> clamp 0 (n - 1) e = e.
Proof.
  intros H. apply Forall_app in H as [H0 H1].
  destruct e as [r0 r1]. unfold clamp. simpl in *.
  rewrite (clamp_in_range n r0 H0), (clamp_in_range n r1 H1). reflexivity.
Qed.

(** A non-empty tensor whose indices are all in range passes the
    validation step unchanged and without a report. *)
Lemma validate_edges_valid (n : Z) (e : edge_tensor) :
  fst e ++ snd e <> [] ->
  Forall (in_range n) (fst e ++ snd e) ->
  validate_edges n e = Returned (e, None).
Proof.
  intros Hne Hall. unfold validate_edges.
  destruct (tensor_max e) as [mx|] eqn:Hmx;
    [|unfold tensor_max in Hmx; destruct (fst e ++ snd e); [congruence | discriminate]].
  destruct (tensor_min e) as [mn|] eqn:Hmn;
    [|unfold tensor_min in Hmn; destruct (fst e ++ snd e); [congruence | discriminate]].
  simpl. rewrite (proj2 (guard_false_iff n e mx mn Hmx Hmn) Hall).
  rewrite (clamp_valid n e Hall). reflexivity.
Qed.

(** Columns that survive the mask satisfy [valid_edge]. *)
Lemma select_valid_rows (n : Z) (r0 r1 : list Z) :
  Forall (in_range n) (select (zip_with (valid_edge n) r0 r1) r0) /\
  Forall (in_range n) (select (zip_with (valid_edge n) r0 r1) r1).
Proof.
  revert r1. induction r0 as [|s r0 IH]; intros [|t r1]; simpl;
    try (split; constructor).
  destruct (IH r1) as [H0 H1].
  destruct (valid_edge n s t) eqn:E; [|split; assumption].
  unfold valid_edge in E. rewrite !andb_true_iff in E.
  destruct E as [[[Hs Ht] Hs0] Ht0].
  apply Z.ltb_lt in Hs, Ht. rewrite Z.geb_leb in Hs0, Ht0.
  apply Z.leb_le in Hs0, Ht0.
  split; constructor; unfold in_range; try lia; assumption.
Qed.

(** Whatever the validation step returns has all its indices in range. *)
Lemma validate_edges_range (n : Z) (e e' : edge_tensor) (rep : option filter_report) :
  validate_edges n e = Returned (e', rep) ->
  Forall (in_range n) (fst e' ++ snd e').
Proof.
  unfold validate_edges.
  destruct (tensor_max e) as [mx|] eqn:Hmx; [|discriminate].
  destruct (tensor_min e) as [mn|] eqn:Hmn; [|discriminate]. simpl.
  destruct ((mx >=? n) || (mn <? 0)) eqn:G.
  - intros [= <- _].
    destruct (select_valid_rows n (fst e) (snd e)) as [H0 H1].
    assert (Hall : Forall (in_range n)
              (fst (select_columns (valid_edges_mask n e) e) ++
               snd (select_columns (valid_edges_mask n e) e)))
      by (apply Forall_app; split; assumption).
    rewrite (clamp_valid n _ Hall). exact Hall.
  - intros [= <- _].
    apply (guard_false_iff n e mx mn Hmx Hmn) in G.
    rewrite (clamp_valid n e G). exact G.
Qed.

Lemma view_2_elements (flat : list Z) (e : edge_tensor) :
  view_2 flat = Returned e -> fst e ++ snd e = flat.
Proof.
  unfold view_2. destruct (Nat.odd (length flat)); [discriminate|].
  intros [= <-]. cbn [fst snd]. apply take_drop.
Qed.

Lemma forallb_int64 (l : list Z) : forallb int64 l = true <-> Forall is_int64 l.
Proof.
  induction l as [|x t IH]; simpl.
  - split; [constructor | reflexivity].
  - rewrite andb_true_iff, IH, Forall_cons. unfold int64, is_int64.
    rewrite andb_true_iff, Z.leb_le, Z.ltb_lt. reflexivity.
Qed.

Lemma read_edge_index_returned (flat : list Z) (e : edge_tensor) :
  read_edge_index flat = Returned e ->
  view_2 flat = Returned e /\ fst e ++ snd e = flat /\ Forall is_int64 flat.
Proof.
  unfold read_edge_index, tensor_long.
  destruct (forallb int64 flat) eqn:E; [|discriminate].
  cbn [bind_outcome]. intros Hview.
  split; [exact Hview|]. split; [apply view_2_elements, Hview|].
  apply forallb_int64, E.
Qed.

(** The validation step raises on a tensor without elements. *)
Lemma validate_edges_empty (n : Z) (e : edge_tensor) :
  fst e ++ snd e = [] -> validate_edges n e = Raised RuntimeError.
Proof.
  intros H. unfold validate_edges, tensor_max. rewrite H. reflexivity.
Qed.

(** Claim C7, as the script behaves.  Edge filtering is idempotent on an
    edge list that has an edge: when the tensor read from the file is not
    empty and has every index in [0, node_count), the validation step
    returns it unchanged (and prints no filtering report), and whatever
    non-empty tensor the validation step returns is returned unchanged by
    a second validation.  On the edge list without edges, and on a result
    from which every edge was removed, the validation step raises at
    [edge_index.max()]. *)
Theorem edge_filtering_idempotent
  (num_nodes : nat) (flat : list Z) (e : edge_tensor) :
  read_edge_index flat = Returned e ->
  (Forall (in_range (Z.of_nat num_nodes)) flat ->
   (flat <> [] ->
    load_edges num_nodes flat = Returned (e, None) /\
    validate_edges (Z.of_nat num_nodes) e = Returned (e, None)) /\
   (flat = [] ->
    load_edges num_nodes flat = Raised RuntimeError)) /\
  (forall e' rep,
     validate_edges (Z.of_nat num_nodes) e = Returned (e', rep) ->
     (fst e' ++ snd e' <> [] ->
      validate_edges (Z.of_nat num_nodes) e' = Returned (e', None)) /\
     (fst e' ++ snd e' = [] ->
      validate_edges (Z.of_nat num_nodes) e' = Raised RuntimeError)).
Proof.
  intros Hread.
  destruct (read_edge_index_returned flat e Hread) as (Hview & Hflat & _).
  split.
  - intros Hall. split.
    + intros Hne.
      assert (Hv : validate_edges (Z.of_nat num_nodes) e = Returned (e, None)).
      { apply validate_edges_valid; rewrite Hflat; assumption. }
      split; [|exact Hv].
      unfold load_edges. rewrite Hread. cbn [bind_outcome]. exact Hv.
    + intros Hnil. unfold load_edges. rewrite Hread. cbn [bind_outcome].
      apply validate_edges_empty. rewrite Hflat. exact Hnil.
  - intros e' rep Hv. split.
    + intros Hne'. apply validate_edges_valid; [exact Hne'|].
      eapply validate_edges_range. exact Hv.
    + apply validate_edges_empty.
Qed.

(** A path 0 - 1 - 2 on three nodes is loaded as it is, and validating
    the loaded tensor again returns it once more. *)
Lemma edge_filtering_idempotent_witness :
  load_edges 3 [0; 1; 1; 2] = Returned (([0; 1], [1; 2]), None) /\
  validate_edges 3 ([0; 1], [1; 2]) = Returned (([0; 1], [1; 2]), None).
Proof.
  apply (proj1 (edge_filtering_idempotent 3 [0; 1; 1; 2] ([0; 1], [1; 2]) eq_refl)).
  - repeat constructor; unfold in_range; simpl; lia.
  - discriminate.
Defined.

(** Claim C7 fails as stated on edge lists without a surviving edge.  The
    empty edge list has every index in range, and the base loader returns
    it, but the validation step of the improved loader raises; and the
    edge list [(0, 7)] on two nodes is filtered to the empty tensor, on
    which a second validation raises instead of returning it. *)
Lemma edge_filtering_counterexample :
  Forall (in_range 3) [] /\
  Base.load_edges [] = Returned ([], []) /\
  load_edges 3 [] = Raised RuntimeError /\
  load_edges 2 [0; 7]
  = Returned (([], []), Some {| reported_valid := 0; reported_removed := 0 |}) /\
  validate_edges 2 ([], []) = Raised RuntimeError.
Proof. split; [constructor|]. repeat split; reflexivity. Qed.

End EdgeValidation.

(** ** What the filtering branch keeps and what it reports *)

Section EdgeFiltering.

Import Improved.

Lemma select_combine {A B} (mask : list bool) (r0 : list A) (r1 : list B) :
  combine (select mask r0) (select mask r1) = select mask (combine r0 r1).
Proof.
  revert r0 r1. induction mask as [|b mask IH]; intros [|x r0] [|y r1];
    simpl; try reflexivity.
  - destruct b; [|destruct (select mask r0)]; reflexivity.
  - destruct b; simpl; rewrite IH; reflexivity.
Qed.

Lemma select_zip_filter (n : Z) (r0 r1 : list Z) :
  select (zip_with (valid_edge n) r0 r1) (combine r0 r1)
  = List.filter (fun st => valid_edge n (fst st) (snd st)) (combine r0 r1).
Proof.
  revert r1. induction r0 as [|s r0 IH]; intros [|t r1]; simpl; try reflexivity.
  rewrite IH. reflexivity.
Qed.

Lemma filter_all_valid (n : Z) (r0 r1 : list Z) :
  Forall (in_range n) r0 -> Forall (in_range n) r1 ->
  List.filter (fun st => valid_edge n (fst st) (snd st)) (combine r0 r1)
  = combine r0 r1.
Proof.
  intros H0. revert r1. induction H0 as [|s r0 Hs _ IH]; intros r1 H1; simpl;
    [reflexivity|].
  destruct H1 as [|t r1 Ht H1]; simpl; [reflexivity|].
  rewrite (IH r1 H1).
  assert (E : valid_edge n s t = true).
  { unfold valid_edge, in_range in *. rewrite !andb_true_iff, Z.geb_leb, Z.geb_leb.
    repeat split; try apply Z.ltb_lt; try apply Z.leb_le; lia. }
  rewrite E. reflexivity.
Qed.

(** The edges that leave the validation step are exactly the edges with
    both endpoints in range, in their original order and unchanged. *)
Lemma validate_edges_keeps_exactly_valid
  (n : Z) (e e' : edge_tensor) (rep : option filter_report) :
  validate_edges n e = Returned (e', rep) ->
  combine (fst e') (snd e')
  = List.filter (fun st => valid_edge n (fst st) (snd st))
                (combine (fst e) (snd e)).
Proof.
  intros Hv. pose proof (validate_edges_range n e e' rep Hv) as Hrange.
  revert Hv Hrange. unfold validate_edges.
  destruct (tensor_max e) as [mx|] eqn:Hmx; [|discriminate].
  destruct (tensor_min e) as [mn|] eqn:Hmn; [|discriminate]. simpl.
  destruct ((mx >=? n) || (mn <? 0)) eqn:G.
  - intros [= <- _] _.
    destruct (select_valid_rows n (fst e) (snd e)) as [H0 H1].
    rewrite clamp_valid by (apply Forall_app; split; assumption).
    unfold select_columns, valid_edges_mask. simpl.
    rewrite select_combine. apply select_zip_filter.
  - intros [= <- _] _.
    apply (guard_false_iff n e mx mn Hmx Hmn) in G.
    rewrite (clamp_valid n e G).
    apply Forall_app in G as [G0 G1].
    symmetry. apply filter_all_valid; assumption.
Qed.

Lemma select_length_sum {A} (mask : list bool) (row : list A) :
  (length mask <= length row)%nat ->
  Z.of_nat (length (select mask row)) = mask_sum mask.
Proof.
  unfold mask_sum. intros H. f_equal. revert row H.
  induction mask as [|b mask IH]; intros [|x row] H; simpl in *;
    try reflexivity; try lia.
  destruct b.
  - rewrite filter_cons_True by reflexivity. simpl. f_equal. apply IH. lia.
  - rewrite filter_cons_False by discriminate. apply IH. lia.
Qed.

(** The number printed as removed is the difference of two equal
    numbers: whenever the filtering branch reports, it reports 0. *)
Lemma reported_removed_zero
  (n : Z) (e e' : edge_tensor) (r : filter_report) :
  validate_edges n e = Returned (e', Some r) -> reported_removed r = 0.
Proof.
  unfold validate_edges.
  destruct (tensor_max e) as [mx|] eqn:Hmx; [|discriminate].
  destruct (tensor_min e) as [mn|] eqn:Hmn; [|discriminate]. simpl.
  destruct ((mx >=? n) || (mn <? 0)); [|discriminate].
  intros [= _ <-]. simpl. unfold size_1, select_columns. simpl.
  rewrite select_length_sum; [lia|].
  unfold valid_edges_mask. rewrite length_zip_with. lia.
Qed.

(** Claim C2.  A 10-node graph with the nine valid edges (i, i+1) and the
    single invalid edge (0, 999): the improved loader drops exactly that
    edge and keeps the nine valid ones unchanged, but the count it reports
    as removed is 0, not 1; the loader of the base script keeps all ten
    edges and reports nothing. *)
Theorem invalid_edge_dropped_but_reported_zero :
  load_edges 10 [0; 1; 2; 3; 4; 5; 6; 7; 8; 0;
                 1; 2; 3; 4; 5; 6; 7; 8; 9; 999]
  = Returned (([0; 1; 2; 3; 4; 5; 6; 7; 8], [1; 2; 3; 4; 5; 6; 7; 8; 9]),
              Some {| reported_valid := 9; reported_removed := 0 |}) /\
  Base.load_edges [0; 1; 2; 3; 4; 5; 6; 7; 8; 0;
                   1; 2; 3; 4; 5; 6; 7; 8; 9; 999]
  = Returned ([0; 1; 2; 3; 4; 5; 6; 7; 8; 0], [1; 2; 3; 4; 5; 6; 7; 8; 9; 999]).
Proof. split; reflexivity. Qed.

End EdgeFiltering.

(** ** Early stopping *)

Section EarlyStopping.

Import Trainer EarlyStopSpec.

Lemma best_so_far_snoc (accs : list pyfloat) (v : pyfloat) :
  best_so_far (accs ++ [v])
  = if fgt v (best_so_far accs) then v else best_so_far accs.
Proof. unfold best_so_far. rewrite fold_left_app. reflexivity. Qed.

Lemma take_while_ext {A} (p q : A -> bool) (l : list A) :
  (forall x, In x l -> p x = q x) -> take_while p l = take_while q l.
Proof.
  induction l as [|x t IH]; intros H; simpl; [reflexivity|].
  rewrite (H x) by (left; reflexivity).
  rewrite IH by (intros y Hy; apply H; right; exact Hy). reflexivity.
Qed.

Lemma improving_snoc_old (accs : list pyfloat) (v : pyfloat) (i : nat) :
  (i < length accs)%nat -> improving (accs ++ [v]) i = improving accs i.
Proof.
  intros Hi. unfold improving.
  rewrite lookup_app_l by exact Hi.
  rewrite take_app_le by lia. reflexivity.
Qed.

Lemma improving_snoc_new (accs : list pyfloat) (v : pyfloat) :
  improving (accs ++ [v]) (length accs) = fgt v (best_so_far accs).
Proof.
  unfold improving.
  rewrite list_lookup_middle by reflexivity.
  rewrite take_app_length. reflexivity.
Qed.

(** The stale run after one more checkpoint: back to 0 on an improvement,
    one longer otherwise. *)
Lemma stale_run_snoc (accs : list pyfloat) (v : pyfloat) :
  stale_run (accs ++ [v])
  = if fgt v (best_so_far accs) then 0%nat else S (stale_run accs).
Proof.
  unfold stale_run. rewrite length_app. simpl.
  replace (length accs + 1)%nat with (S (length accs)) by lia.
  rewrite seq_S, rev_app_distr. simpl.
  rewrite improving_snoc_new.
  destruct (fgt v (best_so_far accs)); simpl; [reflexivity|].
  f_equal. f_equal. apply take_while_ext.
  intros i Hi. apply in_rev, in_seq in Hi.
  rewrite improving_snoc_old by lia. reflexivity.
Qed.

Context (K P : nat) (loss_at val_acc_at : nat -> pyfloat).

Local Abbreviation cfg := {| validate_every := K; early_stopping := Some P |}.

Lemma checkpoint_accs_S (e : nat) :
  checkpoint_accs K val_acc_at (S e)
  = checkpoint_accs K val_acc_at e
    ++ (if (e mod K =? 0)%nat then [val_acc_at e] else []).
Proof.
  unfold checkpoint_accs. rewrite seq_S, filter_app, map_app. simpl.
  f_equal. destruct (e mod K =? 0)%nat eqn:E.
  - rewrite filter_cons_True by exact E. reflexivity.
  - rewrite filter_cons_False by congruence. reflexivity.
Qed.

Lemma epoch_body_invariant (a : nat) (s : train_state) :
  loop_invariant K val_acc_at a s ->
  loop_invariant K val_acc_at (S a) (fst (epoch_body cfg loss_at val_acc_at a s)) /\
  snd (epoch_body cfg loss_at val_acc_at a s)
  = if patience_exhausted K val_acc_at P a then Break else Continue.
Proof.
  intros (Hsteps & Haccs & Hcount & Hbest).
  unfold epoch_body, patience_exhausted, loop_invariant.
  rewrite checkpoint_accs_S. simpl.
  destruct (a mod K =? 0)%nat eqn:E; simpl.
  - unfold validation. simpl. rewrite Hbest, Hcount, <- Haccs.
    pose proof (stale_run_snoc (val_accuracies s) (val_acc_at a)) as Hs.
    pose proof (best_so_far_snoc (val_accuracies s) (val_acc_at a)) as Hb.
    destruct (fgt (val_acc_at a) (best_so_far (val_accuracies s))); simpl;
      rewrite Hs, Hb; (split; [repeat split; lia|]);
      destruct (P <=? _)%nat; reflexivity.
  - rewrite app_nil_r. repeat split; try assumption. lia.
Qed.

Lemma run_epochs_invariant (n a : nat) (s : train_state) :
  loop_invariant K val_acc_at a s ->
  let s' := run_epochs cfg loss_at val_acc_at (seq a n) s in
  loop_invariant K val_acc_at (optimizer_steps s') s' /\
  optimizer_steps s'
  = match find (patience_exhausted K val_acc_at P) (seq a n) with
    | Some e => S e
    | None => (a + n)%nat
    end.
Proof.
  revert a s. induction n as [|n IH]; intros a s Hinv; simpl.
  - destruct Hinv as (Hsteps & Ha & Hc & Hb).
    split; [|lia].
    unfold loop_invariant. rewrite Hsteps. repeat split; assumption.
  - destruct (epoch_body_invariant a s Hinv) as [Hinv' Hflow].
    destruct (epoch_body cfg loss_at val_acc_at a s) as [s1 f]. simpl in *.
    destruct (patience_exhausted K val_acc_at P a); subst f.
    + pose proof Hinv' as (Hsteps & _). rewrite Hsteps.
      split; [exact Hinv' | reflexivity].
    + destruct (IH (S a) s1 Hinv') as [H1 H2]. split; [exact H1|].
      rewrite H2. destruct (find _ _); lia.
Qed.

Lemma find_seq_first (f : nat -> bool) (n a e : nat) :
  find f (seq a n) = Some e ->
  (a <= e < a + n)%nat /\ f e = true /\
  forall e', (a <= e' < e)%nat -> f e' = false.
Proof.
  revert a. induction n as [|n IH]; intros a; simpl; [discriminate|].
  destruct (f a) eqn:E.
  - intros [= <-]. split; [lia|]. split; [exact E|]. intros; lia.
  - intros H. destruct (IH (S a) H) as (Hr & He & Hfirst).
    split; [lia|]. split; [exact He|].
    intros e' He'. destruct (Nat.eq_dec e' a) as [->|Hne]; [exact E|].
    apply Hfirst. lia.
Qed.

Lemma initial_invariant : loop_invariant K val_acc_at 0 initial_state.
Proof. repeat split. Qed.

End EarlyStopping.

Section TrainingRuns.

Import Trainer EarlyStopSpec.

(** Claim C5.  With a validation every [K] epochs and a patience of [P]
    validation checkpoints, the training loop returns after at most the
    configured number of epochs; it stops early exactly at the first
    checkpoint at which the number of consecutive checkpoints without
    improvement over the best validation accuracy seen so far has reached
    [P], and otherwise runs to the epoch limit.  The counter it compares
    with [P] is that number of checkpoints, not a number of epochs. *)
Theorem early_stopping_counts_checkpoints
  (K P : nat) (loss_at val_acc_at : nat -> pyfloat) (epochs : Z) :
  (0 < K)%nat ->
  let cfg := {| validate_every := K; early_stopping := Some P |} in
  exists s,
    train_model cfg loss_at val_acc_at epochs = Returned s /\
    Z.of_nat (optimizer_steps s) <= Z.max 0 epochs /\
    patience_counter s = stale_run (val_accuracies s) /\
    best_val_acc s = best_so_far (val_accuracies s) /\
    val_accuracies s = checkpoint_accs K val_acc_at (optimizer_steps s) /\
    match first_stop K val_acc_at P (Z.to_nat epochs) with
    | Some e =>
        optimizer_steps s = S e /\
        (e < Z.to_nat epochs)%nat /\
        (e mod K = 0)%nat /\
        (P <= stale_run (checkpoint_accs K val_acc_at (S e)))%nat /\
        forall e', (e' < e)%nat -> (e' mod K = 0)%nat ->
          (stale_run (checkpoint_accs K val_acc_at (S e')) < P)%nat
    | None =>
        optimizer_steps s = Z.to_nat epochs /\
        forall e, (e < Z.to_nat epochs)%nat -> (e mod K = 0)%nat ->
          (stale_run (checkpoint_accs K val_acc_at (S e)) < P)%nat
    end.
Proof.
  intros HK cfg. unfold train_model, range. eexists. split; [reflexivity|].
  destruct (run_epochs_invariant K P loss_at val_acc_at
              (Z.to_nat epochs) 0 initial_state (initial_invariant K val_acc_at))
    as [(_ & Haccs & Hcount & Hbest) Hsteps].
  fold cfg in Haccs, Hcount, Hbest, Hsteps.
  set (s := run_epochs cfg loss_at val_acc_at (seq 0 (Z.to_nat epochs)) initial_state) in *.
  unfold first_stop.
  destruct (find (patience_exhausted K val_acc_at P) (seq 0 (Z.to_nat epochs)))
    as [e|] eqn:Hfind.
  - destruct (find_seq_first _ _ _ _ Hfind) as (Hr & He & Hfirst).
    unfold patience_exhausted in He. apply andb_true_iff in He as [Hmod Hle].
    apply Nat.eqb_eq in Hmod. apply Nat.leb_le in Hle.
    repeat split; try assumption; try lia.
    intros e' He' Hmod'. specialize (Hfirst e' ltac:(lia)).
    unfold patience_exhausted in Hfirst. rewrite Hmod' in Hfirst. simpl in Hfirst.
    apply Nat.leb_gt in Hfirst. exact Hfirst.
  - repeat split; try assumption; try lia.
    intros e He Hmod.
    pose proof (find_none _ _ Hfind e ltac:(apply in_seq; lia)) as Hno.
    unfold patience_exhausted in Hno. rewrite Hmod in Hno. simpl in Hno.
    apply Nat.leb_gt in Hno. exact Hno.
Qed.

(** Validation every 2 epochs, patience 2, an accuracy that never rises
    above 0: the checkpoints are the epochs 0 and 2, the second exhausts
    the patience, and the run ends after 3 of its 10 epochs. *)
Lemma early_stopping_witness :
  exists s,
    train_model {| validate_every := 2; early_stopping := Some 2%nat |}
      (fun _ => Fin 1) (fun _ => Fin 0) 10 = Returned s /\
    optimizer_steps s = 3%nat.
Proof.
  destruct (early_stopping_counts_checkpoints 2 2 (fun _ => Fin 1) (fun _ => Fin 0) 10)
    as (s & Hs & _ & _ & _ & _ & Hstop); [lia|].
  exists s. split; [exact Hs|].
  vm_compute in Hstop. destruct Hstop as [Hsteps _]. exact Hsteps.
Defined.

(** The improved script stops at the 50th stale checkpoint, epoch 490,
    never within its default 200 epochs. *)
Lemma improved_patience_in_checkpoints :
  (exists s, train_model improved_config (fun _ => Fin 1) (fun _ => Fin 0) 1000
             = Returned s /\ optimizer_steps s = 491%nat) /\
  (exists s, train_model improved_config (fun _ => Fin 1) (fun _ => Fin 0) 200
             = Returned s /\ optimizer_steps s = 200%nat).
Proof. split; eexists; split; reflexivity. Qed.

End TrainingRuns.

(** ** Non-finite losses *)

Section Divergence.

Import Trainer.

Context (cfg : config) (val_acc_at : nat -> pyfloat).

(** The losses recorded are the losses of the checkpoints executed, as
    they are. *)
Lemma run_epochs_losses (loss_at : nat -> pyfloat) (n a : nat) (s : train_state) :
  optimizer_steps s = a ->
  train_losses s
  = map loss_at (filter (fun e => (e mod validate_every cfg =? 0)%nat = true) (seq 0 a)) ->
  let s' := run_epochs cfg loss_at val_acc_at (seq a n) s in
  train_losses s'
  = map loss_at (filter (fun e => (e mod validate_every cfg =? 0)%nat = true)
                        (seq 0 (optimizer_steps s'))).
Proof.
  revert a s. induction n as [|n IH]; intros a s Hs Hl; simpl.
  - rewrite Hs. exact Hl.
  - assert (Hstep : optimizer_steps (fst (epoch_body cfg loss_at val_acc_at a s)) = S a
              /\ train_losses (fst (epoch_body cfg loss_at val_acc_at a s))
                 = map loss_at
                     (filter (fun e => (e mod validate_every cfg =? 0)%nat = true)
                             (seq 0 (S a)))).
    { unfold epoch_body, validation. rewrite seq_S, filter_app, map_app. simpl.
      destruct (a mod validate_every cfg =? 0)%nat eqn:E.
      - rewrite filter_cons_True by exact E.
        destruct (early_stopping cfg); simpl;
          [destruct (fgt _ _); simpl|]; rewrite Hs, Hl; split; reflexivity.
      - rewrite filter_cons_False by congruence. simpl.
        rewrite app_nil_r, Hs. split; [reflexivity | exact Hl]. }
    destruct (epoch_body cfg loss_at val_acc_at a s) as [s1 f]. simpl in *.
    destruct Hstep as [Hs1 Hl1].
    destruct f; [apply (IH (S a) s1 Hs1 Hl1)|].
    rewrite Hs1. exact Hl1.
Qed.

End Divergence.

Section DivergenceClaims.

Import Trainer EarlyStopSpec.

Lemma run_epochs_no_early_stopping
  (cfg : config) (loss_at val_acc_at : nat -> pyfloat)
  (l : list nat) (s : train_state) :
  early_stopping cfg = None ->
  optimizer_steps (run_epochs cfg loss_at val_acc_at l s)
  = (optimizer_steps s + length l)%nat.
Proof.
  intros Hnone. revert s. induction l as [|epoch l IH]; intros s; simpl; [lia|].
  unfold epoch_body, validation. rewrite Hnone.
  destruct (epoch mod validate_every cfg =? 0)%nat; rewrite IH; simpl; lia.
Qed.

(** Claim C6, as the scripts behave.  A non-finite loss is not surfaced:
    the trainers have no finiteness check and raise nothing.  For every
    sequence of losses, finite or not, and whatever validation accuracies
    come with them, the trainer returns its history; the loss of every
    executed checkpoint is in the history as it is; and the number of
    parameter updates is the epoch limit or, with early stopping, the
    stopping point that the validation accuracies decide: no loss ends
    the updates. *)
Theorem nonfinite_loss_does_not_abort
  (cfg : config) (loss_at val_acc_at : nat -> pyfloat) (epochs : Z) :
  (0 < validate_every cfg)%nat ->
  exists s,
    train_model cfg loss_at val_acc_at epochs = Returned s /\
    train_losses s
    = map loss_at (filter (fun e => (e mod validate_every cfg =? 0)%nat = true)
                          (seq 0 (optimizer_steps s))) /\
    (forall e, (e < optimizer_steps s)%nat -> (e mod validate_every cfg = 0)%nat ->
               loss_at e ∈ train_losses s) /\
    optimizer_steps s
    = match early_stopping cfg with
      | None => Z.to_nat epochs
      | Some patience =>
          match first_stop (validate_every cfg) val_acc_at patience
                           (Z.to_nat epochs) with
          | Some e => S e
          | None => Z.to_nat epochs
          end
      end.
Proof.
  intros HK. unfold train_model, range. eexists. split; [reflexivity|].
  pose proof (run_epochs_losses cfg val_acc_at loss_at (Z.to_nat epochs) 0
                initial_state eq_refl eq_refl) as Hlosses.
  cbv zeta in Hlosses.
  split; [exact Hlosses|]. split.
  - intros e He Hmod. rewrite Hlosses.
    apply list_elem_of_In, in_map, list_elem_of_In.
    apply list_elem_of_filter. split.
    + apply Nat.eqb_eq. exact Hmod.
    + apply elem_of_seq. lia.
  - destruct cfg as [K [P|]]; cbn [early_stopping validate_every] in *.
    + destruct (run_epochs_invariant K P loss_at val_acc_at
                  (Z.to_nat epochs) 0 initial_state (initial_invariant K val_acc_at))
        as [_ Hsteps].
      rewrite Hsteps. unfold first_stop.
      destruct (find _ _); reflexivity.
    + rewrite run_epochs_no_early_stopping by reflexivity.
      rewrite length_seq. reflexivity.
Qed.

(** A NaN at the first checkpoint of a base run of twelve epochs: the NaN
    is in the history and all twelve updates are made. *)
Lemma nonfinite_loss_witness :
  exists s,
    train_model base_config (fun e => if (e =? 0)%nat then NaN else Fin 1)
                (fun _ => Fin (1 # 2)) 12 = Returned s /\
    NaN ∈ train_losses s /\
    optimizer_steps s = 12%nat.
Proof.
  destruct (nonfinite_loss_does_not_abort base_config
              (fun e => if (e =? 0)%nat then NaN else Fin 1)
              (fun _ => Fin (1 # 2)) 12 ltac:(cbn; lia))
    as (s & Hs & _ & Hin & Hsteps).
  exists s. split; [exact Hs|]. split; [|exact Hsteps].
  apply (Hin 0%nat); [rewrite Hsteps; cbn; lia | reflexivity].
Defined.

(** Claim C6 fails as stated: with a loss that is NaN from the first step
    on, the improved trainer raises nothing; it performs all three
    parameter updates of a three-epoch run and returns its history, the
    NaN recorded in it. *)
Lemma nonfinite_loss_counterexample :
  is_finite (NaN : pyfloat) = false /\
  (forall e, train_model improved_config (fun _ => NaN) (fun _ => Fin (1 # 2)) 3
             <> Raised e) /\
  train_model improved_config (fun _ => NaN) (fun _ => Fin (1 # 2)) 3
  = Returned {| train_losses := [NaN];
                val_accuracies := [Fin (1 # 2)];
                best_val_acc := Fin (1 # 2);
                patience_counter := 0;
                optimizer_steps := 3 |}.
Proof. split; [reflexivity|]. split; [intros e; discriminate | reflexivity]. Qed.

End DivergenceClaims.

(** ** The command-line entry points *)

Section ScriptFacts.

Import Script.

Context (os : operating_system).

Lemma path_exists_false (w : world) (path : string) :
  files w !! path = None -> path ∉ dirs w -> path_exists w path = false.
Proof.
  intros Hf Hd. unfold path_exists. rewrite Hf.
  rewrite bool_decide_eq_false_2 by (intros [x Hx]; discriminate).
  rewrite bool_decide_eq_false_2 by exact Hd. reflexivity.
Qed.

Lemma path_exists_file (w : world) (path : string) (f : file) :
  files w !! path = Some f -> path_exists w path = true.
Proof.
  intros Hf. unfold path_exists. rewrite Hf.
  rewrite bool_decide_eq_true_2 by (eexists; reflexivity). reflexivity.
Qed.

Lemma path_exists_dir (w : world) (path : string) :
  path ∈ dirs w -> path_exists w path = true.
Proof.
  intros Hd. unfold path_exists.
  rewrite (bool_decide_eq_true_2 (path ∈ dirs w)) by exact Hd.
  apply orb_true_r.
Qed.

(** Loading only prints. *)
Lemma load_graphsage_data_files (data : Type)
  (parse : file_content -> list string * outcome data)
  (json_path : string) (w : world) :
  files (snd (load_graphsage_data data parse json_path w)) = files w /\
  dirs (snd (load_graphsage_data data parse json_path w)) = dirs w.
Proof.
  unfold load_graphsage_data.
  destruct (open_read (print (MsgLoadingData json_path) w) json_path);
    split; reflexivity.
Qed.

(** Making directories changes no file. *)
Lemma makedirs_files (path : string) (w : world) :
  files (snd (makedirs os path w)) = files w.
Proof.
  unfold makedirs. destruct (files w !! path); [reflexivity|].
  destruct (String.eqb path ""); [reflexivity|].
  destruct (bool_decide (path ∈ dirs w)); [reflexivity|].
  destruct (makedirs_error os (files w) (dirs w) path); reflexivity.
Qed.

(** A write that raises changes nothing; a write changes no other file
    and no directory. *)
Lemma write_file_raised (path : string) (c : file_content) (w w' : world) (e : exn) :
  write_file os path c w = (Raised e, w') -> w' = w.
Proof.
  unfold write_file. destruct (bool_decide (path ∈ dirs w)); [congruence|].
  destruct (open_write_error os (files w) (dirs w) path); [congruence|].
  discriminate.
Qed.

Lemma write_file_other (path : string) (c : file_content) (w : world) :
  (forall path', path' <> path ->
     files (snd (write_file os path c w)) !! path' = files w !! path') /\
  dirs (snd (write_file os path c w)) = dirs w.
Proof.
  unfold write_file. destruct (bool_decide (path ∈ dirs w)); [split; reflexivity|].
  destruct (open_write_error os (files w) (dirs w) path); [split; reflexivity|].
  cbn [snd files dirs]. split; [|reflexivity].
  intros path' Hne. apply lookup_insert_ne. congruence.
Qed.

End ScriptFacts.

Section CommandLine.

Import Script.

Context (os : operating_system)
        (data : Type)
        (parse : file_content -> list string * outcome data)
        (train_and_evaluate :
           data -> args -> list string * outcome (list Z * gmap string string))
        (path_join : string -> string -> string)
        (save_predictions : saver)
        (artifact_name : string).

Local Abbreviation main_ :=
  (main os data parse train_and_evaluate path_join save_predictions artifact_name).

(** Claim C8, as the scripts behave.  When the data path names neither a
    file nor a directory, [main] prints that the file was not found and
    returns, so the process exits with status 0 and nothing else happens;
    when the file exists but cannot be opened for reading, or the path
    names a directory, the uncaught exception of [open] ends the process
    with a non-zero status, after the line that announces the loading. *)
Theorem missing_input_exits_zero (a : args) (w : world) :
  (files w !! data_path a = None -> data_path a ∉ dirs w ->
   main_ a w = (Returned tt, print (MsgDataFileNotFound (data_path a)) w) /\
   exit_status (fst (main_ a w)) = 0) /\
  (forall f, files w !! data_path a = Some f -> readable f = false ->
   main_ a w = (Raised PermissionError, print (MsgLoadingData (data_path a)) w) /\
   exit_status (fst (main_ a w)) <> 0) /\
  (files w !! data_path a = None -> data_path a ∈ dirs w ->
   main_ a w = (Raised IsADirectoryError, print (MsgLoadingData (data_path a)) w) /\
   exit_status (fst (main_ a w)) <> 0).
Proof.
  unfold main_, main. split; [|split].
  - intros Hnone Hdir. rewrite (path_exists_false w _ Hnone Hdir).
    split; reflexivity.
  - intros f Hf Hr. rewrite (path_exists_file w _ f Hf).
    unfold load_graphsage_data, open_read. cbn [negb print files dirs].
    rewrite Hf, Hr. split; [reflexivity | discriminate].
  - intros Hnone Hdir. rewrite (path_exists_dir w _ Hdir).
    unfold load_graphsage_data, open_read. cbn [negb print files dirs].
    rewrite Hnone, (bool_decide_eq_true_2 _ Hdir).
    split; [reflexivity | discriminate].
Qed.

End CommandLine.

Section CommandLineInstances.

Import Script.

Lemma missing_input_witness :
  (improved_main missing_args empty_world
   = (Returned tt, print (MsgDataFileNotFound "missing.json") empty_world) /\
   exit_status (fst (improved_main missing_args empty_world)) = 0) /\
  (improved_main locked_args locked_world
   = (Raised PermissionError, print (MsgLoadingData "locked.json") locked_world) /\
   exit_status (fst (improved_main locked_args locked_world)) <> 0) /\
  (improved_main directory_args directory_world
   = (Raised IsADirectoryError, print (MsgLoadingData "exports") directory_world) /\
   exit_status (fst (improved_main directory_args directory_world)) <> 0).
Proof.
  split; [|split].
  - apply (proj1 (missing_input_exits_zero permissive_os Improved.edge_tensor
             export_parse export_train fixture_join
             (save_predictions_improved permissive_os "2025-01-01T00:00:00")
             "improved_graphsage_predictions.json" missing_args empty_world)).
    + reflexivity.
    + apply (bool_decide_unpack _). vm_compute. exact I.
  - apply (proj1 (proj2 (missing_input_exits_zero permissive_os Improved.edge_tensor
             export_parse export_train fixture_join
             (save_predictions_improved permissive_os "2025-01-01T00:00:00")
             "improved_graphsage_predictions.json" locked_args locked_world))
             locked_file); reflexivity.
  - apply (proj2 (proj2 (missing_input_exits_zero permissive_os Improved.edge_tensor
             export_parse export_train fixture_join
             (save_predictions_improved permissive_os "2025-01-01T00:00:00")
             "improved_graphsage_predictions.json" directory_args directory_world))).
    + reflexivity.
    + apply (bool_decide_unpack _). vm_compute. exact I.
Defined.

(** Claim C8 fails as stated: invoked with the path of a file that does
    not exist, the improved script does not exit with a non-zero status. *)
Lemma missing_input_counterexample :
  files empty_world !! data_path missing_args = None /\
  path_exists empty_world (data_path missing_args) = false /\
  ~ (exit_status (fst (improved_main missing_args empty_world)) <> 0).
Proof.
  split; [reflexivity|]. split; [vm_compute; reflexivity|].
  intros H. apply H. vm_compute. reflexivity.
Qed.

End CommandLineInstances.

(** ** The base script never writes its artifact *)

Section BaseArtifact.

Import Script.

(** Claim C9.  [torch] has no attribute [datetime]; therefore, for every
    predictions array, output path and metadata dictionary,
    [save_predictions] of the base script raises before it opens the
    output file, and the files are as before.  Consequently a run of the
    base pipeline never changes any file, and whenever it gets as far as
    saving it ends with an exception instead of an artifact: with that
    [AttributeError] once the output directory is there. *)
Theorem base_save_predictions_raises (torch : gmap string pyobj) :
  torch !! "datetime"%string = None ->
  (forall os predictions output_path metadata w,
     save_predictions_base os torch predictions output_path metadata w
     = (Raised AttributeError, print (MsgSavingPredictions output_path) w) /\
     files (snd (save_predictions_base os torch predictions output_path metadata w))
     = files w) /\
  (forall os (data : Type) parse train_and_evaluate path_join artifact_name a w,
     let run := main os data parse train_and_evaluate path_join
                     (save_predictions_base os torch) artifact_name a w in
     files (snd run) = files w /\
     (forall d w1 predictions metadata,
        path_exists w (data_path a) = true ->
        load_graphsage_data data parse (data_path a) w = (Returned d, w1) ->
        snd (train_and_evaluate d a) = Returned (predictions, metadata) ->
        (exists e, fst run = Raised e) /\
        (fst (makedirs os (output_dir a)
                (print_lines (fst (train_and_evaluate d a)) w1)) = Returned tt ->
         fst run = Raised AttributeError))).
Proof.
  intros Hno.
  assert (Hsave : forall os predictions output_path metadata w,
             save_predictions_base os torch predictions output_path metadata w
             = (Raised AttributeError, print (MsgSavingPredictions output_path) w)).
  { intros. unfold save_predictions_base. rewrite Hno. reflexivity. }
  split.
  - intros. rewrite Hsave. split; reflexivity.
  - intros os data parse train_and_evaluate path_join artifact_name a w run.
    subst run. unfold main. split.
    + destruct (path_exists w (data_path a)); cbn [negb]; [|reflexivity].
      pose proof (load_graphsage_data_files data parse (data_path a) w) as [Hl _].
      destruct (load_graphsage_data data parse (data_path a) w) as [[d|e] w1];
        cbn [snd] in *; [|exact Hl].
      destruct (snd (train_and_evaluate d a)) as [[predictions metadata]|e];
        [|exact Hl].
      pose proof (makedirs_files os (output_dir a)
                    (print_lines (fst (train_and_evaluate d a)) w1)) as Hm.
      destruct (makedirs os (output_dir a)
                  (print_lines (fst (train_and_evaluate d a)) w1)) as [[[]|e] w2];
        cbn [snd print_lines files] in *; [|congruence].
      rewrite Hsave. cbn [snd print files]. congruence.
    + intros d w1 predictions metadata Hex Hload Htrain.
      rewrite Hex, Hload, Htrain. cbn [negb].
      destruct (makedirs os (output_dir a)
                  (print_lines (fst (train_and_evaluate d a)) w1)) as [[[]|e] w2];
        cbn [fst].
      * rewrite Hsave. split; [eexists; reflexivity | reflexivity].
      * split; [eexists; reflexivity | discriminate].
Qed.

Lemma base_save_predictions_witness :
  save_predictions_base permissive_os torch_namespace [0; 1; 2] "out.json" ∅ empty_world
  = (Raised AttributeError, print (MsgSavingPredictions "out.json") empty_world) /\
  files (snd (save_predictions_base permissive_os torch_namespace
                [0; 1; 2] "out.json" ∅ empty_world))
  = files empty_world.
Proof.
  apply (proj1 (base_save_predictions_raises torch_namespace eq_refl)).
Defined.

(** Had the namespace a [datetime] class, the same call would write the
    artifact: the exception, not the rest of the function, keeps the file
    from being written. *)
Lemma base_save_predictions_with_datetime :
  files (snd (save_predictions_base permissive_os
                {[ "datetime"%string := ClassWithNow "2025-01-01T00:00:00" ]}
                [0; 1; 2] "out.json" ∅ empty_world)) !! "out.json"%string
  = Some {| readable := true;
            content := PredictionData [0; 1; 2]
              (<["prediction_timestamp"%string := "2025-01-01T00:00:00"%string]>
                 (<["model_type"%string := "GraphSAGE"%string]> ∅)) |}.
Proof.
  unfold save_predictions_base. rewrite lookup_singleton_eq.
  unfold write_file. cbn [print dirs files empty_world].
  rewrite bool_decide_eq_false_2 by (apply not_elem_of_empty).
  cbn [permissive_os open_write_error snd files print].
  rewrite lookup_insert_eq. rewrite lookup_empty. reflexivity.
Qed.

End BaseArtifact.

(** ** Rows persisted by the direct pipeline *)

Section PersistedRows.

Import DirectSave.

Context (connect_ok : bool) (statement_ok : nat -> bool).

Lemma execute_inserts_returned (rows rows0 : list prediction_row) (k : nat) (t' : table) :
  execute_from statement_ok k (map Insert rows ++ [Commit]) (Some rows0) = Returned t' ->
  t' = Some (rows0 ++ rows).
Proof.
  revert rows0 k. induction rows as [|r rows IH]; intros rows0 k; simpl.
  - destruct (statement_ok k); [|discriminate]. simpl.
    intros [= <-]. rewrite app_nil_r. reflexivity.
  - destruct (statement_ok k); [|discriminate]. simpl.
    intros H. apply IH in H. rewrite <- app_assoc in H. exact H.
Qed.

Lemma execute_inserts_ok (rows rows0 : list prediction_row) (k : nat) :
  (forall j, statement_ok j = true) ->
  execute_from statement_ok k (map Insert rows ++ [Commit]) (Some rows0)
  = Returned (Some (rows0 ++ rows)).
Proof.
  intros Hok. revert rows0 k. induction rows as [|r rows IH]; intros rows0 k; simpl.
  - rewrite Hok. simpl. rewrite app_nil_r. reflexivity.
  - rewrite Hok. simpl. rewrite IH, <- app_assoc. reflexivity.
Qed.

(** A transaction that returns leaves exactly the inserted rows. *)
Lemma execute_statements_returned (predictions : list Z) (db t' : table) :
  execute_from statement_ok 0 (statements predictions) db = Returned t' ->
  t' = Some (insert_parameters predictions).
Proof.
  unfold statements, insert_statements. simpl.
  destruct (statement_ok 0); [|discriminate].
  destruct db as [old|]; simpl;
    (destruct (statement_ok 1); [|discriminate]); simpl;
    intros H; apply execute_inserts_returned in H; exact H.
Qed.

Lemma node_id_to_idx_snoc (node_ids : list Z) (id : Z) :
  node_id_to_idx (node_ids ++ [id])
  = <[id := length node_ids]> (node_id_to_idx node_ids).
Proof.
  unfold node_id_to_idx. rewrite imap_app, fold_left_app. simpl.
  rewrite Nat.add_0_r. reflexivity.
Qed.

(** The loader's dictionary sends the identity at position [i] to [i]. *)
Lemma node_id_to_idx_lookup (node_ids : list Z) (i : nat) (id : Z) :
  NoDup node_ids -> node_ids !! i = Some id ->
  node_id_to_idx node_ids !! id = Some i.
Proof.
  revert i id. induction node_ids as [|x l IH] using rev_ind; intros i id Hnd Hi.
  - destruct i; discriminate.
  - rewrite node_id_to_idx_snoc.
    apply NoDup_app in Hnd as (Hl & Hdisj & _).
    destruct (decide (i < length l)%nat) as [Hlt|Hge].
    + rewrite lookup_app_l in Hi by exact Hlt.
      assert (id <> x).
      { intros ->. apply (Hdisj x); [|left].
        eapply list_elem_of_lookup_2. exact Hi. }
      rewrite lookup_insert_ne by congruence. apply IH; assumption.
    + rewrite lookup_app_r in Hi by lia.
      destruct (i - length l)%nat eqn:E; simpl in Hi; [|destruct n; discriminate].
      injection Hi as ->. rewrite lookup_insert_eq. f_equal. lia.
Qed.

(** Claim C10.  Whatever the model computed, the rows the direct pipeline
    persists are, for the prediction at array position [i], the row
    [(i, prediction, 0.8)]: the confidence is the constant 0.8 and the
    node identifier is the dense index, the image of the database
    identity under the loader's dictionary, not that identity.  The call
    either persists exactly these rows or, when the connection or a
    statement fails, leaves the table as it was. *)
Theorem persisted_rows_constant_confidence (predictions : list Z) (db : table) :
  let r := save_predictions_to_db connect_ok statement_ok predictions db in
  (snd r = db \/ snd r = Some (insert_parameters predictions)) /\
  (connect_ok = true -> (forall k, statement_ok k = true) ->
   r = (Returned tt, Some (insert_parameters predictions))) /\
  length (insert_parameters predictions) = length predictions /\
  (forall i row, insert_parameters predictions !! i = Some row ->
     node_id row = Z.of_nat i /\
     confidence row = Fin (8 # 10) /\
     predictions !! i = Some (prediction row)) /\
  (forall node_ids i id, NoDup node_ids -> node_ids !! i = Some id ->
     node_id_to_idx node_ids !! id = Some i).
Proof.
  intros r. subst r. unfold save_predictions_to_db. repeat split.
  - destruct connect_ok; [|left; reflexivity].
    destruct (execute_from statement_ok 0 (statements predictions) db) as [t|e] eqn:E;
      [|left; reflexivity].
    right. simpl. apply execute_statements_returned in E. exact E.
  - intros -> Hok. unfold statements, insert_statements. simpl.
    rewrite ?Hok.
    destruct db as [old|]; simpl; rewrite ?Hok; simpl;
      rewrite (execute_inserts_ok _ [] 2 Hok); reflexivity.
  - unfold insert_parameters. apply length_imap.
  - unfold insert_parameters in H. rewrite list_lookup_imap in H.
    destruct (predictions !! i); simpl in H; [|discriminate].
    injection H as <-. reflexivity.
  - unfold insert_parameters in H. rewrite list_lookup_imap in H.
    destruct (predictions !! i); simpl in H; [|discriminate].
    injection H as <-. reflexivity.
  - unfold insert_parameters in H. rewrite list_lookup_imap in H.
    destruct (predictions !! i); simpl in H; [|discriminate].
    injection H as <-. reflexivity.
  - intros node_ids i id. apply node_id_to_idx_lookup.
Qed.

End PersistedRows.

Section PersistedRowsInstances.

Import DirectSave.

(** Three nodes with the database identities 1, 2, 3 (pgRouting numbers
    vertices from 1), predicted keep, split, merge, saved over an older
    row: the table then holds the identifiers 0, 1, 2, each with
    confidence 0.8. *)
Lemma persisted_rows_witness :
  save_predictions_to_db true (fun _ => true) [0; 2; 1]
    (Some [{| node_id := 7; prediction := 1; confidence := Fin (1 # 2) |}])
  = (Returned tt,
     Some [{| node_id := 0; prediction := 0; confidence := Fin (8 # 10) |};
           {| node_id := 1; prediction := 2; confidence := Fin (8 # 10) |};
           {| node_id := 2; prediction := 1; confidence := Fin (8 # 10) |}]) /\
  node_id_to_idx [1; 2; 3] !! 1 = Some 0%nat.
Proof.
  destruct (persisted_rows_constant_confidence true (fun _ => true) [0; 2; 1]
              (Some [{| node_id := 7; prediction := 1; confidence := Fin (1 # 2) |}]))
    as (_ & Hall & _ & _ & Hidx).
  split.
  - apply Hall; reflexivity.
  - apply (Hidx [1; 2; 3] 0%nat 1); [|reflexivity].
    apply (bool_decide_unpack (NoDup [1; 2; 3])). vm_compute. exact I.
Defined.

End PersistedRowsInstances.

(** ** Masks written through an index list *)

Section Masks.

Import Direct.

Lemma count_true_insert (mask : list bool) (i : nat) :
  mask !! i = Some false ->
  count_true (<[i:=true]> mask) = S (count_true mask).
Proof.
  unfold count_true. revert i. induction mask as [|b mask IH]; intros [|i] H;
    simpl in H; try discriminate.
  - injection H as ->.
    change (<[0%nat:=true]> (false :: mask)) with (true :: mask).
    rewrite (filter_cons_True _ true mask) by reflexivity.
    rewrite (filter_cons_False _ false mask) by discriminate. reflexivity.
  - change (<[S i:=true]> (b :: mask)) with (b :: <[i:=true]> mask).
    destruct b.
    + rewrite !(filter_cons_True _ true) by reflexivity.
      simpl. f_equal. apply IH, H.
    + rewrite !(filter_cons_False _ false) by discriminate. apply IH, H.
Qed.

Lemma index_put_true_spec (idxs : list nat) (mask : list bool) :
  Forall (fun i => (i < length mask)%nat) idxs ->
  exists mask',
    index_put_true mask idxs = Returned mask' /\
    length mask' = length mask /\
    (forall i, mask' !! i
               = (fun b => b || bool_decide (i ∈ idxs)) <$> mask !! i) /\
    (NoDup idxs -> Forall (fun i => mask !! i = Some false) idxs ->
     count_true mask' = (count_true mask + length idxs)%nat).
Proof.
  revert mask. induction idxs as [|j t IH]; intros mask Hall.
  - exists mask. repeat split; [|intros; simpl; lia].
    intros i. rewrite (bool_decide_eq_false_2 (i ∈ [])) by apply not_elem_of_nil.
    destruct (mask !! i) as [b|]; simpl; rewrite ?orb_false_r; reflexivity.
  - inversion Hall as [|? ? Hj Ht]; subst.
    cbn [index_put_true]. rewrite (proj2 (Nat.ltb_lt _ _) Hj).
    destruct (IH (<[j:=true]> mask)) as (mask' & Hret & Hlen & Hlk & Hcount).
    { rewrite length_insert. exact Ht. }
    exists mask'. split; [exact Hret|]. rewrite length_insert in Hlen.
    split; [exact Hlen|]. split.
    + intros i. rewrite Hlk. destruct (decide (i = j)) as [->|Hne].
      * rewrite list_lookup_insert_eq by exact Hj.
        destruct (lookup_lt_is_Some_2 mask j Hj) as [b Hb]. rewrite Hb. simpl.
        rewrite (bool_decide_eq_true_2 (j ∈ j :: t)) by apply list_elem_of_here.
        rewrite orb_true_r. reflexivity.
      * rewrite list_lookup_insert_ne by congruence.
        destruct (mask !! i) as [b|]; simpl; [|reflexivity].
        f_equal. f_equal. apply bool_decide_ext.
        rewrite elem_of_cons. tauto.
    + intros Hnd Hfalse. apply NoDup_cons in Hnd as [Hnotin Hnd].
      inversion Hfalse as [|? ? Hjf Htf]; subst.
      rewrite Hcount; [rewrite (count_true_insert mask j Hjf); simpl; lia | exact Hnd |].
      rewrite Forall_forall in *. intros i Hi.
      rewrite list_lookup_insert_ne by (intros ->; contradiction).
      apply Htf, Hi.
Qed.

Lemma count_true_replicate (n : nat) : count_true (replicate n false) = 0%nat.
Proof.
  unfold count_true. induction n as [|n IH]; simpl; [reflexivity|].
  rewrite filter_cons_False by discriminate. exact IH.
Qed.

(** A mask of [n] zeros written through indices below [n]. *)
Lemma index_put_true_zeros (n : nat) (idxs : list nat) :
  Forall (fun i => (i < n)%nat) idxs ->
  exists mask,
    index_put_true (replicate n false) idxs = Returned mask /\
    length mask = n /\
    (forall i, (i < n)%nat -> mask !! i = Some (bool_decide (i ∈ idxs))) /\
    (forall i, mask !! i = Some true <-> i ∈ idxs) /\
    (NoDup idxs -> count_true mask = length idxs).
Proof.
  intros Hall.
  destruct (index_put_true_spec idxs (replicate n false)) as (mask & Hret & Hlen & Hlk & Hc).
  { rewrite length_replicate. exact Hall. }
  rewrite length_replicate in Hlen.
  assert (Hin : forall i, (i < n)%nat -> mask !! i = Some (bool_decide (i ∈ idxs))).
  { intros i Hi. rewrite Hlk, lookup_replicate_2 by exact Hi. reflexivity. }
  exists mask. repeat split; try assumption.
  - intros Hi.
    assert (Hlt : (i < n)%nat) by (rewrite <- Hlen; eapply lookup_lt_Some; exact Hi).
    rewrite (Hin i Hlt) in Hi. injection Hi as Hi.
    apply bool_decide_eq_true_1 in Hi. exact Hi.
  - intros Hi. rewrite Forall_forall in Hall.
    rewrite (Hin i (Hall i Hi)). f_equal. apply bool_decide_eq_true_2, Hi.
  - intros Hnd. rewrite Hc, count_true_replicate; [reflexivity | exact Hnd |].
    eapply Forall_impl; [exact Hall|]. intros i Hi. simpl.
    apply lookup_replicate_2, Hi.
Qed.

(** The three slices of the shuffled indices. *)
Lemma slice_bound_nonneg (len : nat) (a : Z) :
  0 <= a -> slice_bound len a = Nat.min (Z.to_nat a) len.
Proof.
  intros Ha. unfold slice_bound.
  destruct (Z.ltb_spec a 0); [lia | reflexivity].
Qed.

Lemma py_slices (l : list nat) (a c : nat) :
  (a + c <= length l)%nat ->
  py_slice_to (Z.of_nat a) l = take a l /\
  py_slice (Z.of_nat a) (Z.of_nat a + Z.of_nat c) l = take c (drop a l) /\
  py_slice_from (Z.of_nat a + Z.of_nat c) l = drop (a + c) l.
Proof.
  intros Hlen. unfold py_slice_to, py_slice, py_slice_from.
  rewrite !slice_bound_nonneg by lia.
  rewrite <- Nat2Z.inj_add, !Nat2Z.id.
  rewrite !Nat.min_l by lia.
  replace (a + c - a)%nat with c by lia.
  repeat split; reflexivity.
Qed.

End Masks.

(** ** Binary64 products of a node count and a literal

    The facts about [SpecFloat]'s rounding that the partitioner needs: the
    mantissa after a right shift, the exactness of the conversion of a
    node count, and an upper bound on the integer part of a product. *)

Section FloatProducts.

Import Direct.

Lemma digits2_pos_size (p : positive) : digits2_pos p = Pos.size p.
Proof. induction p; simpl; congruence. Qed.

Lemma digits2_pos_le (p : positive) (k : Z) :
  0 <= k -> Z.pos p < 2 ^ k -> Z.pos (digits2_pos p) <= k.
Proof.
  intros Hk Hp. rewrite digits2_pos_size.
  pose proof (Pos.size_le p) as Hle.
  apply Pos2Z.pos_le_pos in Hle. rewrite Pos2Z.inj_pow in Hle.
  change (Z.pos p~0) with (2 * Z.pos p) in Hle.
  assert (H : 2 ^ Z.pos (Pos.size p) < 2 ^ (k + 1)).
  { rewrite Z.pow_add_r by lia. lia. }
  apply Z.pow_lt_mono_r_iff in H; lia.
Qed.

Lemma shr_1_m (r : shr_record) :
  0 <= shr_m r -> shr_m (shr_1 r) = shr_m r / 2.
Proof.
  destruct r as [m b s]. simpl. intros Hm.
  destruct m as [|p|p]; [reflexivity | | lia].
  destruct p as [p|p|]; simpl.
  - rewrite Pos2Z.inj_xI. apply (Z.div_unique _ _ _ 1); lia.
  - rewrite Pos2Z.inj_xO. apply (Z.div_unique _ _ _ 0); lia.
  - reflexivity.
Qed.

Lemma shr_iter_m (p : positive) (r : shr_record) :
  0 <= shr_m r ->
  shr_m (SpecFloat.iter_pos shr_1 p r) = shr_m r / 2 ^ Z.pos p.
Proof.
  assert (Hpos : forall q, 0 < 2 ^ Z.pos q) by (intros; apply Z.pow_pos_nonneg; lia).
  revert r. induction p as [p IH|p IH|]; intros r Hm; simpl SpecFloat.iter_pos.
  - assert (H1 : 0 <= shr_m (shr_1 r))
      by (rewrite shr_1_m by exact Hm; apply Z.div_pos; lia).
    assert (H2 : 0 <= shr_m (SpecFloat.iter_pos shr_1 p (shr_1 r)))
      by (rewrite IH by exact H1; apply Z.div_pos; [lia | apply Hpos]).
    rewrite IH by exact H2. rewrite IH by exact H1. rewrite shr_1_m by exact Hm.
    assert (Hpow : 2 ^ Z.pos p~1 = 2 * 2 ^ Z.pos p * 2 ^ Z.pos p).
    { rewrite Pos2Z.inj_xI.
      replace (2 * Z.pos p + 1) with (1 + Z.pos p + Z.pos p) by lia.
      rewrite !Z.pow_add_r by lia. reflexivity. }
    rewrite Hpow. pose proof (Hpos p).
    rewrite !Z.div_div by lia. f_equal; ring.
  - assert (H2 : 0 <= shr_m (SpecFloat.iter_pos shr_1 p r))
      by (rewrite IH by exact Hm; apply Z.div_pos; [lia | apply Hpos]).
    rewrite IH by exact H2. rewrite IH by exact Hm.
    assert (Hpow : 2 ^ Z.pos p~0 = 2 ^ Z.pos p * 2 ^ Z.pos p).
    { rewrite <- Z.pow_add_r by lia. f_equal; lia. }
    rewrite Hpow. pose proof (Hpos p).
    rewrite !Z.div_div by lia. f_equal; ring.
  - rewrite shr_1_m by exact Hm. reflexivity.
Qed.

(** The exponent and mantissa that [shr_fexp] returns. *)
Lemma shr_fexp_spec (m e : Z) (l : location) :
  0 <= m ->
  let e' := Z.max e (fexp 53 1024 (Zdigits2 m + e)) in
  snd (shr_fexp 53 1024 m e l) = e' /\
  shr_m (fst (shr_fexp 53 1024 m e l)) = m / 2 ^ (e' - e).
Proof.
  intros Hm e'. unfold shr_fexp, shr.
  assert (Hrec : shr_m (shr_record_of_loc m l) = m)
    by (destruct l as [|[]]; reflexivity).
  destruct (fexp 53 1024 (Zdigits2 m + e) - e) as [|p|p] eqn:E; simpl.
  - subst e'. replace (Z.max e (fexp 53 1024 (Zdigits2 m + e))) with e by lia.
    rewrite Z.sub_diag, Hrec. simpl. rewrite Z.div_1_r. split; reflexivity.
  - subst e'.
    replace (Z.max e (fexp 53 1024 (Zdigits2 m + e))) with (e + Z.pos p) by lia.
    split; [reflexivity|].
    rewrite shr_iter_m by (rewrite Hrec; exact Hm).
    rewrite Hrec. f_equal. f_equal. lia.
  - subst e'. replace (Z.max e (fexp 53 1024 (Zdigits2 m + e))) with e by lia.
    rewrite Z.sub_diag, Hrec. simpl. rewrite Z.div_1_r. split; reflexivity.
Qed.

Lemma round_nearest_even_bounds (m : Z) (l : location) :
  m <= round_nearest_even m l <= m + 1.
Proof.
  destruct l as [|[]]; simpl; try lia. destruct (Z.even m); lia.
Qed.

Lemma fexp_53 (e : Z) : fexp 53 1024 e = Z.max (e - 53) (-1074).
Proof. reflexivity. Qed.

Lemma Zdigits2_le (m k : Z) : 0 <= k -> 0 <= m < 2 ^ k -> Zdigits2 m <= k.
Proof.
  intros Hk [Hm Hlt]. destruct m as [|p|p]; simpl; [lia | | lia].
  apply digits2_pos_le; assumption.
Qed.

Lemma shiftl_le (m e e' A : Z) :
  0 <= m -> 0 < A -> e' <= 0 -> e' <= e ->
  m * 2 ^ (e - e') <= A * 2 ^ (- e') ->
  0 <= Z.shiftl m e <= A.
Proof.
  intros Hm HA He' Hee H.
  assert (Hp : 0 < 2 ^ (- e')) by (apply Z.pow_pos_nonneg; lia).
  destruct (Z.le_gt_cases 0 e) as [He|He].
  - rewrite Z.shiftl_mul_pow2 by exact He.
    replace (e - e') with (e + - e') in H by lia.
    rewrite Z.pow_add_r in H by lia.
    assert (0 < 2 ^ e) by (apply Z.pow_pos_nonneg; lia). nia.
  - rewrite Z.shiftl_div_pow2 by lia.
    assert (Hq : 0 < 2 ^ (- e)) by (apply Z.pow_pos_nonneg; lia).
    replace (- e') with ((e - e') + - e) in H by lia.
    rewrite Z.pow_add_r in H by lia.
    assert (Hr : 0 < 2 ^ (e - e')) by (apply Z.pow_pos_nonneg; lia).
    split; [apply Z.div_pos; lia|].
    apply Z.div_le_upper_bound; [exact Hq|]. nia.
Qed.

(** Rounding a positive value below the integer [A <= 2^53] gives a float
    whose integer part is at most [A]. *)
Lemma binary_round_aux_below (mx : positive) (ex A : Z) :
  ex <= 0 -> 0 < A <= 2 ^ 53 -> Z.pos mx < A * 2 ^ (- ex) ->
  exists k,
    int_of_float (binary_round_aux 53 1024 false (Z.pos mx) ex loc_Exact)
    = Returned k /\ 0 <= k <= A.
Proof.
  intros Hex HA Hmx. unfold binary_round_aux.
  assert (H53 : 0 < 2 ^ 53) by reflexivity.
  assert (Hpex : 0 < 2 ^ (- ex)) by (apply Z.pow_pos_nonneg; lia).
  (* first shift *)
  destruct (shr_fexp_spec (Z.pos mx) ex loc_Exact ltac:(lia)) as [He1 Hm1].
  destruct (shr_fexp 53 1024 (Z.pos mx) ex loc_Exact) as [mrs1 e1].
  cbn [fst snd] in He1, Hm1.
  assert (Hdig : Zdigits2 (Z.pos mx) <= 53 - ex).
  { apply Zdigits2_le; [lia|]. split; [lia|].
    replace (53 - ex) with (53 + - ex) by lia. rewrite Z.pow_add_r by lia. nia. }
  rewrite fexp_53 in He1, Hm1. rewrite <- He1 in Hm1.
  assert (He1r : ex <= e1 <= 0) by lia.
  assert (Hp1 : 0 < 2 ^ (e1 - ex)) by (apply Z.pow_pos_nonneg; lia).
  assert (Hpe1 : 0 < 2 ^ (- e1)) by (apply Z.pow_pos_nonneg; lia).
  assert (Hsplit : 2 ^ (- ex) = 2 ^ (e1 - ex) * 2 ^ (- e1)).
  { rewrite <- Z.pow_add_r by lia. f_equal; lia. }
  assert (Hm1lt : 0 <= shr_m mrs1 < A * 2 ^ (- e1)).
  { rewrite Hm1. split; [apply Z.div_pos; lia|].
    apply Z.div_lt_upper_bound; [lia|]. nia. }
  (* rounding *)
  pose proof (round_nearest_even_bounds (shr_m mrs1) (loc_of_shr_record mrs1)) as Hr.
  set (m1 := round_nearest_even (shr_m mrs1) (loc_of_shr_record mrs1)) in *.
  (* second shift *)
  destruct (shr_fexp_spec m1 e1 loc_Exact ltac:(lia)) as [He2 Hm2].
  destruct (shr_fexp 53 1024 m1 e1 loc_Exact) as [mrs2 e2].
  cbn [fst snd] in He2, Hm2.
  assert (Hdig1 : Zdigits2 m1 <= 54 - e1).
  { apply Zdigits2_le; [lia|]. split; [lia|].
    replace (54 - e1) with (1 + 53 + - e1) by lia.
    rewrite !Z.pow_add_r by lia. change (2 ^ 1) with 2. nia. }
  rewrite fexp_53 in He2, Hm2. rewrite <- He2 in Hm2.
  assert (He2r : e1 <= e2 <= 1) by lia.
  assert (Hp2 : 0 < 2 ^ (e2 - e1)) by (apply Z.pow_pos_nonneg; lia).
  assert (Hm2b : 0 <= shr_m mrs2 /\ shr_m mrs2 * 2 ^ (e2 - e1) <= A * 2 ^ (- e1)).
  { rewrite Hm2. split; [apply Z.div_pos; lia|].
    pose proof (Z.mul_div_le m1 (2 ^ (e2 - e1)) Hp2). nia. }
  destruct (shr_m mrs2) as [|m2|m2] eqn:Em2.
  - exists 0. split; [reflexivity | lia].
  - replace (e2 <=? 1024 - 53) with true by (symmetry; apply Z.leb_le; lia).
    simpl. eexists. split; [reflexivity|].
    apply (shiftl_le (Z.pos m2) e2 e1 A); try lia.
  - lia.
Qed.

Lemma digits2_pos_gt (p : positive) : Z.pos p < 2 ^ Z.pos (digits2_pos p).
Proof.
  rewrite digits2_pos_size. pose proof (Pos.size_gt p) as H.
  apply Pos2Z.pos_lt_pos in H. rewrite Pos2Z.inj_pow in H. exact H.
Qed.

(** Rounding a positive value that is at least the integer [B < 2^53]
    gives a float whose integer part is at least [B]. *)
Lemma binary_round_aux_above (mx : positive) (ex B : Z) :
  ex <= 0 -> 0 <= B < 2 ^ 53 ->
  B * 2 ^ (- ex) <= Z.pos mx < 2 ^ 53 * 2 ^ (- ex) ->
  exists k,
    int_of_float (binary_round_aux 53 1024 false (Z.pos mx) ex loc_Exact)
    = Returned k /\ B <= k.
Proof.
  intros Hex HB [Hlow Hup]. unfold binary_round_aux.
  assert (H53 : 0 < 2 ^ 53) by reflexivity.
  assert (Hpex : 0 < 2 ^ (- ex)) by (apply Z.pow_pos_nonneg; lia).
  (* first shift *)
  destruct (shr_fexp_spec (Z.pos mx) ex loc_Exact ltac:(lia)) as [He1 Hm1].
  destruct (shr_fexp 53 1024 (Z.pos mx) ex loc_Exact) as [mrs1 e1].
  cbn [fst snd] in He1, Hm1.
  assert (Hdig : Zdigits2 (Z.pos mx) <= 53 - ex).
  { apply Zdigits2_le; [lia|]. split; [lia|].
    replace (53 - ex) with (53 + - ex) by lia. rewrite Z.pow_add_r by lia. lia. }
  rewrite fexp_53 in He1, Hm1. rewrite <- He1 in Hm1.
  assert (He1r : ex <= e1 <= 0) by lia.
  assert (Hp1 : 0 < 2 ^ (e1 - ex)) by (apply Z.pow_pos_nonneg; lia).
  assert (Hpe1 : 0 < 2 ^ (- e1)) by (apply Z.pow_pos_nonneg; lia).
  assert (Hsplit : 2 ^ (- ex) = 2 ^ (e1 - ex) * 2 ^ (- e1)).
  { rewrite <- Z.pow_add_r by lia. f_equal; lia. }
  assert (Hm1b : B * 2 ^ (- e1) <= shr_m mrs1 < 2 ^ 53).
  { rewrite Hm1. split.
    - apply Z.div_le_lower_bound; [lia|]. nia.
    - apply Z.div_lt_upper_bound; [lia|].
      pose proof (digits2_pos_gt mx) as Hgt. cbn [Zdigits2] in He1.
      assert (Hle : 2 ^ Z.pos (digits2_pos mx) <= 2 ^ (53 + (e1 - ex)))
        by (apply Z.pow_le_mono_r; lia).
      rewrite Z.pow_add_r in Hle by lia. lia. }
  (* rounding *)
  pose proof (round_nearest_even_bounds (shr_m mrs1) (loc_of_shr_record mrs1)) as Hr.
  set (m1 := round_nearest_even (shr_m mrs1) (loc_of_shr_record mrs1)) in *.
  assert (Hm10 : 0 <= m1) by nia.
  (* second shift *)
  destruct (shr_fexp_spec m1 e1 loc_Exact Hm10) as [He2 Hm2].
  destruct (shr_fexp 53 1024 m1 e1 loc_Exact) as [mrs2 e2].
  cbn [fst snd] in He2, Hm2.
  assert (Hdig1 : Zdigits2 m1 <= 54).
  { apply Zdigits2_le; [lia|]. split; [lia|].
    change (2 ^ 54) with (2 * 2 ^ 53). lia. }
  rewrite fexp_53 in He2, Hm2. rewrite <- He2 in Hm2.
  assert (He2r : e1 <= e2 <= e1 + 1) by lia.
  assert (Hp2 : 0 < 2 ^ (e2 - e1)) by (apply Z.pow_pos_nonneg; lia).
  destruct (Z.le_gt_cases e2 0) as [Hneg|Hpos].
  - assert (Hpe2 : 0 < 2 ^ (- e2)) by (apply Z.pow_pos_nonneg; lia).
    assert (Hsplit2 : 2 ^ (- e1) = 2 ^ (e2 - e1) * 2 ^ (- e2)).
    { rewrite <- Z.pow_add_r by lia. f_equal; lia. }
    assert (Hm2b : B * 2 ^ (- e2) <= shr_m mrs2).
    { rewrite Hm2. apply Z.div_le_lower_bound; [lia|]. nia. }
    destruct (shr_m mrs2) as [|m2|m2] eqn:Em2.
    + exists 0. split; [reflexivity|]. nia.
    + replace (e2 <=? 1024 - 53) with true by (symmetry; apply Z.leb_le; lia).
      cbn [int_of_float cond_Zopp]. eexists. split; [reflexivity|].
      rewrite Z.shiftl_div_pow2 by lia.
      apply Z.div_le_lower_bound; [lia|]. lia.
    + nia.
  - assert (He2eq : e2 = 1) by lia.
    assert (He1eq : e1 = 0) by lia.
    assert (Hm1big : 2 ^ 53 <= m1).
    { destruct (Z.le_gt_cases (2 ^ 53) m1) as [H|H]; [exact H|].
      pose proof (Zdigits2_le m1 53 ltac:(lia) ltac:(lia)). lia. }
    assert (Hm1eq : m1 = 2 ^ 53) by lia.
    rewrite Hm1eq, He2eq, He1eq in Hm2.
    change (2 ^ 53 / 2 ^ (1 - 0)) with (2 ^ 52) in Hm2.
    rewrite Hm2, He2eq.
    exists (2 ^ 53). split; [reflexivity|]. lia.
Qed.

Lemma binary_round_aux_canonical (s : bool) (m : positive) (e : Z) :
  Z.pos (digits2_pos m) = 53 -> -1074 <= e <= 971 ->
  binary_round_aux 53 1024 s (Z.pos m) e loc_Exact = S754_finite s m e.
Proof.
  intros Hd He. unfold binary_round_aux, shr_fexp. cbn [Zdigits2]. rewrite Hd.
  replace (fexp 53 1024 (53 + e) - e) with 0 by (rewrite fexp_53; lia).
  cbn [shr shr_record_of_loc loc_of_shr_record round_nearest_even shr_m Zdigits2].
  rewrite Hd.
  replace (fexp 53 1024 (53 + e) - e) with 0 by (rewrite fexp_53; lia).
  cbn [shr shr_record_of_loc shr_m].
  replace (e <=? 1024 - 53) with true by (symmetry; apply Z.leb_le; lia).
  reflexivity.
Qed.

Lemma iter_xO_spec (p d : positive) :
  Z.pos (Pos.iter xO p d) = Z.pos p * 2 ^ Z.pos d /\
  Z.pos (digits2_pos (Pos.iter xO p d)) = Z.pos (digits2_pos p) + Z.pos d.
Proof.
  induction d as [|d [IH1 IH2]] using Pos.peano_ind.
  - simpl. split; lia.
  - rewrite Pos.iter_succ. cbn [digits2_pos].
    rewrite Pos2Z.inj_xO, IH1, !Pos2Z.inj_succ, IH2, Z.pow_succ_r by lia.
    split; lia.
Qed.

Lemma digits2_pos_pos (p : positive) : 1 <= Z.pos (digits2_pos p).
Proof. lia. Qed.

(** Below 2^53 the conversion of an integer to a float is exact. *)
Lemma float_of_int_exact (n : Z) :
  0 < n < 2 ^ 53 ->
  exists mn en,
    float_of_int n = Returned (S754_finite false mn en) /\
    Z.pos mn = n * 2 ^ (- en) /\ -52 <= en <= 0.
Proof.
  intros [Hn0 Hn]. destruct n as [|p|p]; try lia.
  unfold float_of_int, binary_normalize, binary_round.
  pose proof (digits2_pos_le p 53 ltac:(lia) Hn) as Hd.
  pose proof (digits2_pos_pos p) as Hd1.
  rewrite fexp_53.
  replace (Z.max (Z.pos (digits2_pos p) + 0 - 53) (-1074))
    with (Z.pos (digits2_pos p) - 53) by lia.
  unfold shl_align.
  destruct (Z.pos (digits2_pos p) - 53 - 0) as [|d|d] eqn:E; try lia.
  - rewrite binary_round_aux_canonical by lia.
    exists p, 0. repeat split; simpl; lia.
  - destruct (iter_xO_spec p d) as [Hv Hdig].
    rewrite binary_round_aux_canonical by lia.
    exists (Pos.iter xO p d), (Z.pos (digits2_pos p) - 53).
    split; [reflexivity|]. split; [|lia].
    rewrite Hv. f_equal. f_equal. lia.
Qed.

(** [int(n * c)] for a literal [c] strictly below the fraction [p / q]. *)
Lemma int_mul_float_le (n : Z) (mc : positive) (ec p q : Z) :
  0 <= n < 2 ^ 53 -> ec <= 0 -> 0 < p <= q ->
  Z.pos mc * q < p * 2 ^ (- ec) ->
  exists k,
    int_mul_float n (S754_finite false mc ec) = Returned k /\
    0 <= k <= (n * p + q - 1) / q.
Proof.
  intros [Hn0 Hn] Hec Hpq Hc.
  destruct (Z.eq_dec n 0) as [->|Hnz].
  - exists 0. split; [reflexivity|]. split; [lia|]. apply Z.div_pos; lia.
  - destruct (float_of_int_exact n ltac:(lia)) as (mn & en & Hf & Hmn & Hen).
    unfold int_mul_float. rewrite Hf. cbn [bind_outcome].
    unfold float_mul, SFmul. cbn [xorb].
    set (A := (n * p + q - 1) / q).
    assert (HA : n * p <= A * q).
    { unfold A. pose proof (Z.mod_pos_bound (n * p + q - 1) q ltac:(lia)).
      pose proof (Z.div_mod (n * p + q - 1) q ltac:(lia)). lia. }
    assert (HAn : A <= n).
    { assert (A < n + 1); [|lia].
      unfold A. apply Z.div_lt_upper_bound; [lia|]. nia. }
    assert (HA0 : 0 < A) by nia.
    assert (Hpec : 0 < 2 ^ (- ec)) by (apply Z.pow_pos_nonneg; lia).
    assert (Hpen : 0 < 2 ^ (- en)) by (apply Z.pow_pos_nonneg; lia).
    apply binary_round_aux_below; [lia | lia |].
    rewrite Pos2Z.inj_mul, Hmn.
    replace (- (en + ec)) with (- en + - ec) by lia.
    rewrite Z.pow_add_r by lia.
    assert (n * Z.pos mc < A * 2 ^ (- ec)) by nia.
    nia.
Qed.

(** [int(n * c)] for a literal [c] that is below the fraction [p / q] by
    less than [2^-53]: the integer is the floor of [n * p / q] or its
    neighbour. *)
Lemma int_mul_float_bounds (n : Z) (mc : positive) (ec p q : Z) :
  0 <= n < 2 ^ 53 -> ec <= 0 -> 0 < p <= q ->
  Z.pos mc * q < p * 2 ^ (- ec) ->
  (p * 2 ^ (- ec) - Z.pos mc * q) * 2 ^ 53 <= q * 2 ^ (- ec) ->
  exists k,
    int_mul_float n (S754_finite false mc ec) = Returned k /\
    n * p / q - 1 <= k <= (n * p + q - 1) / q.
Proof.
  intros [Hn0 Hn] Hec Hpq Hc Hclose.
  destruct (int_mul_float_le n mc ec p q) as (k & Hk & Hk0 & Hkup);
    [lia | lia | lia | exact Hc |].
  exists k. split; [exact Hk|]. split; [|exact Hkup].
  set (B := n * p / q - 1).
  destruct (Z.le_gt_cases B 0) as [HB|HB]; [lia|].
  assert (HBq : q * B <= n * p - q).
  { unfold B. pose proof (Z.mul_div_le (n * p) q ltac:(lia)). lia. }
  assert (Hnz : 0 < n) by nia.
  assert (HBn : B < n).
  { assert (q * B < q * n) by nia. nia. }
  revert Hk.
  destruct (float_of_int_exact n ltac:(lia)) as (mn & en & Hf & Hmn & Hen).
  unfold int_mul_float. rewrite Hf. cbn [bind_outcome].
  unfold float_mul, SFmul. cbn [xorb].
  assert (Hpec : 0 < 2 ^ (- ec)) by (apply Z.pow_pos_nonneg; lia).
  assert (Hpen : 0 < 2 ^ (- en)) by (apply Z.pow_pos_nonneg; lia).
  assert (Hpow : 2 ^ (- (en + ec)) = 2 ^ (- en) * 2 ^ (- ec)).
  { replace (- (en + ec)) with (- en + - ec) by lia. apply Z.pow_add_r; lia. }
  destruct (binary_round_aux_above (mn * mc) (en + ec) B) as (k' & Hk' & HBk).
  - lia.
  - lia.
  - rewrite Pos2Z.inj_mul, Hmn, Hpow. split.
    + assert (B * 2 ^ (- ec) <= n * Z.pos mc).
      { assert (q * (B * 2 ^ (- ec)) <= q * (n * Z.pos mc)); [|nia].
        assert (n * (p * 2 ^ (- ec) - Z.pos mc * q) <= q * 2 ^ (- ec)) by nia.
        nia. }
      nia.
    + assert (Z.pos mc < 2 ^ (- ec)) by nia.
      assert (n * Z.pos mc < 2 ^ 53 * 2 ^ (- ec)) by nia.
      nia.
  - rewrite Hk'. intros [= <-]. exact HBk.
Qed.

Lemma partition_sizes (n : nat) :
  Z.of_nat n < 2 ^ 53 ->
  exists a c : nat,
    int_mul_float (Z.of_nat n) lit_0_7 = Returned (Z.of_nat a) /\
    int_mul_float (Z.of_nat n) lit_0_15 = Returned (Z.of_nat c) /\
    (a + c <= n)%nat /\
    Z.of_nat n * 7 / 10 - 1 <= Z.of_nat a <= (Z.of_nat n * 7 + 9) / 10 /\
    Z.of_nat n * 15 / 100 - 1 <= Z.of_nat c <= (Z.of_nat n * 15 + 99) / 100.
Proof.
  intros Hn.
  destruct (int_mul_float_bounds (Z.of_nat n) 6305039478318694 (-53) 7 10)
    as (k7 & H7 & Hk7); [lia | lia | lia | reflexivity | vm_compute; discriminate |].
  destruct (int_mul_float_bounds (Z.of_nat n) 5404319552844595 (-55) 15 100)
    as (k15 & H15 & Hk15); [lia | lia | lia | reflexivity | vm_compute; discriminate |].
  assert (Hk7' : 0 <= k7).
  { destruct (int_mul_float_le (Z.of_nat n) 6305039478318694 (-53) 7 10)
      as (k & Hk & Hk0 & _); [lia | lia | lia | reflexivity |].
    rewrite H7 in Hk. injection Hk as <-. exact Hk0. }
  assert (Hk15' : 0 <= k15).
  { destruct (int_mul_float_le (Z.of_nat n) 5404319552844595 (-55) 15 100)
      as (k & Hk & Hk0 & _); [lia | lia | lia | reflexivity |].
    rewrite H15 in Hk. injection Hk as <-. exact Hk0. }
  replace (Z.of_nat n * 7 + 10 - 1) with (Z.of_nat n * 7 + 9) in Hk7 by lia.
  replace (Z.of_nat n * 15 + 100 - 1) with (Z.of_nat n * 15 + 99) in Hk15 by lia.
  exists (Z.to_nat k7), (Z.to_nat k15).
  rewrite !Z2Nat.id by lia. split; [exact H7|]. split; [exact H15|].
  split; [|split; [exact Hk7 | exact Hk15]].
  destruct Hk7 as [_ Hk7]. destruct Hk15 as [_ Hk15].
  assert (Hk7b : 0 <= k7 <= (Z.of_nat n * 7 + 10 - 1) / 10)
    by (replace (Z.of_nat n * 7 + 10 - 1) with (Z.of_nat n * 7 + 9) by lia; lia).
  assert (Hk15b : 0 <= k15 <= (Z.of_nat n * 15 + 100 - 1) / 100)
    by (replace (Z.of_nat n * 15 + 100 - 1) with (Z.of_nat n * 15 + 99) by lia; lia).
  clear Hk7 Hk15. rename Hk7b into Hk7. rename Hk15b into Hk15.
  destruct (le_lt_dec 13 n) as [Hbig|Hsmall].
  - replace (Z.of_nat n * 7 + 10 - 1) with (Z.of_nat n * 7 + 9) in Hk7 by lia.
    replace (Z.of_nat n * 15 + 100 - 1) with (Z.of_nat n * 15 + 99) in Hk15 by lia.
    pose proof (Z.div_mod (Z.of_nat n * 7 + 9) 10 ltac:(lia)).
    pose proof (Z.mod_pos_bound (Z.of_nat n * 7 + 9) 10 ltac:(lia)).
    pose proof (Z.div_mod (Z.of_nat n * 15 + 99) 100 ltac:(lia)).
    pose proof (Z.mod_pos_bound (Z.of_nat n * 15 + 99) 100 ltac:(lia)).
    lia.
  - clear Hk7 Hk15 Hn. revert H7 H15. unfold lit_0_7, lit_0_15.
    do 13 (destruct n as [|n]; [vm_compute; intros [= <-] [= <-]; lia|]).
    lia.
Qed.

End FloatProducts.

(** ** The partition *)

Section PartitionProperties.

Import Direct.

Lemma three_slices (l : list nat) (a c : nat) :
  l = take a l ++ take c (drop a l) ++ drop (a + c) l.
Proof.
  rewrite <- drop_drop, take_drop, take_drop. reflexivity.
Qed.

Lemma b2n_exactly_one (P1 P2 P3 : Prop)
  `{Decision P1, Decision P2, Decision P3} :
  (P1 \/ P2 \/ P3) -> (P1 -> ~ P2) -> (P1 -> ~ P3) -> (P2 -> ~ P3) ->
  (Nat.b2n (bool_decide P1) + Nat.b2n (bool_decide P2)
   + Nat.b2n (bool_decide P3) = 1)%nat.
Proof.
  intros Hone H12 H13 H23.
  destruct (decide P1) as [p1|n1], (decide P2) as [p2|n2], (decide P3) as [p3|n3];
    rewrite ?(bool_decide_eq_true_2 _ p1), ?(bool_decide_eq_false_2 _ n1),
            ?(bool_decide_eq_true_2 _ p2), ?(bool_decide_eq_false_2 _ n2),
            ?(bool_decide_eq_true_2 _ p3), ?(bool_decide_eq_false_2 _ n3);
    simpl; try reflexivity; exfalso; try tauto;
    try (apply (H12 p1 p2)); try (apply (H13 p1 p3)); try (apply (H23 p2 p3)).
Qed.

(** Claim C4, as the script behaves.  For every node count [n] (below
    2^53, where a float still carries every integer) and every outcome of
    the shuffle, the partitioner returns three masks of length [n]: the
    training mask marks the first [int(n * 0.7)] shuffled indices, the
    validation mask the next [int(n * 0.15)], the test mask all the
    remaining ones; every node is marked in exactly one mask, and the
    three sizes sum to [n].  The two sizes are those of the binary64
    products the script computes: each is the floor of the exact product
    or differs from it by one (at least the floor less one, at most the
    ceiling). *)
Theorem partition_masks_disjoint_cover
  (shuffle : list nat -> list nat) (num_nodes : nat) :
  (forall l, Permutation (shuffle l) l) ->
  Z.of_nat num_nodes < 2 ^ 53 ->
  exists (m : masks) (train_end val_len : nat),
    int_mul_float (Z.of_nat num_nodes) lit_0_7 = Returned (Z.of_nat train_end) /\
    int_mul_float (Z.of_nat num_nodes) lit_0_15 = Returned (Z.of_nat val_len) /\
    generate_masks shuffle num_nodes = Returned m /\
    Z.of_nat num_nodes * 7 / 10 - 1 <= Z.of_nat train_end
      <= (Z.of_nat num_nodes * 7 + 9) / 10 /\
    Z.of_nat num_nodes * 15 / 100 - 1 <= Z.of_nat val_len
      <= (Z.of_nat num_nodes * 15 + 99) / 100 /\
    let indices := shuffle (seq 0 num_nodes) in
    (forall i, train_mask m !! i = Some true <-> i ∈ take train_end indices) /\
    (forall i, val_mask m !! i = Some true
               <-> i ∈ take val_len (drop train_end indices)) /\
    (forall i, test_mask m !! i = Some true
               <-> i ∈ drop (train_end + val_len) indices) /\
    length (train_mask m) = num_nodes /\
    length (val_mask m) = num_nodes /\
    length (test_mask m) = num_nodes /\
    (forall i, (i < num_nodes)%nat ->
       exists b1 b2 b3,
         train_mask m !! i = Some b1 /\
         val_mask m !! i = Some b2 /\
         test_mask m !! i = Some b3 /\
         (Nat.b2n b1 + Nat.b2n b2 + Nat.b2n b3 = 1)%nat) /\
    count_true (train_mask m) = train_end /\
    count_true (val_mask m) = val_len /\
    count_true (test_mask m) = (num_nodes - train_end - val_len)%nat /\
    (count_true (train_mask m) + count_true (val_mask m)
     + count_true (test_mask m) = num_nodes)%nat.
Proof.
  intros Hshuffle Hn.
  destruct (partition_sizes num_nodes Hn) as (a & c & H7 & H15 & Hac & Hb7 & Hb15).
  set (indices := shuffle (seq 0 num_nodes)).
  assert (Hperm : Permutation indices (seq 0 num_nodes)) by apply Hshuffle.
  assert (Hlen : length indices = num_nodes)
    by (rewrite (Permutation_length Hperm); apply length_seq).
  assert (Hnd : NoDup indices)
    by (rewrite Hperm; apply NoDup_seq).
  assert (Hmem : forall i, i ∈ indices <-> (i < num_nodes)%nat).
  { intros i. rewrite Hperm, elem_of_seq. lia. }
  assert (Hall : Forall (fun i => (i < num_nodes)%nat) indices)
    by (apply Forall_forall; intros i Hi; apply Hmem, Hi).
  set (s1 := take a indices).
  set (s2 := take c (drop a indices)).
  set (s3 := drop (a + c) indices).
  assert (Hsplit : indices = s1 ++ s2 ++ s3) by apply three_slices.
  destruct (py_slices indices a c) as (Hs1 & Hs2 & Hs3); [lia|].
  fold s1 in Hs1. fold s2 in Hs2. fold s3 in Hs3.
  destruct (index_put_true_zeros num_nodes s1) as (m1 & Hr1 & Hl1 & Hb1 & Hi1 & Hc1);
    [apply Forall_take, Hall|].
  destruct (index_put_true_zeros num_nodes s2) as (m2 & Hr2 & Hl2 & Hb2 & Hi2 & Hc2);
    [apply Forall_take, Forall_drop, Hall|].
  destruct (index_put_true_zeros num_nodes s3) as (m3 & Hr3 & Hl3 & Hb3 & Hi3 & Hc3);
    [apply Forall_drop, Hall|].
  exists {| train_mask := m1; val_mask := m2; test_mask := m3 |}, a, c.
  split; [exact H7|]. split; [exact H15|]. split.
  { unfold generate_masks. fold indices. rewrite H7, H15. cbn [bind_outcome].
    rewrite Hs1, Hs2, Hs3, Hr1. cbn [bind_outcome].
    rewrite Hr2. cbn [bind_outcome]. rewrite Hr3. reflexivity. }
  split; [exact Hb7|]. split; [exact Hb15|].
  pose proof Hnd as Hnd'. rewrite Hsplit in Hnd'.
  apply NoDup_app in Hnd' as (Hnd1 & Hd1 & Hnd23).
  apply NoDup_app in Hnd23 as (Hnd2 & Hd23 & Hnd3).
  assert (Hlen1 : length s1 = a) by (unfold s1; rewrite length_take; lia).
  assert (Hlen2 : length s2 = c)
    by (unfold s2; rewrite length_take, length_drop; lia).
  assert (Hlen3 : length s3 = (num_nodes - a - c)%nat)
    by (unfold s3; rewrite length_drop; lia).
  cbn [train_mask val_mask test_mask]. cbv zeta.
  split; [exact Hi1|]. split; [exact Hi2|]. split; [exact Hi3|].
  split; [exact Hl1|]. split; [exact Hl2|]. split; [exact Hl3|].
  split.
  { intros i Hi. do 3 eexists.
    split; [apply Hb1, Hi|]. split; [apply Hb2, Hi|]. split; [apply Hb3, Hi|].
    apply b2n_exactly_one.
    - apply Hmem in Hi. rewrite Hsplit in Hi.
      rewrite !elem_of_app in Hi. exact Hi.
    - intros H1 H2. apply (Hd1 i H1). apply elem_of_app. left. exact H2.
    - intros H1 H3. apply (Hd1 i H1). apply elem_of_app. right. exact H3.
    - intros H2 H3. apply (Hd23 i H2 H3). }
  rewrite (Hc1 Hnd1), (Hc2 Hnd2), (Hc3 Hnd3), Hlen1, Hlen2, Hlen3.
  repeat split; lia.
Qed.

(** Ten nodes, the shuffle leaving them in reverse order: seven training
    nodes, one validation node, two test nodes. *)
Lemma partition_masks_witness :
  exists m,
    generate_masks (@rev nat) 10 = Returned m /\
    train_mask m = [false; false; false; true; true; true; true; true; true; true] /\
    val_mask m = [false; false; true; false; false; false; false; false; false; false] /\
    test_mask m = [true; true; false; false; false; false; false; false; false; false].
Proof.
  destruct (partition_masks_disjoint_cover (@rev nat) 10)
    as (m & a & c & _ & _ & Hm & _).
  - intros l. symmetry. apply Permutation_rev.
  - reflexivity.
  - exists m. split; [exact Hm|].
    vm_compute in Hm. injection Hm as <-. repeat split.
Defined.

(** The sizes are those of the binary64 products: [90 * 0.7] is a float
    just below 63, so 90 nodes give 62 training nodes and 13 validation
    nodes. *)
Lemma partition_sizes_90 :
  int_mul_float 90 lit_0_7 = Returned 62 /\
  int_mul_float 90 lit_0_15 = Returned 13 /\
  int_mul_float 10 lit_0_7 = Returned 7 /\
  int_mul_float 10 lit_0_15 = Returned 1.
Proof. repeat split; reflexivity. Qed.

(** Claim C4 fails as stated in the sizes: for 90 nodes, left in order by
    the shuffle, the training mask marks 62 nodes, where the floor of
    0.7 * 90 is 63; the validation mask marks 13 and the test mask the
    remaining 15. *)
Lemma partition_masks_counterexample :
  90 * 7 / 10 = 63 /\
  exists m,
    generate_masks (fun l => l) 90 = Returned m /\
    count_true (train_mask m) = 62%nat /\
    count_true (val_mask m) = 13%nat /\
    count_true (test_mask m) = 15%nat.
Proof.
  split; [reflexivity|]. eexists. split; [vm_compute; reflexivity|].
  repeat split; vm_compute; reflexivity.
Qed.

End PartitionProperties.

(* ===================================================================== *)
(** * Part III: further properties of the scripts                         *)
(* ===================================================================== *)

(** ** The loader's dictionary and the edges it keeps *)

Section DirectGraphProperties.

Import Direct DirectSave DirectGraph.

(** An index found in the dictionary leads back to the identity. *)
Lemma node_id_to_idx_sound (node_ids : list Z) (id : Z) (i : nat) :
  node_id_to_idx node_ids !! id = Some i -> node_ids !! i = Some id.
Proof.
  revert i. induction node_ids as [|x l IH] using rev_ind; intros i.
  - unfold node_id_to_idx. simpl. rewrite lookup_empty. discriminate.
  - rewrite node_id_to_idx_snoc. destruct (decide (x = id)) as [->|Hne].
    + rewrite lookup_insert_eq. intros [= <-].
      apply list_lookup_middle. reflexivity.
    + rewrite lookup_insert_ne by exact Hne. intros H.
      apply IH in H. rewrite lookup_app_l; [exact H|].
      eapply lookup_lt_Some. exact H.
Qed.

(** The dictionary knows exactly the identities of the node rows. *)
Lemma node_id_to_idx_domain (node_ids : list Z) (id : Z) :
  is_Some (node_id_to_idx node_ids !! id) <-> id ∈ node_ids.
Proof.
  induction node_ids as [|x l IH] using rev_ind.
  - unfold node_id_to_idx. simpl. rewrite lookup_empty. split.
    + intros [? ?]. discriminate.
    + intros H. apply elem_of_nil in H. contradiction.
  - rewrite node_id_to_idx_snoc, elem_of_app, list_elem_of_singleton.
    destruct (decide (x = id)) as [->|Hne].
    + rewrite lookup_insert_eq. split; [right; reflexivity | eauto].
    + rewrite lookup_insert_ne by exact Hne. rewrite IH.
      split; [left; assumption | intros [H|H]; [exact H | congruence]].
Qed.

Lemma edge_list_from (node_ids : list Z) (edge_rows : list (Z * Z))
  (acc : list (nat * nat)) :
  fold_left
    (fun edge_list st =>
       match node_id_to_idx node_ids !! fst st,
             node_id_to_idx node_ids !! snd st with
       | Some s, Some t => edge_list ++ [(s, t)]
       | _, _ => edge_list
       end)
    edge_rows acc
  = acc ++ edge_list node_ids edge_rows.
Proof.
  unfold edge_list. revert acc.
  induction edge_rows as [|st rows IH]; intros acc; simpl.
  - rewrite app_nil_r. reflexivity.
  - rewrite IH. rewrite (IH (match _ with Some _ => _ | None => _ end)).
    destruct (node_id_to_idx node_ids !! st.1) as [s|];
      [destruct (node_id_to_idx node_ids !! st.2) as [t|]|];
      simpl; rewrite ?app_nil_r, <- ?app_assoc; reflexivity.
Qed.

Lemma edge_list_cons (node_ids : list Z) (st : Z * Z) (edge_rows : list (Z * Z)) :
  edge_list node_ids (st :: edge_rows)
  = match node_id_to_idx node_ids !! fst st,
          node_id_to_idx node_ids !! snd st with
    | Some s, Some t => [(s, t)]
    | _, _ => []
    end ++ edge_list node_ids edge_rows.
Proof.
  unfold edge_list at 1. simpl. rewrite edge_list_from.
  destruct (node_id_to_idx node_ids !! st.1) as [s|];
    [destruct (node_id_to_idx node_ids !! st.2) as [t|]|]; reflexivity.
Qed.

(** Extra X1.  The edge list of the PostGIS loader is the list of the
    edge rows whose two endpoints are node identities, in query order,
    each written with the dense indices of its endpoints: reading the
    indices back in the node list gives those rows again, every other row
    is skipped, and all indices are below the node count. *)
Theorem edge_list_round_trip (node_ids : list Z) (edge_rows : list (Z * Z)) :
  map (fun st => (node_ids !! fst st, node_ids !! snd st))
      (edge_list node_ids edge_rows)
  = map (fun ab => (Some (fst ab), Some (snd ab)))
        (filter (fun ab => fst ab ∈ node_ids /\ snd ab ∈ node_ids) edge_rows) /\
  Forall (fun st => (fst st < length node_ids)%nat /\ (snd st < length node_ids)%nat)
         (edge_list node_ids edge_rows).
Proof.
  induction edge_rows as [|[a b] rows [IH1 IH2]].
  - split; [reflexivity | constructor].
  - rewrite edge_list_cons. simpl fst. simpl snd.
    destruct (node_id_to_idx node_ids !! a) as [s|] eqn:Ea.
    + destruct (node_id_to_idx node_ids !! b) as [t|] eqn:Eb.
      * assert (Ha : a ∈ node_ids) by (apply node_id_to_idx_domain; eauto).
        assert (Hb : b ∈ node_ids) by (apply node_id_to_idx_domain; eauto).
        apply node_id_to_idx_sound in Ea, Eb.
        rewrite filter_cons_True by (split; assumption).
        split.
        -- simpl. rewrite Ea, Eb, IH1. reflexivity.
        -- constructor; [|exact IH2]. simpl.
           split; eapply lookup_lt_Some; eassumption.
      * assert (Hb : b ∉ node_ids).
        { intros H. apply node_id_to_idx_domain in H as [? H]. congruence. }
        rewrite filter_cons_False by (simpl; tauto).
        split; assumption.
    + assert (Ha : a ∉ node_ids).
      { intros H. apply node_id_to_idx_domain in H as [? H]. congruence. }
      rewrite filter_cons_False by (simpl; tauto).
      split; assumption.
Qed.

End DirectGraphProperties.

(** ** The graph assembled from the query rows *)

Section LoadGraphProperties.

Import Direct DirectSave DirectGraph.

Lemma generate_masks_lengths (shuffle : list nat -> list nat) (n : nat) :
  (forall l, Permutation (shuffle l) l) ->
  Z.of_nat n < 2 ^ 53 ->
  exists m,
    generate_masks shuffle n = Returned m /\
    length (train_mask m) = n /\
    length (val_mask m) = n /\
    length (test_mask m) = n.
Proof.
  intros Hshuffle Hn.
  destruct (partition_sizes n Hn) as (a & c & H7 & H15 & Hac).
  set (indices := shuffle (seq 0 n)).
  assert (Hperm : Permutation indices (seq 0 n)) by apply Hshuffle.
  assert (Hlen : length indices = n)
    by (rewrite (Permutation_length Hperm); apply length_seq).
  assert (Hall : Forall (fun i => (i < n)%nat) indices).
  { apply Forall_forall. intros i Hi. rewrite Hperm in Hi.
    apply elem_of_seq in Hi. lia. }
  destruct (py_slices indices a c) as (Hs1 & Hs2 & Hs3); [lia|].
  destruct (index_put_true_zeros n (take a indices)) as (m1 & Hr1 & Hl1 & _);
    [apply Forall_take, Hall|].
  destruct (index_put_true_zeros n (take c (drop a indices))) as (m2 & Hr2 & Hl2 & _);
    [apply Forall_take, Forall_drop, Hall|].
  destruct (index_put_true_zeros n (drop (a + c) indices)) as (m3 & Hr3 & Hl3 & _);
    [apply Forall_drop, Hall|].
  exists {| train_mask := m1; val_mask := m2; test_mask := m3 |}.
  split; [|repeat split; assumption].
  unfold generate_masks. fold indices. rewrite H7, H15. cbn [bind_outcome].
  rewrite Hs1, Hs2, Hs3, Hr1. cbn [bind_outcome].
  rewrite Hr2. cbn [bind_outcome]. rewrite Hr3. reflexivity.
Qed.

Lemma label_of_degree_range (degree : Z) : 0 <= label_of_degree degree <= 2.
Proof.
  unfold label_of_degree.
  destruct (degree =? 2); [lia|]. destruct (degree >=? 4); lia.
Qed.

(** Extra X2.  The PostGIS loader returns a graph exactly when the node
    query has rows: with no node it raises at [y.max()].  The graph it
    returns has one feature row of five numbers, one label in {0, 1, 2}
    and one entry in each of the three masks per node row, and every edge
    endpoint is the index of a node. *)
Theorem load_graph_data_shape
  (shuffle : list nat -> list nat)
  (node_rows : list node_row) (edge_rows : list (Z * Z)) :
  (forall l, Permutation (shuffle l) l) ->
  Z.of_nat (length node_rows) < 2 ^ 53 ->
  (node_rows = [] ->
   load_graph_data shuffle node_rows edge_rows = Raised RuntimeError) /\
  (node_rows <> [] ->
   exists g,
     load_graph_data shuffle node_rows edge_rows = Returned g /\
     length (x g) = length node_rows /\
     Forall (fun features => length features = 5%nat) (x g) /\
     length (y g) = length node_rows /\
     Forall (fun label => 0 <= label <= 2) (y g) /\
     length (train_mask (partition g)) = length node_rows /\
     length (val_mask (partition g)) = length node_rows /\
     length (test_mask (partition g)) = length node_rows /\
     Forall (fun st => (fst st < length node_rows)%nat /\
                       (snd st < length node_rows)%nat)
            (edge_index g)).
Proof.
  intros Hshuffle Hn.
  destruct (generate_masks_lengths shuffle (length node_rows) Hshuffle Hn)
    as (m & Hm & Hl1 & Hl2 & Hl3).
  unfold load_graph_data. cbv zeta. rewrite length_map, Hm. cbn [bind_outcome].
  rewrite generate_labels_map. split.
  - intros ->. reflexivity.
  - intros Hne. destruct node_rows as [|r rows]; [congruence|].
    cbn [map labels_max bind_outcome]. eexists. split; [reflexivity|].
    cbn [x y edge_index partition].
    split; [simpl; rewrite ?length_map; reflexivity|].
    split.
    { change (Forall (fun features => length features = 5%nat)
                (map feature_row (r :: rows))).
      apply Forall_map, Forall_forall. intros ? _. reflexivity. }
    split; [simpl; rewrite ?length_map; reflexivity|].
    split.
    { change (Forall (fun label => 0 <= label <= 2)
                (map label_of_degree (map row_degree (r :: rows)))).
      apply Forall_map, Forall_forall. intros ? _. apply label_of_degree_range. }
    split; [exact Hl1|]. split; [exact Hl2|]. split; [exact Hl3|].
    pose proof (proj2 (edge_list_round_trip (map row_id (r :: rows)) edge_rows)) as He.
    rewrite length_map in He. exact He.
Qed.

(** The fixture graph with an edge between two of its nodes and an edge
    to an identity that is not a node. *)
Lemma load_graph_data_witness :
  exists g,
    load_graph_data (@rev nat) fixture_rows [(1, 2); (2, 99)] = Returned g /\
    length (x g) = 6%nat /\ y g = [0; 1; 1; 0; 2; 2] /\
    edge_index g = [(0%nat, 1%nat)].
Proof.
  destruct (load_graph_data_shape (@rev nat) fixture_rows [(1, 2); (2, 99)])
    as [_ H].
  - intros l. symmetry. apply Permutation_rev.
  - reflexivity.
  - destruct H as (g & Hg & Hx & _); [discriminate|].
    exists g. split; [exact Hg|]. split; [exact Hx|].
    vm_compute in Hg. injection Hg as <-. split; reflexivity.
Defined.

End LoadGraphProperties.

(** ** The prediction distribution *)

Section PredictionCountProperties.

Import PredictionCounts.

Lemma count_predictions_snoc (l : list nat) (p : nat) :
  count_predictions (l ++ [p])
  = <[p := (default 0 (count_predictions l !! p) + 1)%nat]> (count_predictions l).
Proof. unfold count_predictions. rewrite fold_left_app. reflexivity. Qed.

Lemma occurrences_snoc (c p : nat) (l : list nat) :
  occurrences c (l ++ [p])
  = (occurrences c l + (if decide (p = c) then 1 else 0))%nat.
Proof.
  unfold occurrences. rewrite filter_app, length_app. f_equal.
  destruct (decide (p = c)) as [E|E].
  - rewrite filter_cons_True by exact E. reflexivity.
  - rewrite filter_cons_False by exact E. reflexivity.
Qed.

Lemma occurrences_pos (c : nat) (l : list nat) :
  (0 < occurrences c l)%nat <-> c ∈ l.
Proof.
  unfold occurrences. induction l as [|p l IH].
  - simpl. split; [lia | intros H; apply elem_of_nil in H; contradiction].
  - rewrite elem_of_cons. destruct (decide (p = c)) as [E|E].
    + rewrite filter_cons_True by exact E. simpl. split; [auto | lia].
    + rewrite filter_cons_False by exact E. rewrite IH.
      split; [auto | intros [H|H]; [congruence | exact H]].
Qed.

Lemma total_count_commute (j1 j2 z1 z2 y : nat) :
  (z1 + (z2 + y) = z2 + (z1 + y))%nat.
Proof. lia. Qed.

Lemma total_count_insert (m : gmap nat nat) (p v : nat) :
  (total_count (<[p := v]> m) + default 0 (m !! p) = v + total_count m)%nat.
Proof.
  unfold total_count. destruct (m !! p) as [old|] eqn:E; simpl.
  - rewrite <- insert_delete_eq.
    rewrite map_fold_insert_L;
      [|intros; apply total_count_commute; assumption | apply lookup_delete_eq].
    rewrite (map_fold_delete_L _ _ p old m);
      [lia | intros; apply total_count_commute; assumption | exact E].
  - rewrite map_fold_insert_L;
      [lia | intros; apply total_count_commute; assumption | exact E].
Qed.

(** Extra X3.  The dictionary of prediction counts has, for every class,
    the number of nodes predicted that class; a class without a node has
    no entry; and the counts add up to the number of nodes. *)
Theorem count_predictions_distribution (final_predictions : list nat) :
  (forall c, default 0%nat (count_predictions final_predictions !! c)
             = occurrences c final_predictions) /\
  (forall c, count_predictions final_predictions !! c = None
             <-> c ∉ final_predictions) /\
  total_count (count_predictions final_predictions) = length final_predictions.
Proof.
  induction final_predictions as [|p l (IH1 & IH2 & IH3)] using rev_ind.
  - split; [|split]; try reflexivity.
    intros c. split; [intros _; apply not_elem_of_nil | intros _; reflexivity].
  - rewrite count_predictions_snoc. split; [|split].
    + intros c. rewrite occurrences_snoc. destruct (decide (p = c)) as [->|E].
      * rewrite lookup_insert_eq. simpl. rewrite IH1. reflexivity.
      * rewrite lookup_insert_ne by exact E. rewrite IH1. lia.
    + intros c. rewrite elem_of_app, list_elem_of_singleton.
      destruct (decide (p = c)) as [->|E].
      * rewrite lookup_insert_eq. split; [discriminate | intros H; exfalso; auto].
      * rewrite lookup_insert_ne by exact E. rewrite IH2.
        split; [intros H [H'|H']; [auto | congruence] | auto].
    + pose proof (total_count_insert (count_predictions l) p
                    (default 0 (count_predictions l !! p) + 1)%nat) as H.
      rewrite length_app. simpl. lia.
Qed.

End PredictionCountProperties.

(** ** The confidence gate as the threshold moves *)

Section GateFurtherProperties.

Import HighConfidence.

Lemma filter_map_length_le {A B C} (P : B -> Prop) (Q : C -> Prop)
  `{forall b, Decision (P b), forall c, Decision (Q c)}
  (f : A -> B) (g : A -> C) (l : list A) :
  (forall a, P (f a) -> Q (g a)) ->
  (length (filter P (map f l)) <= length (filter Q (map g l)))%nat.
Proof.
  intros Himp. induction l as [|a l IH]; simpl; [lia|].
  destruct (decide (P (f a))) as [p|np].
  - rewrite (filter_cons_True P) by exact p.
    rewrite (filter_cons_True Q) by (apply Himp; exact p). simpl. lia.
  - rewrite (filter_cons_False P) by exact np.
    destruct (decide (Q (g a))) as [q|nq].
    + rewrite (filter_cons_True Q) by exact q. simpl. lia.
    + rewrite (filter_cons_False Q) by exact nq. exact IH.
Qed.

Lemma evaluate_returns (softmax : list pyfloat -> list pyfloat)
  (out : list (list pyfloat)) (threshold : pyfloat) (ev : evaluation) :
  evaluate_model_high_confidence softmax out threshold = Returned ev ->
  exists maxes,
    map_outcome torch_max (map softmax out) = Returned maxes /\
    max_probs ev = map fst maxes /\
    predictions ev = map snd maxes /\
    final_predictions ev = map (gate threshold) maxes /\
    confident_count ev
    = length (filter (fun b => b = true)
                     (map (fun mp => confident threshold (fst mp)) maxes)) /\
    probabilities ev = map softmax out.
Proof.
  unfold evaluate_model_high_confidence.
  destruct (map_outcome torch_max (map softmax out)) as [maxes|e]; [|discriminate].
  cbn [bind_outcome]. destruct (length out =? 0)%nat; [discriminate|].
  intros [= <-]. exists maxes. repeat split.
Qed.

Lemma gate_nonzero (threshold : pyfloat) (mp : pyfloat * nat) :
  gate threshold mp <> 0%nat ->
  confident threshold (fst mp) = true /\ gate threshold mp = snd mp.
Proof.
  unfold gate. destruct (confident threshold (fst mp));
    [split; reflexivity | congruence].
Qed.

(** Extra X4.  Raising the confidence threshold never adds a
    recommendation: with a threshold at least as large, the argmax and
    its probability of every node are the same, every node predicted a
    class other than 0 was predicted that class before, and the number of
    confident nodes does not grow. *)
Theorem raising_threshold_only_removes
  (softmax : list pyfloat -> list pyfloat) (out : list (list pyfloat))
  (threshold threshold' : pyfloat) (ev ev' : evaluation) :
  fle threshold threshold' = true ->
  evaluate_model_high_confidence softmax out threshold = Returned ev ->
  evaluate_model_high_confidence softmax out threshold' = Returned ev' ->
  max_probs ev' = max_probs ev /\
  predictions ev' = predictions ev /\
  (forall i c, final_predictions ev' !! i = Some c -> c <> 0%nat ->
               final_predictions ev !! i = Some c) /\
  (confident_count ev' <= confident_count ev)%nat.
Proof.
  intros Hle Hev Hev'.
  destruct (evaluate_returns _ _ _ _ Hev) as (maxes & Hm & Hp & Ha & Hf & Hc & _).
  destruct (evaluate_returns _ _ _ _ Hev') as (maxes' & Hm' & Hp' & Ha' & Hf' & Hc' & _).
  rewrite Hm in Hm'. injection Hm' as <-.
  assert (Hmono : forall mp : pyfloat * nat,
             confident threshold' (fst mp) = true ->
             confident threshold (fst mp) = true).
  { intros mp H. unfold confident, fge in *.
    eapply fle_trans; [apply float32_monotone, Hle | exact H]. }
  split; [congruence|]. split; [congruence|]. split.
  - intros i c Hi Hc0. rewrite Hf' in Hi. rewrite Hf.
    rewrite lookup_map in *. destruct (maxes !! i) as [mp|]; [|discriminate].
    simpl in *. injection Hi as <-.
    destruct (gate_nonzero threshold' mp Hc0) as [Hge Heq].
    rewrite Heq. unfold gate. rewrite (Hmono mp Hge). reflexivity.
  - rewrite Hc, Hc'. apply filter_map_length_le. intros mp H. apply Hmono, H.
Qed.

(** Two nodes with largest probabilities 0.6 and 0.9: both are confident
    at threshold 0.5, only the second at the default 0.8. *)
Lemma raising_threshold_witness :
  exists ev ev',
    evaluate_model_high_confidence (fun row => row)
      [[Fin (1 # 10); Fin (3 # 10); Fin (6 # 10)];
       [Fin (5 # 100); Fin (9 # 10); Fin (5 # 100)]] (Fin (1 # 2)) = Returned ev /\
    evaluate_model_high_confidence (fun row => row)
      [[Fin (1 # 10); Fin (3 # 10); Fin (6 # 10)];
       [Fin (5 # 100); Fin (9 # 10); Fin (5 # 100)]]
      default_confidence_threshold = Returned ev' /\
    (confident_count ev' <= confident_count ev)%nat.
Proof.
  do 2 eexists. split; [vm_compute; reflexivity|].
  split; [vm_compute; reflexivity|].
  eapply (raising_threshold_only_removes (fun row => row)
            [[Fin (1 # 10); Fin (3 # 10); Fin (6 # 10)];
             [Fin (5 # 100); Fin (9 # 10); Fin (5 # 100)]]
            (Fin (1 # 2)) default_confidence_threshold);
    vm_compute; reflexivity.
Defined.

Lemma max_from_index (l : list pyfloat) (best : pyfloat) (bi i : nat) :
  (bi < i)%nat ->
  forall m a, max_from best bi i l = (m, a) -> (a < i + length l)%nat.
Proof.
  revert best bi i. induction l as [|x t IH]; intros best bi i Hbi m a; simpl.
  - intros [= _ <-]. lia.
  - destruct (better x best); intros H; apply IH in H; lia.
Qed.

(** Extra X5.  Every final prediction is the index of one of the classes
    of its node's probability row; the nodes predicted a class other than
    0 are at most the confident nodes, which are at most all nodes; and
    the evaluation returns one probability row, one maximum, one argmax
    and one final prediction per node. *)
Theorem final_predictions_are_classes
  (softmax : list pyfloat -> list pyfloat) (out : list (list pyfloat))
  (threshold : pyfloat) (ev : evaluation) :
  evaluate_model_high_confidence softmax out threshold = Returned ev ->
  (forall i row c, out !! i = Some row -> final_predictions ev !! i = Some c ->
                   (c < length (softmax row))%nat) /\
  (length (filter (fun c => c <> 0%nat) (final_predictions ev))
   <= confident_count ev)%nat /\
  (confident_count ev <= length out)%nat /\
  length (probabilities ev) = length out /\
  length (max_probs ev) = length out /\
  length (predictions ev) = length out /\
  length (final_predictions ev) = length out.
Proof.
  intros Hev.
  destruct (evaluate_returns _ _ _ _ Hev) as (maxes & Hm & Hp & Ha & Hf & Hc & Hprobs).
  destruct (map_outcome_lookup _ _ _ Hm) as [Hlen Hlk].
  rewrite length_map in Hlen.
  split; [|split; [|split]].
  - intros i row c Hi Hfi.
    destruct (Hlk i (softmax row)) as [[m a] [Hmax Hb]];
      [rewrite lookup_map, Hi; reflexivity|].
    rewrite Hf, lookup_map, Hb in Hfi. simpl in Hfi. injection Hfi as <-.
    destruct (softmax row) as [|p t] eqn:Erow; [discriminate|].
    unfold torch_max in Hmax. injection Hmax as Hmax.
    apply max_from_index in Hmax; [|lia].
    unfold gate. simpl. destruct (confident threshold m); simpl; lia.
  - rewrite Hf, Hc.
    apply (filter_map_length_le (fun c => c <> 0%nat) (fun b => b = true)).
    intros mp H. apply gate_nonzero in H. tauto.
  - rewrite Hc. etransitivity; [apply length_filter|].
    rewrite length_map. lia.
  - rewrite Hprobs, Hp, Ha, Hf, !length_map. repeat split; assumption.
Qed.

Lemma final_predictions_witness :
  exists ev,
    evaluate_model_high_confidence (fun row => row)
      [[Fin (1 # 10); Fin (3 # 10); Fin (6 # 10)];
       [Fin (5 # 100); Fin (9 # 10); Fin (5 # 100)]]
      default_confidence_threshold = Returned ev /\
    (confident_count ev <= 2)%nat /\
    length (final_predictions ev) = 2%nat.
Proof.
  eexists. split; [vm_compute; reflexivity|].
  pose proof (final_predictions_are_classes (fun row => row)
                [[Fin (1 # 10); Fin (3 # 10); Fin (6 # 10)];
                 [Fin (5 # 100); Fin (9 # 10); Fin (5 # 100)]]
                default_confidence_threshold _ ltac:(vm_compute; reflexivity))
    as (_ & _ & H & _ & _ & _ & H').
  split; [exact H | exact H'].
Defined.

End GateFurtherProperties.

(** ** Training histories *)

Section HistoryProperties.

Import Trainer EarlyStopSpec.

(** Rounding a quotient up, one step at a time. *)
Lemma ceil_div_succ (n K : nat) :
  (0 < K)%nat ->
  ((S n + K - 1) / K
   = (n + K - 1) / K + (if (n mod K =? 0)%nat then 1 else 0))%nat /\
  ((n mod K = 0)%nat -> n = ((n + K - 1) / K * K)%nat).
Proof.
  intros HK.
  pose proof (Nat.div_mod_eq n K) as Hn.
  pose proof (Nat.mod_upper_bound n K ltac:(lia)) as Hr.
  set (q := (n / K)%nat) in *. set (r := (n mod K)%nat) in *.
  destruct (Nat.eqb_spec r 0) as [E|E].
  - assert (H1 : ((n + K - 1) / K = q)%nat)
      by (symmetry; apply (Nat.div_unique _ _ _ (K - 1)); lia).
    assert (H2 : ((S n + K - 1) / K = q + 1)%nat)
      by (symmetry; apply (Nat.div_unique _ _ _ 0); lia).
    rewrite H1, H2. split; [reflexivity | intros _; lia].
  - assert (H1 : ((n + K - 1) / K = q + 1)%nat)
      by (symmetry; apply (Nat.div_unique _ _ _ (r - 1)); lia).
    assert (H2 : ((S n + K - 1) / K = q + 1)%nat)
      by (symmetry; apply (Nat.div_unique _ _ _ r); lia).
    rewrite H1, H2. split; [lia | intros; lia].
Qed.

(** The checkpoints among the first [n] epochs are the multiples of the
    validation period, [n / K] rounded up of them. *)
Lemma checkpoints_are_multiples (K n : nat) :
  (0 < K)%nat ->
  filter (fun e => (e mod K =? 0)%nat = true) (seq 0 n)
  = map (fun j => (j * K)%nat) (seq 0 ((n + K - 1) / K)).
Proof.
  intros HK. induction n as [|n IH].
  - replace ((0 + K - 1) / K)%nat with 0%nat; [reflexivity|].
    symmetry. apply Nat.div_small. lia.
  - destruct (ceil_div_succ n K HK) as [Hs Hm].
    rewrite seq_S, filter_app, IH, Hs. simpl.
    destruct (n mod K =? 0)%nat eqn:E.
    + rewrite filter_cons_True by exact E.
      rewrite Nat.add_1_r, seq_S, map_app. simpl.
      apply Nat.eqb_eq in E. rewrite <- (Hm E). reflexivity.
    + rewrite filter_cons_False by congruence.
      rewrite Nat.add_0_r, app_nil_r. reflexivity.
Qed.

Context (cfg : config) (loss_at val_acc_at : nat -> pyfloat).

Lemma run_epochs_accuracies (n a : nat) (s : train_state) :
  optimizer_steps s = a ->
  val_accuracies s
  = map val_acc_at
        (filter (fun e => (e mod validate_every cfg =? 0)%nat = true) (seq 0 a)) ->
  let s' := run_epochs cfg loss_at val_acc_at (seq a n) s in
  val_accuracies s'
  = map val_acc_at
        (filter (fun e => (e mod validate_every cfg =? 0)%nat = true)
                (seq 0 (optimizer_steps s'))) /\
  (a <= optimizer_steps s' <= a + n)%nat /\
  (early_stopping cfg = None -> optimizer_steps s' = (a + n)%nat).
Proof.
  revert a s. induction n as [|n IH]; intros a s Hs Hl; simpl.
  - rewrite Hs. split; [exact Hl|]. split; [lia | intros; lia].
  - assert (Hstep :
        optimizer_steps (fst (epoch_body cfg loss_at val_acc_at a s)) = S a /\
        val_accuracies (fst (epoch_body cfg loss_at val_acc_at a s))
        = map val_acc_at
              (filter (fun e => (e mod validate_every cfg =? 0)%nat = true)
                      (seq 0 (S a))) /\
        (early_stopping cfg = None ->
         snd (epoch_body cfg loss_at val_acc_at a s) = Continue)).
    { unfold epoch_body, validation. rewrite seq_S, filter_app, map_app. simpl.
      destruct (a mod validate_every cfg =? 0)%nat eqn:E.
      - rewrite filter_cons_True by exact E.
        destruct (early_stopping cfg); simpl;
          [destruct (fgt _ _); simpl|]; rewrite Hs, Hl;
          (split; [reflexivity|]); (split; [reflexivity|]);
          first [discriminate | reflexivity].
      - rewrite filter_cons_False by congruence. simpl.
        rewrite app_nil_r, Hs. split; [reflexivity|]. split; [exact Hl | reflexivity]. }
    destruct (epoch_body cfg loss_at val_acc_at a s) as [s1 f]. simpl in *.
    destruct Hstep as (Hs1 & Hl1 & Hnone).
    destruct f.
    + destruct (IH (S a) s1 Hs1 Hl1) as (H1 & H2 & H3).
      split; [exact H1|]. split; [lia|]. intros Hn. rewrite (H3 Hn). lia.
    + rewrite Hs1. split; [exact Hl1|]. split; [lia|].
      intros Hn. specialize (Hnone Hn). discriminate.
Qed.

End HistoryProperties.

Section HistoryClaims.

Import Trainer EarlyStopSpec.

(** Extra X6.  In every trainer the recorded histories belong to the
    epochs 0, K, 2K, ...: the j-th recorded loss and the j-th recorded
    validation accuracy are those of epoch j*K, and both lists have as
    many entries as the executed epochs divided by K, rounded up.  A
    trainer without early stopping (the base, direct and intersection
    scripts) executes exactly the requested number of epochs. *)
Theorem histories_follow_checkpoints
  (cfg : config) (loss_at val_acc_at : nat -> pyfloat) (epochs : Z) :
  (0 < validate_every cfg)%nat ->
  exists s,
    train_model cfg loss_at val_acc_at epochs = Returned s /\
    let K := validate_every cfg in
    let recorded := seq 0 ((optimizer_steps s + K - 1) / K) in
    train_losses s = map (fun j => loss_at (j * K)%nat) recorded /\
    val_accuracies s = map (fun j => val_acc_at (j * K)%nat) recorded /\
    (optimizer_steps s <= Z.to_nat epochs)%nat /\
    (early_stopping cfg = None -> optimizer_steps s = Z.to_nat epochs).
Proof.
  intros HK. unfold train_model, range. eexists. split; [reflexivity|].
  pose proof (run_epochs_losses cfg val_acc_at loss_at (Z.to_nat epochs) 0
                initial_state eq_refl eq_refl) as Hl.
  destruct (run_epochs_accuracies cfg loss_at val_acc_at (Z.to_nat epochs) 0
              initial_state eq_refl eq_refl) as (Ha & Hb & Hn).
  cbv zeta in *.
  rewrite (checkpoints_are_multiples _ _ HK), map_map in Hl, Ha.
  split; [exact Hl|]. split; [exact Ha|]. split; [lia | exact Hn].
Qed.

(** The base trainer over 25 epochs records the epochs 0, 10 and 20. *)
Lemma histories_witness :
  exists s,
    train_model base_config (fun e => Fin (inject_Z (Z.of_nat e)))
      (fun _ => Fin (1 # 2)) 25 = Returned s /\
    optimizer_steps s = 25%nat /\
    train_losses s = [Fin 0; Fin 10; Fin 20].
Proof.
  destruct (histories_follow_checkpoints base_config
              (fun e => Fin (inject_Z (Z.of_nat e))) (fun _ => Fin (1 # 2)) 25)
    as (s & Hs & Hl & _ & _ & Hn); [simpl; lia|].
  exists s. split; [exact Hs|]. split; [apply Hn; reflexivity|].
  vm_compute in Hs. injection Hs as <-. reflexivity.
Defined.

End HistoryClaims.

(** ** The best validation accuracy and the earliest early stop *)

Section BestAccuracy.

Import Trainer EarlyStopSpec.

Lemma fgt_not_nan (v best : pyfloat) : fgt v best = true -> is_nan v = false.
Proof. unfold fgt. destruct v, best; simpl; try discriminate; reflexivity. Qed.

(** The running best is 0 or a recorded accuracy, it is not NaN, it is at
    least 0 and at least every recorded accuracy that is a number. *)
Lemma best_so_far_is_maximum (accs : list pyfloat) :
  is_nan (best_so_far accs) = false /\
  fle (Fin 0) (best_so_far accs) = true /\
  (best_so_far accs = Fin 0 \/ best_so_far accs ∈ accs) /\
  (forall v, v ∈ accs -> is_nan v = false -> fle v (best_so_far accs) = true).
Proof.
  induction accs as [|v accs (Hnan & H0 & Hmem & Hub)] using rev_ind.
  - repeat split; [left; reflexivity|].
    intros v Hv. apply elem_of_nil in Hv. contradiction.
  - rewrite best_so_far_snoc.
    destruct (fgt v (best_so_far accs)) eqn:E.
    + pose proof (fgt_not_nan _ _ E) as Hv.
      assert (Hle : fle (best_so_far accs) v = true) by (apply flt_fle; exact E).
      split; [exact Hv|].
      split; [eapply fle_trans; eassumption|].
      split; [right; apply elem_of_app; right; apply list_elem_of_here|].
      intros w Hw Hwn. apply elem_of_app in Hw as [Hw|Hw].
      * eapply fle_trans; [apply Hub; assumption | exact Hle].
      * apply list_elem_of_singleton in Hw. subst w. apply fle_refl, Hv.
    + split; [exact Hnan|]. split; [exact H0|].
      split; [destruct Hmem as [Hm|Hm];
              [left; exact Hm | right; apply elem_of_app; left; exact Hm]|].
      intros w Hw Hwn. apply elem_of_app in Hw as [Hw|Hw].
      * apply Hub; assumption.
      * apply list_elem_of_singleton in Hw. subst w.
        apply flt_false_fle; assumption.
Qed.

Lemma take_while_length {A} (p : A -> bool) (l : list A) :
  (length (take_while p l) <= length l)%nat.
Proof.
  induction l as [|x t IH]; simpl; [lia|]. destruct (p x); simpl; lia.
Qed.

Lemma stale_run_le_length (accs : list pyfloat) :
  (stale_run accs <= length accs)%nat.
Proof.
  unfold stale_run. etransitivity; [apply take_while_length|].
  rewrite length_rev, length_seq. lia.
Qed.

(** Patience [P] cannot be exhausted before epoch [(P - 1) * K]. *)
Lemma patience_exhausted_late (K P : nat) (val_acc_at : nat -> pyfloat) (e : nat) :
  (0 < K)%nat ->
  patience_exhausted K val_acc_at P e = true -> ((P - 1) * K <= e)%nat.
Proof.
  intros HK H. unfold patience_exhausted in H.
  apply andb_true_iff in H as [Hmod Hle].
  apply Nat.eqb_eq in Hmod. apply Nat.leb_le in Hle.
  pose proof (stale_run_le_length (checkpoint_accs K val_acc_at (S e))) as Hlen.
  destruct (ceil_div_succ e K HK) as [Hs Hm].
  assert (Hcount : length (checkpoint_accs K val_acc_at (S e))
                   = ((e + K - 1) / K + 1)%nat).
  { unfold checkpoint_accs.
    rewrite length_map, (checkpoints_are_multiples K (S e) HK).
    rewrite length_map, length_seq, Hs, Hmod. reflexivity. }
  specialize (Hm Hmod).
  assert (P - 1 <= (e + K - 1) / K)%nat by lia.
  rewrite Hm. apply Nat.mul_le_mono_r. assumption.
Qed.

Lemma early_stop_lower_bound
  (K P : nat) (loss_at val_acc_at : nat -> pyfloat) (n : nat) :
  (0 < K)%nat ->
  let s := run_epochs {| validate_every := K; early_stopping := Some P |}
                      loss_at val_acc_at (seq 0 n) initial_state in
  (Nat.min n ((P - 1) * K + 1) <= optimizer_steps s <= n)%nat /\
  best_val_acc s = best_so_far (val_accuracies s).
Proof.
  intros HK s.
  destruct (run_epochs_invariant K P loss_at val_acc_at n 0 initial_state
              (initial_invariant K val_acc_at))
    as [(_ & _ & _ & Hbest) Hsteps].
  fold s in Hbest, Hsteps. split; [|exact Hbest].
  destruct (find (patience_exhausted K val_acc_at P) (seq 0 n)) as [e|] eqn:Hfind.
  - destruct (find_seq_first _ _ _ _ Hfind) as (Hr & He & _).
    pose proof (patience_exhausted_late K P val_acc_at e HK He). lia.
  - lia.
Qed.

(** Extra X7.  In an early-stopping trainer the best validation accuracy
    it returns is the largest number among the recorded validation
    accuracies, or 0 when none exceeds 0: it is not NaN, it is 0 or one of
    the recorded values, and no recorded number is larger. *)
Theorem best_val_acc_is_maximum
  (K P : nat) (loss_at val_acc_at : nat -> pyfloat) (epochs : Z) :
  (0 < K)%nat ->
  exists s,
    train_model {| validate_every := K; early_stopping := Some P |}
                loss_at val_acc_at epochs = Returned s /\
    is_nan (best_val_acc s) = false /\
    fle (Fin 0) (best_val_acc s) = true /\
    (best_val_acc s = Fin 0 \/ best_val_acc s ∈ val_accuracies s) /\
    (forall v, v ∈ val_accuracies s -> is_nan v = false ->
               fle v (best_val_acc s) = true).
Proof.
  intros HK. unfold train_model, range. eexists. split; [reflexivity|].
  destruct (early_stop_lower_bound K P loss_at val_acc_at (Z.to_nat epochs) HK)
    as [_ Hbest].
  rewrite Hbest. apply best_so_far_is_maximum.
Qed.

(** Accuracies 0.5 at epoch 0 and NaN afterwards: the best is 0.5. *)
Lemma best_val_acc_witness :
  exists s,
    train_model improved_config (fun _ => Fin 1)
      (fun e => if (e =? 0)%nat then Fin (1 # 2) else NaN) 25 = Returned s /\
    val_accuracies s = [Fin (1 # 2); NaN; NaN] /\
    fle (Fin (1 # 2)) (best_val_acc s) = true.
Proof.
  destruct (best_val_acc_is_maximum 10 50 (fun _ => Fin 1)
              (fun e => if (e =? 0)%nat then Fin (1 # 2) else NaN) 25)
    as (s & Hs & _ & _ & _ & Hub); [lia|].
  exists s. split; [exact Hs|].
  assert (Hv : val_accuracies s = [Fin (1 # 2); NaN; NaN])
    by (vm_compute in Hs; injection Hs as <-; reflexivity).
  split; [exact Hv|]. apply Hub; [|reflexivity].
  rewrite Hv. apply list_elem_of_here.
Defined.

(** Extra X8.  Early stopping with patience [P] and validation period [K]
    cannot end a run before [(P - 1) * K + 1] epochs: a run executes at
    least that many epochs or all requested ones, whichever is less, and
    never more than requested.  So a run of at most [(P - 1) * K + 1]
    epochs always executes all of them, whatever the accuracies. *)
Theorem early_stop_not_before
  (K P : nat) (loss_at val_acc_at : nat -> pyfloat) (epochs : Z) :
  (0 < K)%nat ->
  exists s,
    train_model {| validate_every := K; early_stopping := Some P |}
                loss_at val_acc_at epochs = Returned s /\
    (Nat.min (Z.to_nat epochs) ((P - 1) * K + 1) <= optimizer_steps s)%nat /\
    (optimizer_steps s <= Z.to_nat epochs)%nat /\
    (epochs <= (Z.of_nat P - 1) * Z.of_nat K + 1 ->
     optimizer_steps s = Z.to_nat epochs).
Proof.
  intros HK. unfold train_model, range. eexists. split; [reflexivity|].
  destruct (early_stop_lower_bound K P loss_at val_acc_at (Z.to_nat epochs) HK)
    as [[Hlo Hhi] _].
  split; [exact Hlo|]. split; [exact Hhi|].
  intros He. destruct P as [|P]; [lia|].
  apply Nat.le_antisymm; [exact Hhi|].
  etransitivity; [|exact Hlo]. apply Nat.min_glb; [lia|]. nia.
Qed.

Lemma early_stop_not_before_witness :
  exists s,
    train_model {| validate_every := 2; early_stopping := Some 3%nat |}
      (fun _ => Fin 1) (fun _ => Fin 0) 5 = Returned s /\
    optimizer_steps s = 5%nat.
Proof.
  destruct (early_stop_not_before 2 3 (fun _ => Fin 1) (fun _ => Fin 0) 5)
    as (s & Hs & _ & _ & H); [lia|].
  exists s. split; [exact Hs|]. apply H. lia.
Defined.

(** Extra X9.  With their default numbers of epochs (200, 100 and 150)
    the improved, balanced and high-confidence trainers never stop early:
    their patience of 50, 30 and 40 validation checkpoints needs 491, 291
    and 586 epochs to run out, so every run of at most that many epochs
    executes all of them, whatever losses and accuracies it sees. *)
Theorem default_epochs_never_stop_early
  (loss_at val_acc_at : nat -> pyfloat) (epochs : Z) :
  (epochs <= 491 ->
   exists s, train_model improved_config loss_at val_acc_at epochs = Returned s /\
             optimizer_steps s = Z.to_nat epochs) /\
  (epochs <= 291 ->
   exists s, train_model balanced_config loss_at val_acc_at epochs = Returned s /\
             optimizer_steps s = Z.to_nat epochs) /\
  (epochs <= 586 ->
   exists s, train_model high_confidence_config loss_at val_acc_at epochs = Returned s /\
             optimizer_steps s = Z.to_nat epochs).
Proof.
  repeat split; intros He; unfold train_model, range;
    (eexists; split; [reflexivity|]).
  - destruct (early_stop_lower_bound 10 50 loss_at val_acc_at (Z.to_nat epochs))
      as [[Hlo Hhi] _]; [lia|].
    unfold improved_config. simpl in Hlo. lia.
  - destruct (early_stop_lower_bound 10 30 loss_at val_acc_at (Z.to_nat epochs))
      as [[Hlo Hhi] _]; [lia|].
    unfold balanced_config. simpl in Hlo. lia.
  - destruct (early_stop_lower_bound 15 40 loss_at val_acc_at (Z.to_nat epochs))
      as [[Hlo Hhi] _]; [lia|].
    unfold high_confidence_config. simpl in Hlo. lia.
Qed.

Lemma default_epochs_witness :
  exists s,
    train_model improved_config (fun _ => Fin 1) (fun _ => Fin 0) 200 = Returned s /\
    optimizer_steps s = 200%nat.
Proof.
  destruct (proj1 (default_epochs_never_stop_early (fun _ => Fin 1) (fun _ => Fin 0) 200))
    as (s & Hs & Hn); [lia|].
  exists s. split; [exact Hs | exact Hn].
Defined.

End BestAccuracy.

(** ** What the flat loader returns and when it raises *)

Section FlatLoaderProperties.

Import Improved.

Lemma even_half (n : nat) : Nat.odd n = false -> (n - n / 2 = n / 2)%nat.
Proof.
  intros H. rewrite <- Nat.negb_even in H. apply negb_false_iff in H.
  apply Nat.even_spec in H as [m ->].
  replace (2 * m / 2)%nat with m; [lia|].
  apply (Nat.div_unique _ _ _ 0); lia.
Qed.

Lemma view_2_rows (flat : list Z) (e : edge_tensor) :
  view_2 flat = Returned e ->
  e = (take (length flat / 2) flat, drop (length flat / 2) flat) /\
  length (fst e) = length (snd e) /\
  Nat.odd (length flat) = false.
Proof.
  unfold view_2.
  destruct (Nat.odd (length flat)) eqn:Eo; [discriminate|].
  intros [= <-].
  change (fst (Nat.divmod (length flat) 1 0 1)) with (length flat / 2)%nat.
  split; [reflexivity|]. split; [|reflexivity].
  cbn [fst snd]. rewrite length_take, length_drop, (even_half _ Eo).
  apply Nat.min_l. apply Nat.Div0.div_le_upper_bound; lia.
Qed.

Lemma tensor_max_min_return (e : edge_tensor) :
  fst e ++ snd e <> [] ->
  exists mx mn, tensor_max e = Returned mx /\ tensor_min e = Returned mn.
Proof.
  unfold tensor_max, tensor_min. destruct (fst e ++ snd e); [congruence|].
  intros _. do 2 eexists. split; reflexivity.
Qed.

(** Extra X10.  The improved flat loader raises exactly when the edge
    index holds an integer outside the 64-bit range, has an odd number of
    elements, or has no element (the tensor is then [2 x 0] and
    [edge_index.max()] raises).  In every other case it returns, also
    when every edge is invalid. *)
Theorem load_edges_raises_iff (num_nodes : nat) (flat : list Z) :
  (~ Forall is_int64 flat \/ length flat = 0%nat \/ Nat.odd (length flat) = true ->
   load_edges num_nodes flat = Raised RuntimeError) /\
  (Forall is_int64 flat -> length flat <> 0%nat -> Nat.odd (length flat) = false ->
   exists e rep, load_edges num_nodes flat = Returned (e, rep)).
Proof.
  unfold load_edges, read_edge_index, tensor_long.
  destruct (forallb int64 flat) eqn:E64.
  - apply forallb_int64 in E64. cbn [bind_outcome]. unfold view_2. split.
    + intros [H|[H|H]].
      * contradiction.
      * destruct flat; [reflexivity | discriminate].
      * rewrite H. reflexivity.
    + intros _ H0 Hodd. rewrite Hodd. cbn [bind_outcome]. unfold validate_edges.
      destruct (tensor_max_min_return
                  (take (length flat / 2) flat, drop (length flat / 2) flat))
        as (mx & mn & Hmx & Hmn).
      { simpl. rewrite take_drop. intros ->. apply H0. reflexivity. }
      rewrite Hmx, Hmn. cbn [bind_outcome].
      destruct ((mx >=? Z.of_nat num_nodes) || (mn <? 0)); do 2 eexists; reflexivity.
  - split; [reflexivity|]. intros H. apply forallb_int64 in H. congruence.
Qed.

(** One invalid edge on a graph of two nodes: the loader returns, with
    no edge left; an edge index of three numbers raises, and so does the
    index 2^63. *)
Lemma load_edges_raises_witness :
  load_edges 2 [0; 1; 2] = Raised RuntimeError /\
  load_edges 2 [0; 2 ^ 63] = Raised RuntimeError /\
  exists e rep, load_edges 2 [0; 7] = Returned (e, rep).
Proof.
  split; [|split].
  - apply (proj1 (load_edges_raises_iff 2 [0; 1; 2])). right. right. reflexivity.
  - apply (proj1 (load_edges_raises_iff 2 [0; 2 ^ 63])). left.
    intros H. apply forallb_int64 in H. discriminate.
  - apply (proj2 (load_edges_raises_iff 2 [0; 7])).
    + apply forallb_int64. reflexivity.
    + discriminate.
    + reflexivity.
Defined.

(** Extra X11.  The edges the improved flat loader returns are exactly
    the edges of the file with both endpoints in [0, node_count), in file
    order and unchanged: the two rows have the same length, every index
    is in range, a filtering report is printed exactly when some index of
    the file is out of range, and the report's number of valid edges is
    the number of edges returned. *)
Theorem loaded_edges_are_the_valid_edges
  (num_nodes : nat) (flat : list Z) (e : edge_tensor) (rep : option filter_report) :
  load_edges num_nodes flat = Returned (e, rep) ->
  length (fst e) = length (snd e) /\
  Forall (in_range (Z.of_nat num_nodes)) (fst e ++ snd e) /\
  combine (fst e) (snd e)
  = List.filter (fun st => valid_edge (Z.of_nat num_nodes) (fst st) (snd st))
      (combine (take (length flat / 2) flat) (drop (length flat / 2) flat)) /\
  (rep = None <-> Forall (in_range (Z.of_nat num_nodes)) flat) /\
  (forall r, rep = Some r -> reported_valid r = Z.of_nat (length (fst e))).
Proof.
  unfold load_edges.
  destruct (read_edge_index flat) as [e0|] eqn:Hread; [|discriminate].
  cbn [bind_outcome]. intros Hv.
  destruct (read_edge_index_returned flat e0 Hread) as (Hview & Hflat & _).
  destruct (view_2_rows flat e0 Hview) as (He0 & Hlen0 & _).
  pose proof (validate_edges_range _ _ _ _ Hv) as Hrange.
  pose proof (validate_edges_keeps_exactly_valid _ _ _ _ Hv) as Hkeep.
  assert (Hrest : length (fst e) = length (snd e) /\
                  (rep = None <-> Forall (in_range (Z.of_nat num_nodes)) flat) /\
                  (forall r, rep = Some r -> reported_valid r = Z.of_nat (length (fst e)))).
  { revert Hv. unfold validate_edges.
    destruct (tensor_max e0) as [mx|] eqn:Hmx; [|discriminate].
    destruct (tensor_min e0) as [mn|] eqn:Hmn; [|discriminate].
    cbn [bind_outcome].
    pose proof (guard_false_iff (Z.of_nat num_nodes) e0 mx mn Hmx Hmn) as Hguard.
    rewrite Hflat in Hguard.
    destruct ((mx >=? Z.of_nat num_nodes) || (mn <? 0)) eqn:G.
    - intros [= <- <-].
      destruct (select_valid_rows (Z.of_nat num_nodes) (fst e0) (snd e0)) as [H0 H1].
      rewrite clamp_valid by (apply Forall_app; split; assumption).
      unfold select_columns, valid_edges_mask, size_1. cbn [fst snd].
      split; [|split].
      + apply Nat2Z.inj.
        rewrite !select_length_sum; [reflexivity | |];
          rewrite length_zip_with; lia.
      + split; [discriminate|]. intros H. apply Hguard in H. discriminate.
      + intros r [= <-]. reflexivity.
    - intros [= <- <-]. pose proof (proj1 Hguard eq_refl) as Hall.
      rewrite clamp_valid by (rewrite Hflat; exact Hall).
      split; [exact Hlen0|]. split; [tauto | discriminate]. }
  destruct Hrest as (H1 & H2 & H3).
  rewrite He0 in Hkeep. cbn [fst snd] in Hkeep.
  split; [exact H1|]. split; [exact Hrange|]. split; [exact Hkeep|].
  split; [exact H2 | exact H3].
Qed.

Lemma loaded_edges_witness :
  combine [0; 1] [1; 2]
  = List.filter (fun st => valid_edge 3 (fst st) (snd st))
      (combine [0; 1; 5] [1; 2; 0]) /\
  Forall (in_range 3) ([0; 1] ++ [1; 2]).
Proof.
  destruct (loaded_edges_are_the_valid_edges 3 [0; 1; 5; 1; 2; 0] ([0; 1], [1; 2])
              (Some {| reported_valid := 2; reported_removed := 0 |}) eq_refl)
    as (_ & Hr & Hk & _).
  split; [exact Hk | exact Hr].
Defined.

End FlatLoaderProperties.

(** ** Writing and reading the artifact *)

Section ArtifactProperties.

Import Script.

Context (os : operating_system).



Context (data : Type)
        (parse : file_content -> list string * outcome data)
        (train_and_evaluate :
           data -> args -> list string * outcome (list Z * gmap string string))
        (path_join : string -> string -> string)
        (now artifact_name : string).

Local Abbreviation run_improved :=
  (main os data parse train_and_evaluate path_join
        (save_predictions_improved os now) artifact_name).


End ArtifactProperties.

Section ArtifactInstances.

Import Script.



End ArtifactInstances.

(** ** A run of the direct script *)

Section DirectMainProperties.

Import DirectSave DirectMain.

(** Projections and matches on results, leaving the transaction folded. *)
Ltac reduce_run :=
  cbn [fst snd predictions_table loader_connected stdout exit_status].

(** The four statements about a run that ended with an exception. *)
Ltac raised_run :=
  split; [first [reflexivity | assumption]|];
  split; [split; [intros H; discriminate H
                 | intros H; destruct H as (? & ? & ? & ? & ? & ?); congruence]|];
  split; [intros; congruence | intros; reflexivity].

Context (data : Type)
        (loader_connect_ok : bool)
        (load_graph_data : outcome data)
        (train_and_evaluate : data -> outcome (list Z))
        (save_connect_ok : bool)
        (statement_ok : nat -> bool).

Local Abbreviation run_direct :=
  (main data loader_connect_ok load_graph_data train_and_evaluate
        save_connect_ok statement_ok).

(** Extra X14.  Every run of the direct script ends with the loader's
    connection closed.  Its exit status is 0 exactly when both
    connections are accepted and loading, training and evaluation
    return: a failure inside the save is caught, so a run whose inserts
    fail still prints the completion message and exits with status 0,
    the predictions table as it was; the table changes only when the
    whole transaction is executed, and then holds one row per
    prediction. *)
Theorem direct_main_outcomes (w : world) :
  loader_connected w = false ->
  loader_connected (snd (run_direct w)) = false /\
  (exit_status (fst (run_direct w)) = 0 <->
   loader_connect_ok = true /\ save_connect_ok = true /\
   exists d predictions,
     load_graph_data = Returned d /\ train_and_evaluate d = Returned predictions) /\
  (forall d predictions,
     loader_connect_ok = true -> save_connect_ok = true ->
     load_graph_data = Returned d ->
     train_and_evaluate d = Returned predictions ->
     match execute_from statement_ok 0 (statements predictions)
                        (predictions_table w) with
     | Returned _ =>
         predictions_table (snd (run_direct w))
         = Some (insert_parameters predictions) /\
         stdout (snd (run_direct w))
         = stdout w ++ [MsgConnected; MsgSavingPredictions;
                        MsgSaved (length predictions);
                        MsgTrainingComplete; MsgDisconnected]
     | Raised _ =>
         predictions_table (snd (run_direct w)) = predictions_table w /\
         stdout (snd (run_direct w))
         = stdout w ++ [MsgConnected; MsgSavingPredictions; MsgErrorSaving;
                        MsgTrainingComplete; MsgDisconnected]
     end) /\
  (exit_status (fst (run_direct w)) <> 0 ->
   predictions_table (snd (run_direct w)) = predictions_table w).
Proof.
  intros Hclosed.
  unfold main, main_body, connect, disconnect, save_predictions_to_db,
    DirectSave.save_predictions_to_db, print.
  destruct loader_connect_ok; reduce_run; [|rewrite Hclosed; raised_run].
  destruct load_graph_data as [d|e]; reduce_run; [|raised_run].
  destruct (train_and_evaluate d) as [predictions|e] eqn:Htrain; reduce_run;
    [|raised_run].
  destruct save_connect_ok; reduce_run; [|raised_run].
  destruct (execute_from statement_ok 0 (statements predictions)
              (predictions_table w)) as [t|e] eqn:Hexec; reduce_run.
  - split; [reflexivity|]. split; [|split].
    + split; [intros _; repeat split; eauto | reflexivity].
    + intros d' p _ _ [= <-] Hp. rewrite Htrain in Hp. injection Hp as <-.
      rewrite Hexec. split.
      * apply (execute_statements_returned statement_ok predictions
                 (predictions_table w) t Hexec).
      * rewrite <- !app_assoc. reflexivity.
    + intros H. exfalso. apply H. reflexivity.
  - split; [reflexivity|]. split; [|split].
    + split; [intros _; repeat split; eauto | reflexivity].
    + intros d' p _ _ [= <-] Hp. rewrite Htrain in Hp. injection Hp as <-.
      rewrite Hexec. split; [reflexivity|].
      rewrite <- !app_assoc. reflexivity.
    + intros _. reflexivity.
Qed.

End DirectMainProperties.

Section DirectMainInstances.

Import DirectSave DirectMain.

(** A run in which the server refuses the second insert: status 0, the
    old row still in the table. *)
Lemma direct_main_witness :
  exit_status
    (fst (main unit true (Returned tt) (fun _ => Returned [0; 2; 1]) true
               (fun k => negb (k =? 3)%nat)
               {| predictions_table :=
                    Some [{| node_id := 7; prediction := 1; confidence := Fin (1 # 2) |}];
                  loader_connected := false; stdout := [] |})) = 0 /\
  loader_connected
    (snd (main unit true (Returned tt) (fun _ => Returned [0; 2; 1]) true
               (fun k => negb (k =? 3)%nat)
               {| predictions_table :=
                    Some [{| node_id := 7; prediction := 1; confidence := Fin (1 # 2) |}];
                  loader_connected := false; stdout := [] |})) = false.
Proof.
  destruct (direct_main_outcomes unit true (Returned tt)
              (fun _ => Returned [0; 2; 1]) true (fun k => negb (k =? 3)%nat)
              {| predictions_table :=
                   Some [{| node_id := 7; prediction := 1; confidence := Fin (1 # 2) |}];
                 loader_connected := false; stdout := [] |} eq_refl)
    as (Hc & Hexit & _).
  split; [|exact Hc].
  apply Hexit. repeat split. exists tt, [0; 2; 1]. split; reflexivity.
Defined.

End DirectMainInstances.

(** ** Class weights *)

Section ClassWeightProperties.

Import ClassWeights.

Lemma unique_spec (l : list Z) :
  NoDup (unique l) /\ (forall c, c ∈ unique l <-> c ∈ l).
Proof.
  unfold unique. split.
  - rewrite merge_sort_Permutation. apply NoDup_remove_dups.
  - intros c. rewrite merge_sort_Permutation. apply elem_of_remove_dups.
Qed.

Lemma tensor_index_in_range (len : nat) (c : Z) :
  0 <= c < Z.of_nat len -> tensor_index len c = Returned (Z.to_nat c).
Proof.
  intros [H0 H1]. unfold tensor_index.
  rewrite (proj2 (Z.leb_le _ _) H0), (proj2 (Z.ltb_lt _ _) H1). reflexivity.
Qed.

(** The loop writes the [j]-th weight at the class of position [j] and
    leaves every other entry alone. *)
Lemma assign_weights_spec (float32 : pyfloat -> pyfloat)
  (classes : list Z) (n : nat) :
  NoDup classes ->
  Forall (fun c => 0 <= c < Z.of_nat n) classes ->
  forall (ws : list pyfloat) (i : nat) (fw : list pyfloat),
    length fw = n ->
    (i + length ws = length classes)%nat ->
    exists fw',
      assign_weights float32 classes i ws fw = Returned fw' /\
      length fw' = n /\
      (forall j c, (i <= j)%nat -> classes !! j = Some c ->
                   fw' !! Z.to_nat c = float32 <$> ws !! (j - i)%nat) /\
      (forall k, (forall j c, (i <= j)%nat -> classes !! j = Some c ->
                              Z.to_nat c <> k) ->
                 fw' !! k = fw !! k).
Proof.
  intros Hnd Hrange ws. induction ws as [|w rest IH]; intros i fw Hlen Hi.
  - exists fw. split; [reflexivity|]. split; [exact Hlen|]. split.
    + intros j c Hij Hj. apply lookup_lt_Some in Hj. simpl in Hi. lia.
    + intros. reflexivity.
  - simpl in Hi. cbn [assign_weights].
    destruct (lookup_lt_is_Some_2 classes i ltac:(lia)) as [c Hc].
    rewrite Hc. unfold assign.
    assert (Hcr : 0 <= c < Z.of_nat n).
    { rewrite Forall_forall in Hrange. apply Hrange.
      eapply list_elem_of_lookup_2. exact Hc. }
    rewrite Hlen, (tensor_index_in_range n c Hcr). cbn [bind_outcome].
    destruct (IH (S i) (<[Z.to_nat c := float32 w]> fw)) as (fw' & Hret & Hlen' & Hset & Hkeep);
      [rewrite length_insert; exact Hlen | lia |].
    exists fw'. split; [exact Hret|]. split; [exact Hlen'|]. split.
    + intros j cj Hij Hj. destruct (decide (j = i)) as [->|Hne].
      * rewrite Hc in Hj. injection Hj as <-.
        rewrite Nat.sub_diag. simpl.
        rewrite Hkeep.
        -- apply list_lookup_insert_eq. lia.
        -- intros j' c' Hj' Hc' Heq.
           assert (Hc'r : 0 <= c' < Z.of_nat n).
           { rewrite Forall_forall in Hrange. apply Hrange.
             eapply list_elem_of_lookup_2. exact Hc'. }
           apply Z2Nat.inj in Heq; [|lia|lia]. subst c'.
           pose proof (NoDup_lookup classes i j' c Hnd Hc Hc'). lia.
      * rewrite (Hset j cj ltac:(lia) Hj).
        replace (j - i)%nat with (S (j - S i)) by lia. reflexivity.
    + intros k Hk. rewrite Hkeep.
      * apply list_lookup_insert_ne. apply (Hk i c); [lia | exact Hc].
      * intros j' c' Hj' Hc'. apply (Hk j' c'); [lia | exact Hc'].
Qed.

(** Extra X15.  When the training labels are classes below [num_classes]
    and the library returns one weight per distinct training label, the
    weight tensor has one entry per class: a class that occurs among the
    training labels carries the library's weight for it, rounded to the
    tensor's element type, and a class that does not occur keeps the
    weight 1. *)
Theorem class_weights_by_class
  (float32 : pyfloat -> pyfloat)
  (compute_class_weight : list Z -> list Z -> outcome (list pyfloat))
  (y_train : list Z) (num_classes : Z) (class_weights : list pyfloat) :
  Forall (fun c => 0 <= c < num_classes) y_train ->
  compute_class_weight (unique y_train) y_train = Returned class_weights ->
  length class_weights = length (unique y_train) ->
  0 <= num_classes ->
  exists full_weights,
    compute_class_weights float32 compute_class_weight y_train num_classes
    = Returned full_weights /\
    length full_weights = Z.to_nat num_classes /\
    (forall i c, unique y_train !! i = Some c ->
                 full_weights !! Z.to_nat c = float32 <$> class_weights !! i) /\
    (forall c, 0 <= c < num_classes -> c ∉ y_train ->
               full_weights !! Z.to_nat c = Some (Fin 1)).
Proof.
  intros Hrange Hsk Hlen Hn.
  destruct (unique_spec y_train) as [Hnd Hmem].
  unfold compute_class_weights. rewrite Hsk. cbn [bind_outcome]. unfold ones.
  destruct (Z.ltb_spec num_classes 0) as [|_]; [lia|]. cbn [bind_outcome].
  destruct (assign_weights_spec float32 (unique y_train)
                                (Z.to_nat num_classes) Hnd)
    with (ws := class_weights) (i := 0%nat)
         (fw := replicate (Z.to_nat num_classes) (Fin 1))
    as (fw' & Hret & Hlen' & Hset & Hkeep).
  - apply Forall_forall. intros c Hc. apply Hmem in Hc.
    rewrite Forall_forall in Hrange. specialize (Hrange c Hc). lia.
  - apply length_replicate.
  - lia.
  - exists fw'. split; [exact Hret|]. split; [exact Hlen'|]. split.
    + intros i c Hi. rewrite (Hset i c ltac:(lia) Hi).
      rewrite Nat.sub_0_r. reflexivity.
    + intros c Hc Hnot. rewrite Hkeep.
      * apply lookup_replicate_2. lia.
      * intros j c' _ Hc' Heq.
        assert (Hin : c' ∈ y_train)
          by (apply Hmem; eapply list_elem_of_lookup_2; exact Hc').
        rewrite Forall_forall in Hrange. specialize (Hrange c' Hin).
        apply Z2Nat.inj in Heq; [|lia|lia]. subst c'. contradiction.
Qed.

(** Training labels 0, 0, 2 of three classes: class 1 keeps weight 1. *)
Lemma class_weights_witness :
  exists full_weights,
    compute_class_weights (fun w => w)
      (fun classes _ => Returned (map (fun _ => Fin (3 # 2)) classes))
      [0; 0; 2] 3 = Returned full_weights /\
    full_weights !! 1%nat = Some (Fin 1).
Proof.
  destruct (class_weights_by_class (fun w => w)
              (fun classes _ => Returned (map (fun _ => Fin (3 # 2)) classes))
              [0; 0; 2] 3 (map (fun _ => Fin (3 # 2)) (unique [0; 0; 2])))
    as (fw & Hfw & _ & _ & Hone).
  - repeat constructor; lia.
  - reflexivity.
  - apply length_map.
  - lia.
  - exists fw. split; [exact Hfw|].
    apply (Hone 1); [lia|].
    apply (bool_decide_unpack (1 ∉ [0; 0; 2])). vm_compute. exact I.
Defined.

End ClassWeightProperties.
